(** * DJI video telemetry fixer: a shallow embedding of [inject_dji_metadata.py]

    The development follows the script top to bottom: the telemetry parser
    and its regular expressions, the ISO 6709 formatter, the external-tool
    boundaries (exiftool, ffmpeg, the recycle-bin shell call) as an explicit
    world with a trace, the per-video worker, the matcher and the tally.

    Python [str] values are lists of characters.  The character type is
    Rocq's [ascii], read as the code points 0..255; the classes [\d] and
    [\s] are the ones Python's [re] uses on that range. *)

From Stdlib Require Import ZArith Ascii String SpecFloat Permutation.
From stdpp Require Import base option list strings gmap.

Local Open Scope Z_scope.

(** ** Python strings *)

Abbreviation pystr := (list ascii).

Definition py (s : string) : pystr := list_ascii_of_string s.

Definition chr_eqb (a b : ascii) : bool := Ascii.eqb a b.

(** [s.startswith(p)] *)
Fixpoint startswith (s p : pystr) {struct p} : bool :=
  match p, s with
  | [], _ => true
  | _ :: _, [] => false
  | a :: p', b :: s' => chr_eqb a b && startswith s' p'
  end.

(** [p in s] on strings: some suffix of [s] starts with [p]. *)
Fixpoint contains (s p : pystr) : bool :=
  startswith s p ||
  match s with
  | [] => false
  | _ :: s' => contains s' p
  end.

(** [s.replace(old, new)] for a non-empty [old]: scan from the left, and at
    every position where [old] starts emit [new] and skip [old].  The fuel
    is the length of [s]; every step consumes at least one character. *)
Fixpoint replace_go (fuel : nat) (s old new : pystr) : pystr :=
  match fuel with
  | O => s
  | S fuel' =>
      match s with
      | [] => []
      | c :: s' =>
          if startswith s old
          then new ++ replace_go fuel' (drop (length old) s) old new
          else c :: replace_go fuel' s' old new
      end
  end.

Definition replace (s old new : pystr) : pystr :=
  replace_go (length s) s old new.

(** ** Regular expressions

    The seven patterns of [parse_srt_data] use literals, the classes [\d],
    [\s], [[-+]] and [[^\]]], greedy repetition of a single class,
    concatenation, alternation and one capture group.  A pattern is kept as
    the part before the group, the group and the part after it. *)

Inductive cclass : Type :=
  | CDigit                (* \d *)
  | CSpace                (* \s *)
  | CSign                 (* [-+] *)
  | CNotRBracket          (* [^\]] *)
  | CChar (c : ascii).    (* a literal character *)

Definition is_digit (c : ascii) : bool :=
  let n := nat_of_ascii c in (48 <=? n)%nat && (n <=? 57)%nat.

(** Unicode white space below 256: TAB..CR, FS..US, space, NEL, NBSP. *)
Definition is_space (c : ascii) : bool :=
  let n := nat_of_ascii c in
  ((9 <=? n)%nat && (n <=? 13)%nat) || ((28 <=? n)%nat && (n <=? 32)%nat)
  || (n =? 133)%nat || (n =? 160)%nat.

Definition in_class (p : cclass) (c : ascii) : bool :=
  match p with
  | CDigit => is_digit c
  | CSpace => is_space c
  | CSign => chr_eqb c "-" || chr_eqb c "+"
  | CNotRBracket => negb (chr_eqb c "]")
  | CChar a => chr_eqb c a
  end.

Inductive regex : Type :=
  | Eps
  | One (p : cclass)
  | Star (p : cclass)              (* greedy p* *)
  | Cat (r1 r2 : regex)
  | Alt (r1 r2 : regex).           (* r1|r2, r1 tried first *)

Definition Plus (p : cclass) : regex := Cat (One p) (Star p).
Definition Opt (p : cclass) : regex := Alt (One p) Eps.

Fixpoint Lit (s : pystr) : regex :=
  match s with
  | [] => Eps
  | c :: s' => Cat (One (CChar c)) (Lit s')
  end.

Fixpoint Rep (n : nat) (p : cclass) : regex :=
  match n with
  | O => Eps
  | S n' => Cat (One p) (Rep n' p)
  end.

Fixpoint Cats (rs : list regex) : regex :=
  match rs with
  | [] => Eps
  | r :: rs' => Cat r (Cats rs')
  end.

Record pattern : Type := Pattern { prefix : regex; group1 : regex; suffix : regex }.

(** The words of a regular expression. *)
Fixpoint lang (r : regex) (w : pystr) : Prop :=
  match r with
  | Eps => w = []
  | One p => ∃ c, w = [c] ∧ in_class p c = true
  | Star p => Forall (λ c, in_class p c = true) w
  | Cat r1 r2 => ∃ w1 w2, w = w1 ++ w2 ∧ lang r1 w1 ∧ lang r2 w2
  | Alt r1 r2 => lang r1 w ∨ lang r2 w
  end.

(** [occurs pat text g]: somewhere in [text] the pattern matches with [g]
    as the text of its group. *)
Definition occurs_with (pat : pattern) (text g : pystr) : Prop :=
  ∃ before w0 w2 after,
    text = before ++ w0 ++ g ++ w2 ++ after
    ∧ lang (prefix pat) w0 ∧ lang (group1 pat) g ∧ lang (suffix pat) w2.

Definition occurs (pat : pattern) (text : pystr) : Prop :=
  ∃ g, occurs_with pat text g.

(** The backtracking matcher, in continuation-passing style: [k] is what
    remains to be matched, and the first success in priority order wins. *)
Fixpoint star {A} (p : cclass) (s : pystr) (k : pystr → option A) : option A :=
  match s with
  | c :: s' =>
      if in_class p c
      then match star p s' k with
           | Some a => Some a
           | None => k s
           end
      else k s
  | [] => k []
  end.

Fixpoint rmatch {A} (r : regex) (s : pystr) (k : pystr → option A) : option A :=
  match r with
  | Eps => k s
  | One p =>
      match s with
      | c :: s' => if in_class p c then k s' else None
      | [] => None
      end
  | Star p => star p s k
  | Cat r1 r2 => rmatch r1 s (λ s1, rmatch r2 s1 k)
  | Alt r1 r2 =>
      match rmatch r1 s k with
      | Some a => Some a
      | None => rmatch r2 s k
      end
  end.

(** Match anchored at the start of [s]; the result is [group(1)]. *)
Definition match_at (pat : pattern) (s : pystr) : option pystr :=
  rmatch (prefix pat) s (λ s1,
    rmatch (group1 pat) s1 (λ s2,
      rmatch (suffix pat) s2 (λ _,
        Some (take (length s1 - length s2)%nat s1)))).

(** [re.search(pat, s)]: the leftmost position with a match.  [None] is
    Python's [None]; [Some g] is a match object whose [group(1)] is [g]. *)
Fixpoint re_search (pat : pattern) (s : pystr) : option pystr :=
  match match_at pat s with
  | Some g => Some g
  | None =>
      match s with
      | [] => None
      | _ :: s' => re_search pat s'
      end
  end.

(** ** Python numbers

    A Python [float] is an IEEE 754 binary64 value, here a [spec_float] of
    the Standard Library with precision 53 and maximal exponent 1024.  The
    only [int] that reaches the formatter is the default altitude [0]. *)

Definition prec : Z := 53.
Definition emax : Z := 1024.

Inductive pynum : Type :=
  | PInt (z : Z)
  | PFloat (f : spec_float).

(** The binary64 value nearest to [d / 10^k] (ties to even), with sign. *)
Definition float_of_decimal (neg : bool) (d : Z) (k : nat) : spec_float :=
  match d with
  | Zpos m =>
      SFdiv prec emax (S754_finite neg m 0)
                      (S754_finite false (Z.to_pos (10 ^ Z.of_nat k)) 0)
  | _ => S754_zero neg
  end.

(** [float(z)] for an [int]. *)
Definition float_of_int (z : Z) : spec_float :=
  binary_normalize prec emax z 0 false.

Definition digit_val (c : ascii) : Z := Z.of_nat (nat_of_ascii c) - 48.

(** Value of a string of decimal digits, most significant first. *)
Definition digits_val (ds : pystr) : Z :=
  fold_left (λ acc c, 10 * acc + digit_val c) ds 0.

(** Longest prefix of digits, and the rest. *)
Fixpoint span_digits (s : pystr) : pystr * pystr :=
  match s with
  | c :: s' =>
      if is_digit c
      then let '(ds, rest) := span_digits s' in (c :: ds, rest)
      else ([], s)
  | [] => ([], [])
  end.

(** [float(s)] on the decimal syntax the patterns of [parse_srt_data] can
    capture: an optional sign, digits, and an optional point followed by
    digits, with a digit on at least one side of the point.  [None] is
    [ValueError]. *)
Definition py_float (s : pystr) : option spec_float :=
  let '(neg, s1) :=
    match s with
    | c :: t => if chr_eqb c "-" then (true, t)
                else if chr_eqb c "+" then (false, t) else (false, s)
    | [] => (false, s)
    end in
  let '(ip, s2) := span_digits s1 in
  match s2 with
  | [] =>
      match ip with
      | [] => None
      | _ => Some (float_of_decimal neg (digits_val ip) 0)
      end
  | c :: fp =>
      if chr_eqb c "." && forallb is_digit fp
         && negb (Nat.eqb (length ip + length fp) 0)
      then Some (float_of_decimal neg (digits_val (ip ++ fp)) (length fp))
      else None
  end.

(** [x >= 0] *)
Definition ge0 (x : pynum) : bool :=
  match x with
  | PInt z => 0 <=? z
  | PFloat (S754_zero _) => true
  | PFloat (S754_finite s _ _) => negb s
  | PFloat (S754_infinity s) => negb s
  | PFloat S754_nan => false
  end.

(** [abs(x)] *)
Definition pyabs (x : pynum) : pynum :=
  match x with
  | PInt z => PInt (Z.abs z)
  | PFloat f => PFloat (SFabs f)
  end.

Definition to_float (x : pynum) : spec_float :=
  match x with
  | PInt z => float_of_int z
  | PFloat f => f
  end.

(** ** Fixed-point formatting: [format(x, '0W.Pf')] *)

(** [n / d] rounded to the nearest integer, ties to the even one. *)
Definition round_half_even (n d : Z) : Z :=
  let q := n / d in
  let r := n mod d in
  match 2 * r ?= d with
  | Lt => q
  | Gt => q + 1
  | Eq => if Z.even q then q else q + 1
  end.

(** [|x| * 10^p] rounded to an integer, the digits that ['.pf'] prints;
    [None] for infinities and NaN. *)
Definition scaled (p : nat) (x : spec_float) : option Z :=
  match x with
  | S754_zero _ => Some 0
  | S754_finite _ m e =>
      Some (if 0 <=? e
            then Z.pos m * 2 ^ e * 10 ^ Z.of_nat p
            else round_half_even (Z.pos m * 10 ^ Z.of_nat p) (2 ^ (- e)))
  | _ => None
  end.

Definition digit_chr (d : Z) : ascii := ascii_of_nat (Z.to_nat (48 + d)).

(** [str(n)] for [n >= 0]: the decimal digits without leading zeros. *)
Fixpoint str_go (fuel : nat) (n : Z) (acc : pystr) : pystr :=
  match fuel with
  | O => acc
  | S fuel' =>
      let acc' := digit_chr (n mod 10) :: acc in
      if n / 10 =? 0 then acc' else str_go fuel' (n / 10) acc'
  end.

Definition str_of_Z (n : Z) : pystr :=
  str_go (S (Z.to_nat (Z.log2 n))) n [].

(** Left padding with ['0'] up to [width] characters. *)
Definition zfill (width : nat) (s : pystr) : pystr :=
  replicate (width - length s)%nat "0"%char ++ s.

(** [format(x, '0{width}.{p}f')] for a non-negative [x]. *)
Definition format_f (width p : nat) (x : pynum) : pystr :=
  match scaled p (to_float x) with
  | Some n =>
      let ip := str_of_Z (n / 10 ^ Z.of_nat p) in
      let fp := zfill p (str_of_Z (n mod 10 ^ Z.of_nat p)) in
      zfill width (if Nat.eqb p 0 then ip else ip ++ "."%char :: fp)
  | None =>
      zfill width (match to_float x with
                   | S754_nan => py "nan"
                   | _ => py "inf"
                   end)
  end.

(** [format_iso6709(lat, lon, alt)] *)
Definition format_iso6709 (lat lon alt : pynum) : pystr :=
  let lat_sign := if ge0 lat then "+"%char else "-"%char in
  let lon_sign := if ge0 lon then "+"%char else "-"%char in
  let alt_sign := if ge0 alt then "+"%char else "-"%char in
  lat_sign :: format_f 8 5 (pyabs lat)
  ++ lon_sign :: format_f 9 5 (pyabs lon)
  ++ alt_sign :: format_f 8 3 (pyabs alt)
  ++ py "/".

(** A decimal literal of the source text, as Python reads it. *)
Definition float_lit (s : string) : pynum :=
  PFloat (default S754_nan (py_float (py s))).

(** ** TelemetryParser: the patterns of [parse_srt_data] *)

(** [[-+]?\d*\.\d+|\d+], the group of the latitude, longitude and altitude
    patterns. *)
Definition number_re : regex :=
  Alt (Cats [Opt CSign; Star CDigit; One (CChar "."); Plus CDigit])
      (Plus CDigit).

(** [(\d{4}-\d{2}-\d{2} \d{2}:\d{2}:\d{2})] *)
Definition date_pat : pattern :=
  Pattern Eps
    (Cats [Rep 4 CDigit; Lit (py "-"); Rep 2 CDigit; Lit (py "-"); Rep 2 CDigit;
           Lit (py " ");
           Rep 2 CDigit; Lit (py ":"); Rep 2 CDigit; Lit (py ":"); Rep 2 CDigit])
    Eps.

(** [\[KEY\s*:\s*(GROUP)\]] *)
Definition bracket_pat (key : string) (g : regex) : pattern :=
  Pattern (Cats [Lit (py "["); Lit (py key); Star CSpace; Lit (py ":"); Star CSpace])
          g
          (Lit (py "]")).

Definition lat_pat : pattern := bracket_pat "latitude" number_re.
Definition lon_pat : pattern := bracket_pat "longitude" number_re.

(** [abs_alt:\s*([-+]?\d*\.\d+|\d+)] *)
Definition alt_pat : pattern :=
  Pattern (Cats [Lit (py "abs_alt:"); Star CSpace]) number_re Eps.

Definition iso_pat : pattern := bracket_pat "iso" (Plus CDigit).
Definition shutter_pat : pattern := bracket_pat "shutter" (Plus CNotRBracket).
Definition fnum_pat : pattern := bracket_pat "fnum" (Plus CDigit).

(** ** Values and the metadata dictionary *)

Inductive pyval : Type :=
  | VStr (s : pystr)
  | VNum (x : pynum).

Abbreviation dict := (gmap string pyval).

(** The file system: path to content, the content being what [f.read()]
    returns. *)
Abbreviation fsmap := (gmap pystr pystr).

(** [parse_srt_data(srt_path)].  A file that cannot be opened or decoded,
    and a [float()] that raises inside the outer [try], end in the
    [except Exception] branch, which returns [None]. *)
Definition parse_srt_data (fs : fsmap) (srt_path : pystr) : option dict :=
  match fs !! srt_path with
  | None => None
  | Some content =>
      let data : dict := ∅ in
      let date_match := re_search date_pat content in
      let data := match date_match with
                  | Some g => <["datetime" := VStr g]> data
                  | None => data
                  end in
      let lat_match := re_search lat_pat content in
      let lon_match := re_search lon_pat content in
      let alt_match := re_search alt_pat content in
      data ← match lat_match, lon_match with
              | Some glat, Some glon =>
                  lat ← py_float glat;
                  lon ← py_float glon;
                  Some (<["longitude" := VNum (PFloat lon)]>
                          (<["latitude" := VNum (PFloat lat)]> data))
              | _, _ => Some data
              end;
      data ← match alt_match with
              | Some galt =>
                  alt ← py_float galt;
                  Some (<["altitude" := VNum (PFloat alt)]> data)
              | None => Some data
              end;
      let iso_match := re_search iso_pat content in
      let shutter_match := re_search shutter_pat content in
      let fnum_match := re_search fnum_pat content in
      let data := match iso_match with
                  | Some g => <["iso" := VStr g]> data
                  | None => data
                  end in
      let data := match shutter_match with
                  | Some shutter_raw =>
                      if contains shutter_raw (py ".0")
                      then <["shutter" := VStr (replace shutter_raw (py ".0") [])]> data
                      else <["shutter" := VStr shutter_raw]> data
                  | None => data
                  end in
      let data := match fnum_match with
                  | Some g =>
                      match py_float g with
                      | Some f_val =>
                          <["fnum" := VNum (PFloat (SFdiv prec emax f_val
                                                     (float_of_decimal false 100 0)))]> data
                      | None => data     (* except ValueError: pass *)
                      end
                  | None => data
                  end in
      if bool_decide (is_Some (data !! "latitude"))
         && bool_decide (is_Some (data !! "longitude"))
      then Some data
      else None
  end.

(** The statement [if m: data[key] = f(m.group(1))] as a function on the
    dictionary, and the body of [parse_srt_data] written with it.  The two
    forms are shown equal below ([parse_srt_data_statements]). *)
Definition set_if {X} (m : option X) (key : string) (f : X → pyval) (data : dict) : dict :=
  match m with
  | Some g => <[key := f g]> data
  | None => data
  end.

Definition clean_shutter (shutter_raw : pystr) : pyval :=
  VStr (if contains shutter_raw (py ".0")
        then replace shutter_raw (py ".0") []
        else shutter_raw).

Definition fnum_value (f_val : spec_float) : pyval :=
  VNum (PFloat (SFdiv prec emax f_val (float_of_decimal false 100 0))).

Definition parse_statements (content : pystr) : option dict :=
  let data := set_if (re_search date_pat content) "datetime" VStr ∅ in
  data ← match re_search lat_pat content, re_search lon_pat content with
          | Some glat, Some glon =>
              lat ← py_float glat;
              lon ← py_float glon;
              Some (<["longitude" := VNum (PFloat lon)]>
                      (<["latitude" := VNum (PFloat lat)]> data))
          | _, _ => Some data
          end;
  data ← match re_search alt_pat content with
          | Some galt =>
              alt ← py_float galt;
              Some (<["altitude" := VNum (PFloat alt)]> data)
          | None => Some data
          end;
  let data := set_if (re_search iso_pat content) "iso" VStr data in
  let data := set_if (re_search shutter_pat content) "shutter" clean_shutter data in
  let data := set_if (re_search fnum_pat content ≫= py_float) "fnum" fnum_value data in
  if bool_decide (is_Some (data !! "latitude"))
     && bool_decide (is_Some (data !! "longitude"))
  then Some data
  else None.

(** A telemetry log as the camera writes it, and a source tree holding it
    next to its recording. *)
Definition sample_srt : pystr := py
"1
00:00:00,000 --> 00:00:00,033
<font size=28>FrameCnt: 1, DiffTime: 33ms
2025-08-09 18:53:47.246
[iso : 100] [shutter : 1/160.0] [fnum : 170] [ev : 0] [latitude: 35.6812] [longitude: 139.7671] [rel_alt: 1.300 abs_alt: 10.2] </font>".

Definition sample_fs : fsmap :=
  {[ py "/src/DJI_0001.SRT" := sample_srt;
     py "/src/DJI_0001.MP4" := py "original recording";
     py "/export/DJI_0001_edit.mp4" := py "export" ]}.

(** [s] begins with a bracketed [key] whose value is a negative integer
    written without a decimal point, as in [[latitude: -35]]. *)
Definition negative_integer_token (key : string) (s : pystr) : Prop :=
  ∃ ws1 ws2 ds rest,
    s = py "[" ++ py key ++ ws1 ++ ":"%char :: ws2 ++ "-"%char :: ds ++ "]"%char :: rest
    ∧ Forall (λ c, is_space c = true) ws1
    ∧ Forall (λ c, is_space c = true) ws2
    ∧ ds ≠ []
    ∧ Forall (λ c, is_digit c = true) ds.

(** The same as a test, and the test at every position of a text. *)
Fixpoint strip_prefix (p s : pystr) : option pystr :=
  match p with
  | [] => Some s
  | a :: p' =>
      match s with
      | b :: s' => if chr_eqb a b then strip_prefix p' s' else None
      | [] => None
      end
  end.

Fixpoint skip_spaces (s : pystr) : pystr :=
  match s with
  | c :: s' => if is_space c then skip_spaces s' else s
  | [] => []
  end.

Definition negative_integer_tokenb (key : string) (s : pystr) : bool :=
  match strip_prefix (py "[" ++ py key) s with
  | Some r =>
      match skip_spaces r with
      | c1 :: r2 =>
          chr_eqb c1 ":" &&
          match skip_spaces r2 with
          | c2 :: r4 =>
              chr_eqb c2 "-" &&
              let '(ds, r5) := span_digits r4 in
              negb (Nat.eqb (length ds) 0) &&
              match r5 with
              | c3 :: _ => chr_eqb c3 "]"
              | [] => false
              end
          | [] => false
          end
      | [] => false
      end
  | None => false
  end.

Fixpoint only_negative_integers (key : string) (text : pystr) : bool :=
  implb (startswith text (py "[" ++ py key)) (negative_integer_tokenb key text)
  && match text with
     | [] => true
     | _ :: text' => only_negative_integers key text'
     end.

(** ** The world: files, external processes, the console, exceptions

    Every [subprocess.run] is recorded in the trace with its argument
    vector; what the process does is given by the host.  What is printed is
    not recorded, but a [print] can fail: whether it does is given by the
    host, from the f-string of the call and the values of its fields.  A
    captured [stderr] is a byte string, and decoding it can fail too. *)

Inductive exn : Type :=
  | KeyError (key : string)
  | TypeError
  | CalledProcessError (stderr : pystr)
  | FileNotFoundError
  | OSError                     (* [PermissionError], [BrokenPipeError], ... *)
  | UnicodeDecodeError
  | UnicodeEncodeError.

Inductive result (A : Type) : Type :=
  | Ret (a : A)
  | Raise (e : exn).
Arguments Ret {A} a.
Arguments Raise {A} e.

Record completed : Type :=
  Completed { returncode : Z; stdout : pystr; stderr : pystr }.

(** Outcome of launching a process: it ran and left the files as given,
    the executable was not found, or the launch failed with another
    [OSError] (the file is not executable, for one). *)
Inductive launch : Type :=
  | Launched (c : completed) (fs' : fsmap)
  | NotFound
  | Refused.

(** A field of a printed f-string. *)
Inductive field : Type :=
  | FStr (s : pystr)
  | FVal (v : pyval)
  | FDecoded (bytes : pystr)    (* the text that the UTF-8 [bytes] decode to *)
  | FExn (e : exn).

(** What [print] can raise: [UnicodeEncodeError] when the console encoding
    lacks a character of the text, [OSError] when the stream is broken. *)
Inductive console_error : Type :=
  | EncodeError
  | StreamError.

Definition console_exn (ce : console_error) : exn :=
  match ce with
  | EncodeError => UnicodeEncodeError
  | StreamError => OSError
  end.

(** [bytes.decode()]: whether [b] is well-formed UTF-8 (no overlong form,
    no surrogate, nothing above U+10FFFF). *)
Definition in_range (lo hi : nat) (c : ascii) : bool :=
  let n := nat_of_ascii c in (lo <=? n)%nat && (n <=? hi)%nat.

Fixpoint utf8_valid (b : pystr) : bool :=
  match b with
  | [] => true
  | c0 :: b1 =>
      if in_range 0 127 c0 then utf8_valid b1
      else if in_range 194 223 c0
      then match b1 with
           | c1 :: b2 => in_range 128 191 c1 && utf8_valid b2
           | _ => false
           end
      else if in_range 224 239 c0
      then match b1 with
           | c1 :: c2 :: b3 =>
               (if in_range 224 224 c0 then in_range 160 191 c1
                else if in_range 237 237 c0 then in_range 128 159 c1
                else in_range 128 191 c1)
               && in_range 128 191 c2 && utf8_valid b3
           | _ => false
           end
      else if in_range 240 244 c0
      then match b1 with
           | c1 :: c2 :: c3 :: b4 =>
               (if in_range 240 240 c0 then in_range 144 191 c1
                else if in_range 244 244 c0 then in_range 128 143 c1
                else in_range 128 191 c1)
               && in_range 128 191 c2 && in_range 128 191 c3 && utf8_valid b4
           | _ => false
           end
      else false
  end.

Class Host : Type := {
  (* os.path *)
  dirname : pystr → pystr;
  basename : pystr → pystr;
  splitext : pystr → pystr * pystr;
  join : pystr → pystr → pystr;
  normpath : pystr → pystr;
  (* repr of a float, as f-strings print it *)
  repr_float : spec_float → pystr;
  (* the behaviour of external programs *)
  run_process : list pystr → fsmap → launch;
  (* whether shutil.move(src, dst) goes through *)
  move_ok : pystr → pystr → fsmap → bool;
  (* what printing an f-string with these fields raises, if anything *)
  print_error : string → list field → option console_error;
  (* whether os.remove(p) of an existing file goes through; it does not
     when the file is in use or protected *)
  remove_ok : pystr → fsmap → bool;
  (* what a failed shutil.move(src, dst) leaves at dst when it got as far
     as copying: a part of the source, or all of it *)
  move_debris : pystr → pystr → fsmap → option pystr
}.

Record world : Type := World { files : fsmap; trace : list (list pystr) }.

Definition M (A : Type) : Type := world → result A * world.

Definition ret {A} (a : A) : M A := λ w, (Ret a, w).
Definition raise {A} (e : exn) : M A := λ w, (Raise e, w).
Definition bind {A B} (m : M A) (k : A → M B) : M B :=
  λ w, match m w with
       | (Ret a, w') => k a w'
       | (Raise e, w') => (Raise e, w')
       end.

Notation "x <- c1 ;; c2" := (bind c1 (λ x, c2))
  (at level 100, c1 at next level, right associativity).
Notation "c1 ;; c2" := (bind c1 (λ _, c2))
  (at level 100, right associativity).

(** [try: body  except <handled>: handler] *)
Definition try_except {A} (body : M A) (handler : exn → option (M A)) : M A :=
  λ w, match body w with
       | (Ret a, w') => (Ret a, w')
       | (Raise e, w') =>
           match handler e with
           | Some h => h w'
           | None => (Raise e, w')
           end
       end.

(** [except Exception] *)
Definition any_exception {A} (h : exn → M A) : exn → option (M A) :=
  λ e, Some (h e).

(** [except subprocess.CalledProcessError] *)
Definition called_process_error {A} (h : pystr → M A) : exn → option (M A) :=
  λ e, match e with
       | CalledProcessError err => Some (h err)
       | _ => None
       end.

(** [except subprocess.CalledProcessError as e: ...] followed by
    [except Exception as e: ...] *)
Definition called_then_any {A} (h1 : pystr → M A) (h2 : exn → M A)
    : exn → option (M A) :=
  λ e, match e with
       | CalledProcessError err => Some (h1 err)
       | _ => Some (h2 e)
       end.

(** [e.stderr.decode()], as a field of the message it is printed in. *)
Definition decode (bytes : pystr) : M field :=
  if utf8_valid bytes then ret (FDecoded bytes) else raise UnicodeDecodeError.

(** [except (subprocess.CalledProcessError, FileNotFoundError)] *)
Definition called_or_not_found {A} (h : M A) : exn → option (M A) :=
  λ e, match e with
       | CalledProcessError _ | FileNotFoundError => Some h
       | _ => None
       end.

(** [os.path.exists(p)] *)
Definition path_exists (p : pystr) : M bool :=
  λ w, (Ret (bool_decide (is_Some (files w !! p))), w).

(** Python's [str(v)] inside an f-string. *)
Definition str_of_int (z : Z) : pystr :=
  if z <? 0 then "-"%char :: str_of_Z (- z) else str_of_Z z.

(** [str.strip()] *)
Fixpoint lstrip (s : pystr) : pystr :=
  match s with
  | c :: s' => if is_space c then lstrip s' else s
  | [] => []
  end.
Definition strip (s : pystr) : pystr := reverse (lstrip (reverse (lstrip s))).

(** [d[key]] *)
Definition getitem (d : dict) (key : string) : M pyval :=
  match d !! key with
  | Some v => ret v
  | None => raise (KeyError key)
  end.

Definition as_str (v : pyval) : M pystr :=
  match v with
  | VStr s => ret s
  | VNum _ => raise TypeError
  end.

Definition as_num (v : pyval) : M pynum :=
  match v with
  | VNum x => ret x
  | VStr _ => raise TypeError
  end.

Section Program.
Context {H : Host}.

(** [safe_print(f"...")]: the f-string with [{}] for each field. *)
Definition safe_print (template : string) (fields : list field) : M unit :=
  λ w, match print_error template fields with
       | None => (Ret (), w)
       | Some ce => (Raise (console_exn ce), w)
       end.

(** [subprocess.run(cmd, check=...)] *)
Definition subprocess_run (cmd : list pystr) (check : bool) : M completed :=
  λ w, match run_process cmd (files w) with
       | NotFound => (Raise FileNotFoundError, World (files w) (trace w ++ [cmd]))
       | Refused => (Raise OSError, World (files w) (trace w ++ [cmd]))
       | Launched c fs' =>
           let w' := World fs' (trace w ++ [cmd]) in
           if check && negb (returncode c =? 0)
           then (Raise (CalledProcessError (stderr c)), w')
           else (Ret c, w')
       end.

(** [os.remove(p)] *)
Definition os_remove (p : pystr) : M unit :=
  λ w, match files w !! p with
       | Some _ =>
           if remove_ok p (files w)
           then (Ret (), World (delete p (files w)) (trace w))
           else (Raise OSError, w)
       | None => (Raise FileNotFoundError, w)
       end.

(** [shutil.move(src, dst)]: a rename, or a copy followed by the removal
    of [src].  When it fails, [src] is still there, and [dst] is as before
    or holds what the copy wrote. *)
Definition shutil_move (src dst : pystr) : M unit :=
  λ w, match files w !! src with
       | Some content =>
           if move_ok src dst (files w)
           then (Ret (), World (<[dst := content]> (delete src (files w))) (trace w))
           else (Raise OSError,
                 match move_debris src dst (files w) with
                 | Some part => World (<[dst := part]> (files w)) (trace w)
                 | None => w
                 end)
       | None => (Raise FileNotFoundError, w)
       end.

Definition str_of_val (v : pyval) : pystr :=
  match v with
  | VStr s => s
  | VNum (PInt z) => str_of_int z
  | VNum (PFloat f) => repr_float f
  end.

(** [metadata.get(key, default)] printed in an f-string. *)
Definition get_str (d : dict) (key : string) (default : string) : pystr :=
  match d !! key with
  | Some v => str_of_val v
  | None => py default
  end.

(** [cmd.insert(2, arg)] *)
Definition insert2 (arg : pystr) (cmd : list pystr) : list pystr :=
  take 2 cmd ++ arg :: drop 2 cmd.

(** The four status lines of [inject_metadata]. *)
Definition announce_injection (video_path : pystr) (metadata : dict)
    (dt_str : pystr) (lat_v lon_v : pyval) : M unit :=
  safe_print "  Injecting metadata into {}..." [FStr (basename video_path)] ;;
  safe_print "    Date: {}" [FStr dt_str] ;;
  safe_print "    GPS: {}, {} (Alt: {}m)"
    [FVal lat_v; FVal lon_v;
     FVal (default (VStr (py "N/A")) (metadata !! "altitude"))] ;;
  match metadata !! "iso" with
  | Some iso =>
      safe_print "    Cam: ISO {}, {}, f/{}"
        [FVal iso; FVal (default (VStr []) (metadata !! "shutter"));
         FVal (default (VStr []) (metadata !! "fnum"))]
  | None => ret ()
  end.

(** The removal of a leftover exiftool temp file in [inject_metadata]. *)
Definition remove_leftover (tmp_path : pystr) : M unit :=
  leftover <- path_exists tmp_path ;;
  if leftover
  then try_except
         (os_remove tmp_path ;;
          safe_print "    Cleaned up leftover temp file: {}"
            [FStr (basename tmp_path)])
         (any_exception (λ e,
            safe_print "    Warning: Could not remove {}: {}"
              [FStr tmp_path; FExn e]))
  else ret ().

(** The [try] block around the exiftool call in [inject_metadata]. *)
Definition run_exiftool (cmd : list pystr) : M unit :=
  try_except
    (subprocess_run cmd true ;; safe_print "    Success!" [])
    (called_process_error (λ err,
       text <- decode err ;;
       safe_print "    Error running exiftool: {}" [text])).

(** [inject_metadata(video_path, metadata)] *)
Definition inject_metadata (video_path : pystr) (metadata : dict) : M unit :=
  if bool_decide (metadata = ∅) then ret ()
  else
    dt_v <- getitem metadata "datetime" ;;
    dt_s <- as_str dt_v ;;
    let dt_str := replace dt_s (py "-") (py ":") in
    lat_v <- getitem metadata "latitude" ;;
    lon_v <- getitem metadata "longitude" ;;
    let alt_v := default (VNum (PInt 0)) (metadata !! "altitude") in
    lat <- as_num lat_v ;;
    lon <- as_num lon_v ;;
    alt <- as_num alt_v ;;
    let iso_gps := format_iso6709 lat lon alt in
    let cam_summary :=
      py "DJI Mini 3 Pro | ISO " ++ get_str metadata "iso" "?" ++ py ", "
      ++ get_str metadata "shutter" "?" ++ py ", f/" ++ get_str metadata "fnum" "" in
    let keywords := py "Drone; DJI; Mini 3 Pro; Telemetry" in
    let cmd :=
      [ py "exiftool"; py "-overwrite_original";
        py "-Make=DJI"; py "-Model=DJI Mini 3 Pro";
        py "-Keys:Make=DJI"; py "-Keys:Model=DJI Mini 3 Pro";
        py "-Description=" ++ cam_summary;
        py "-UserComment=" ++ cam_summary;
        py "-Keys:Description=" ++ cam_summary;
        py "-Keywords=" ++ keywords;
        py "-Keys:Keywords=" ++ keywords;
        py "-Keys:DisplayName=" ++ basename video_path;
        py "-Keys:CreationDate=" ++ dt_str;
        py "-QuickTime:CreateDate=" ++ dt_str;
        py "-QuickTime:ModifyDate=" ++ dt_str;
        py "-QuickTime:TrackCreateDate=" ++ dt_str;
        py "-QuickTime:TrackModifyDate=" ++ dt_str;
        py "-QuickTime:MediaCreateDate=" ++ dt_str;
        py "-QuickTime:MediaModifyDate=" ++ dt_str;
        py "-Keys:GPSCoordinates=" ++ iso_gps;
        py "-QuickTime:GPSCoordinates=" ++ iso_gps;
        py "-UserData:GPSCoordinates=" ++ iso_gps;
        py "-XMP:GPSLatitude=" ++ str_of_val lat_v;
        py "-XMP:GPSLongitude=" ++ str_of_val lon_v;
        py "-XMP:GPSAltitude=" ++ str_of_val alt_v;
        py "-XMP:GPSAltitudeRef=Above Sea Level";
        video_path ] in
    let cmd := match metadata !! "iso" with
               | Some v => insert2 (py "-ISO=" ++ str_of_val v) cmd
               | None => cmd
               end in
    let cmd := match metadata !! "shutter" with
               | Some v => insert2 (py "-ExposureTime=" ++ str_of_val v) cmd
               | None => cmd
               end in
    let cmd := match metadata !! "fnum" with
               | Some v => insert2 (py "-FNumber=" ++ str_of_val v) cmd
               | None => cmd
               end in
    announce_injection video_path metadata dt_str lat_v lon_v ;;
    let tmp_path := video_path ++ py "_exiftool_tmp" in
    remove_leftover tmp_path ;;
    run_exiftool cmd.

(** [check_ffmpeg()] *)
Definition check_ffmpeg : M bool :=
  try_except
    (subprocess_run [py "ffmpeg"; py "-version"] true ;; ret true)
    (called_or_not_found (ret false)).

(** The temporary sibling file and the remux command of [embed_subtitle]. *)
Definition temp_output_of (video_path : pystr) : pystr :=
  let dir_name := dirname video_path in
  let base_name := basename video_path in
  join dir_name (py "temp_" ++ base_name).

Definition ffmpeg_cmd (video_path srt_path temp_output : pystr) : list pystr :=
  [ py "ffmpeg"; py "-y";
    py "-i"; video_path;
    py "-i"; srt_path;
    py "-c"; py "copy";
    py "-c:s"; py "mov_text";
    py "-metadata:s:s:0"; py "language=eng";
    py "-metadata:s:s:0"; py "handler_name=Telemetry";
    py "-metadata:s:s:0"; py "title=DJI Telemetry";
    temp_output ].

(** The end of both [except] branches of [embed_subtitle]. *)
Definition discard_temp (temp_output : pystr) : M bool :=
  left <- path_exists temp_output ;;
  (if left then os_remove temp_output else ret ()) ;;
  ret false.

(** [embed_subtitle(video_path, srt_path)].  Each [except] branch prints
    its message first, then removes the temporary file if it is there and
    returns [False]. *)
Definition embed_subtitle (video_path srt_path : pystr) : M bool :=
  let base_name := basename video_path in
  let temp_output := temp_output_of video_path in
  let cmd := ffmpeg_cmd video_path srt_path temp_output in
  safe_print "Embedding SRT into {}..." [FStr base_name] ;;
  try_except
    (subprocess_run cmd true ;;
     shutil_move temp_output video_path ;;
     safe_print "  Subtitle embedding successful!" [] ;;
     ret true)
    (called_then_any
       (λ err,
          text <- decode err ;;
          safe_print "  Error embedding subtitle: {}" [text] ;;
          discard_temp temp_output)
       (λ e,
          safe_print "  Error: {}" [FExn e] ;;
          discard_temp temp_output)).

(** [check_if_processed(video_path)] *)
Definition check_if_processed (video_path : pystr) : M bool :=
  try_except
    (result <- subprocess_run [py "exiftool"; py "-Model"; py "-s3"; video_path] false ;;
     let model := strip (stdout result) in
     if contains model (py "DJI Mini 3 Pro") then ret true
     else
       has <- check_ffmpeg ;;
       if has
       then
         let cmd :=
           [ py "ffprobe"; py "-v"; py "error"; py "-select_streams"; py "s";
             py "-show_entries"; py "stream_tags=title";
             py "-of"; py "default=noprint_wrappers=1:nokey=1";
             video_path ] in
         result <- subprocess_run cmd false ;;
         if contains (stdout result) (py "DJI Telemetry") then ret true
         else ret false
       else ret false)
    (any_exception (λ _, ret false)).

Definition dquote : ascii := ascii_of_nat 34.

(** The argument vector of the recycle-bin call for [src_vid]. *)
Definition cmd_recycle (src_vid : pystr) : list pystr :=
  let escaped_path := replace src_vid [dquote] ["`"%char; dquote] in
  [ py "powershell"; py "-Command";
    py "Add-Type -AssemblyName Microsoft.VisualBasic; [Microsoft.VisualBasic.FileIO.FileSystem]::DeleteFile("
    ++ dquote :: escaped_path
    ++ dquote :: py ", " ++ dquote :: py "OnlyErrorDialogs"
    ++ dquote :: py ", " ++ dquote :: py "SendToRecycleBin"
    ++ dquote :: py ")" ].

(** The [for src_vid in potential_srcs] loop of [recycle_source]. *)
Fixpoint recycle_loop (potential_srcs : list pystr) (export_path : pystr) : M unit :=
  match potential_srcs with
  | [] => ret ()
  | src_vid :: rest =>
      there <- path_exists src_vid ;;
      if there
      then
        if bool_decide (normpath src_vid = normpath export_path)
        then ret ()
        else
          try_except
            (subprocess_run (cmd_recycle src_vid) true ;;
             safe_print "  [SPACE SAVER] Moved original source to Recycle Bin: {}"
               [FStr (basename src_vid)])
            (any_exception (λ e,
               safe_print "  Error moving source to Recycle Bin {}: {}"
                 [FStr src_vid; FExn e]))
      else recycle_loop rest export_path
  end.

Definition potential_srcs (matched_srt : pystr) : list pystr :=
  let src_dir := dirname matched_srt in
  let src_base := fst (splitext (basename matched_srt)) in
  [ join src_dir (src_base ++ py ".MP4");
    join src_dir (src_base ++ py ".mp4");
    join src_dir (src_base ++ py ".MOV");
    join src_dir (src_base ++ py ".mov") ].

(** The first candidate that exists on disk. *)
Definition first_existing (fs : fsmap) (candidates : list pystr) : option pystr :=
  List.find (λ p, bool_decide (is_Some (fs !! p))) candidates.

(** [recycle_source(matched_srt, export_path)] *)
Definition recycle_source (matched_srt export_path : pystr) : M unit :=
  recycle_loop (potential_srcs matched_srt) export_path.

(** The tuple handed to the worker. *)
Record video_info : Type := VideoInfo {
  export_path : pystr;
  matched_srt : pystr;
  has_ffmpeg : bool;
  force : bool;
  delete_source : bool;
  video_count : Z;
  current_idx : Z
}.

(** [parse_srt_data(srt_path)] with the message of its [except] branch: a
    log that cannot be opened is reported, with a plain [print] on the same
    console, and gives [None].  (No other statement of the [try] body
    raises: a file holds its text, and [float] accepts what the patterns
    capture.) *)
Definition parse_srt_file (srt_path : pystr) : M (option dict) :=
  λ w, match files w !! srt_path with
       | Some _ => (Ret (parse_srt_data (files w) srt_path), w)
       | None =>
           (safe_print "Error parsing SRT {}: {}"
              [FStr srt_path; FExn FileNotFoundError] ;;
            ret None) w
       end.

(** Step 2 of the worker, [# 2. Inject Metadata], on the result of
    [parse_srt_data]: it gives [meta_ok] and [final_status]. *)
Definition inject_step (vi : video_info) (metadata : option dict)
    : M (bool * pystr) :=
  let filename := basename (export_path vi) in
  let no_metadata : M (bool * pystr) :=
    safe_print "  Warning: Could not extract metadata from {}"
      [FStr (basename (matched_srt vi))] ;;
    ret (false, py "error") in
  match metadata with
  | Some md =>
      if bool_decide (md = ∅) then no_metadata
      else
        inject_metadata (export_path vi) md ;;
        ret (true,
             py "success|" ++ filename ++ py "|" ++ get_str md "datetime" "?"
             ++ py "|" ++ get_str md "latitude" "0" ++ py ","
             ++ get_str md "longitude" "0")
  | None => no_metadata
  end.

(** [process_single_video(video_info)] *)
Definition process_single_video (vi : video_info) : M pystr :=
  let filename := basename (export_path vi) in
  safe_print "[{}/{}] Processing {}..."
    [FVal (VNum (PInt (current_idx vi))); FVal (VNum (PInt (video_count vi)));
     FStr filename] ;;
  processed <- (if force vi then ret false else check_if_processed (export_path vi)) ;;
  if negb (force vi) && processed
  then
    (if delete_source vi
     then recycle_source (matched_srt vi) (export_path vi)
     else ret ()) ;;
    ret (py "already_processed")
  else
    srt_ok <- (if has_ffmpeg vi
               then embed_subtitle (export_path vi) (matched_srt vi)
               else ret true) ;;
    metadata <- parse_srt_file (matched_srt vi) ;;
    st <- inject_step vi metadata ;;
    let '(meta_ok, final_status) := st in
    (if delete_source vi && meta_ok && srt_ok
     then recycle_source (matched_srt vi) (export_path vi)
     else ret ()) ;;
    ret final_status.

(** [list(executor.map(process_single_video, tasks))]: the results in task
    order; the first exception of a worker is raised again when its result
    is collected. *)
Fixpoint executor_map (tasks : list video_info) : M (list pystr) :=
  match tasks with
  | [] => ret []
  | t :: tasks' =>
      r <- process_single_video t ;;
      rs <- executor_map tasks' ;;
      ret (r :: rs)
  end.

End Program.

(** ** FileMatcher: the matching step of [main]

    [source_map] is a Python [dict]: its keys are distinct and it is
    iterated in insertion order, so it is kept as an association list. *)

Abbreviation odict := (list (pystr * pystr)).

Definition dict_keys (d : odict) : list pystr := map fst d.

(** [d[k]] for a key known to be present, [None] otherwise. *)
Fixpoint dict_get (d : odict) (k : pystr) : option pystr :=
  match d with
  | [] => None
  | (k', v) :: d' => if bool_decide (k' = k) then Some v else dict_get d' k
  end.

(** [d[k] = v]: an existing key keeps its place. *)
Fixpoint dict_set (d : odict) (k v : pystr) : odict :=
  match d with
  | [] => [(k, v)]
  | (k', v') :: d' =>
      if bool_decide (k' = k) then (k, v) :: d' else (k', v') :: dict_set d' k v
  end.

(** [sorted(l, key=len, reverse=True)]: longest first, and strings of equal
    length stay in their order in [l]. *)
Fixpoint insert_by_len (x : pystr) (l : list pystr) : list pystr :=
  match l with
  | [] => [x]
  | y :: l' =>
      if (length y <=? length x)%nat then x :: y :: l'
      else y :: insert_by_len x l'
  end.

Definition sorted_len_reverse (l : list pystr) : list pystr :=
  foldr insert_by_len [] l.

(** [[key for key in source_map.keys() if key in base_name]] *)
Definition matches (source_map : odict) (base_name : pystr) : list pystr :=
  List.filter (λ key, contains base_name key) (dict_keys source_map).

(** [sorted(matches, key=len, reverse=True)[0]] when [matches] is not empty. *)
Definition best_match (source_map : odict) (base_name : pystr) : option pystr :=
  head (sorted_len_reverse (matches source_map base_name)).

(** The key whose telemetry log is taken for an export file. *)
Definition matched_key (source_map : odict) (base_name : pystr) : option pystr :=
  if bool_decide (base_name ∈ dict_keys source_map)
  then Some base_name
  else best_match source_map base_name.

(** [matched_srt] of the scan loop. *)
Definition find_matched_srt (source_map : odict) (base_name : pystr) : option pystr :=
  key ← matched_key source_map base_name;
  dict_get source_map key.

(** ** RunReport: the tally of [main] *)

Record counts : Type := Counts {
  processed_count : Z;
  already_processed_count : Z;
  skipped_count : Z
}.

(** How many results a tally has counted. *)
Definition counted (c : counts) : Z :=
  processed_count c + already_processed_count c + skipped_count c.

Definition tally_step (c : counts) (res : pystr) : counts :=
  if startswith res (py "success")
  then Counts (processed_count c + 1) (already_processed_count c) (skipped_count c)
  else if bool_decide (res = py "already_processed")
  then Counts (processed_count c) (already_processed_count c + 1) (skipped_count c)
  else Counts (processed_count c) (already_processed_count c) (skipped_count c + 1).

(** [for res in results: ...] *)
Definition tally (results : list pystr) : counts :=
  fold_left tally_step results (Counts 0 0 0).

(** The four numbers of the summary file. *)
Record summary : Type := Summary {
  total_matched : Z;
  successfully_processed : Z;
  skipped_already_processed : Z;
  errors_no_match : Z
}.

Definition write_summary (total_videos : Z) (c : counts) : summary :=
  Summary total_videos (processed_count c) (already_processed_count c)
          (total_videos - processed_count c - already_processed_count c).

(** [enumerate(videos_to_process, 1)] into worker tuples. *)
Fixpoint make_tasks (has_ffmpeg force delete_source : bool) (total_videos : Z)
    (i : Z) (videos_to_process : list (pystr * pystr)) : list video_info :=
  match videos_to_process with
  | [] => []
  | (export_path, matched_srt) :: rest =>
      VideoInfo export_path matched_srt has_ffmpeg force delete_source total_videos i
      :: make_tasks has_ffmpeg force delete_source total_videos (i + 1) rest
  end.

(** [main] from the task list to the summary. *)
Definition main_process `{Host} (has_ffmpeg force delete_source : bool)
    (videos_to_process : list (pystr * pystr)) : M summary :=
  let total_videos := Z.of_nat (length videos_to_process) in
  let tasks := make_tasks has_ffmpeg force delete_source total_videos 1 videos_to_process in
  results <- executor_map tasks ;;
  ret (write_summary total_videos (tally results)).

(** The shutter rule as the specification words it: only the first [.0]
    goes. *)
Fixpoint strip_first (s old : pystr) : pystr :=
  match s with
  | [] => []
  | c :: s' =>
      if startswith s old then drop (length old) s
      else c :: strip_first s' old
  end.

(** [n] as exactly [k] decimal digits, most significant first. *)
Fixpoint fixed_digits (k : nat) (n : Z) : pystr :=
  match k with
  | O => []
  | S k' => fixed_digits k' (n / 10) ++ [digit_chr (n mod 10)]
  end.

(** A field of [ip] integer digits and [fp] decimals holding the rounded
    magnitude [n] (in units of [10^-fp]). *)
Definition fixed_field (ip fp : nat) (n : Z) : pystr :=
  fixed_digits ip (n / 10 ^ Z.of_nat fp) ++ "."%char :: fixed_digits fp (n mod 10 ^ Z.of_nat fp).

Definition sign_chr (x : pynum) : ascii := if ge0 x then "+"%char else "-"%char.

(** The rounded magnitude [|x| * 10^p] that the formatter prints. *)
Definition magnitude (p : nat) (x : pynum) : option Z := scaled p (to_float (pyabs x)).

(** ** A POSIX host

    [posixpath] for the path functions, used where a statement is evaluated
    on concrete paths.  The behaviour of the external programs stays a
    parameter. *)

Module Posix.

Definition is_sep (c : ascii) : bool := chr_eqb c "/".

(** [p[:i], p[i:]] with [i = p.rfind('/') + 1]. *)
Fixpoint rsplit_sep (p : pystr) : pystr * pystr :=
  match p with
  | [] => ([], [])
  | c :: p' =>
      let '(h, t) := rsplit_sep p' in
      match h with
      | [] => if is_sep c then ([c], t) else ([], c :: t)
      | _ :: _ => (c :: h, t)
      end
  end.

(** [s.rstrip('/')] *)
Definition rstrip_sep (s : pystr) : pystr :=
  reverse ((fix go (r : pystr) : pystr :=
              match r with
              | c :: r' => if is_sep c then go r' else r
              | [] => []
              end) (reverse s)).

Definition basename (p : pystr) : pystr := snd (rsplit_sep p).

Definition dirname (p : pystr) : pystr :=
  let head := fst (rsplit_sep p) in
  if forallb is_sep head then head else rstrip_sep head.

(** Index of the last ['.'] of [s], if any. *)
Fixpoint rfind_dot (s : pystr) : option nat :=
  match s with
  | [] => None
  | c :: s' =>
      match rfind_dot s' with
      | Some i => Some (S i)
      | None => if chr_eqb c "." then Some O else None
      end
  end.

Definition splitext (p : pystr) : pystr * pystr :=
  let '(h, t) := rsplit_sep p in
  match rfind_dot t with
  | Some i =>
      if existsb (λ c, negb (chr_eqb c ".")) (take i t)
      then (h ++ take i t, drop i t)
      else (p, [])
  | None => (p, [])
  end.

Definition join (a b : pystr) : pystr :=
  if startswith b (py "/") then b
  else match a with
       | [] => b
       | _ => if startswith (reverse a) (py "/") then a ++ b else a ++ "/"%char :: b
       end.

(** [s.split('/')] *)
Fixpoint split_sep (s : pystr) : list pystr :=
  match s with
  | [] => [[]]
  | c :: s' =>
      match split_sep s' with
      | w :: ws => if is_sep c then [] :: w :: ws else (c :: w) :: ws
      | [] => [[c]]
      end
  end.

(** ['/'.join(comps)] *)
Fixpoint join_sep (comps : list pystr) : pystr :=
  match comps with
  | [] => []
  | [w] => w
  | w :: ws => w ++ "/"%char :: join_sep ws
  end.

(** The loop of [normpath]; [new_comps] is kept reversed. *)
Fixpoint norm_comps (rooted : bool) (comps new_comps : list pystr) : list pystr :=
  match comps with
  | [] => reverse new_comps
  | comp :: rest =>
      if bool_decide (comp = []) || bool_decide (comp = py ".")
      then norm_comps rooted rest new_comps
      else if negb (bool_decide (comp = py ".."))
              || (negb rooted && bool_decide (new_comps = []))
              || bool_decide (head new_comps = Some (py ".."))
      then norm_comps rooted rest (comp :: new_comps)
      else norm_comps rooted rest (tail new_comps)
  end.

Definition normpath (path : pystr) : pystr :=
  match path with
  | [] => py "."
  | _ =>
      let initial_slashes : nat :=
        if startswith path (py "/")
        then if startswith path (py "//") && negb (startswith path (py "///"))
             then 2%nat else 1%nat
        else 0%nat in
      let comps := norm_comps (negb (Nat.eqb initial_slashes 0)) (split_sep path) [] in
      let path := replicate initial_slashes "/"%char ++ join_sep comps in
      match path with
      | [] => py "."
      | _ => path
      end
  end.

Definition same_finite (x y : spec_float) : bool :=
  match x, y with
  | S754_finite s m e, S754_finite s' m' e' =>
      Bool.eqb s s' && Pos.eqb m m' && Z.eqb e e'
  | _, _ => false
  end.

(** The shortest decimal that reads back as [x], in fixed notation: the
    number of decimals grows until the printed value reads back as [x]. *)
Fixpoint shortest_fixed (fuel p : nat) (x : spec_float) : pystr :=
  let s := format_f 0 p (PFloat x) in
  match fuel with
  | O => s
  | S fuel' =>
      if same_finite x (default S754_nan (py_float s)) then s
      else shortest_fixed fuel' (S p) x
  end.

(** For an integral [x] with the [d]-digit value [n]: [n] rounded to the
    fewest significant digits that read back as [x]. *)
Fixpoint shortest_integer (fuel k d : nat) (n : Z) (x : spec_float) : Z :=
  let unit := 10 ^ Z.of_nat (d - k) in
  let c := round_half_even n unit * unit in
  match fuel with
  | O => n
  | S fuel' =>
      if same_finite x (default S754_nan (py_float (str_of_Z c))) then c
      else shortest_integer fuel' (S k) d n x
  end.

(** [s] without its leading zeros, and without its trailing zeros. *)
Fixpoint lstrip0 (s : pystr) : pystr :=
  match s with
  | c :: s' => if chr_eqb c "0" then lstrip0 s' else s
  | [] => []
  end.

Definition rstrip0 (s : pystr) : pystr := reverse (lstrip0 (reverse s)).

(** The significant digits [d1 d2 ...] with the decimal exponent [e10], in
    the exponent form of [repr]: [d1.d2...e-05], [d1e+16]. *)
Definition exponent_form (ds : pystr) (e10 : Z) : pystr :=
  match ds with
  | [] => []
  | [d1] => [d1]
  | d1 :: rest => d1 :: "."%char :: rest
  end
  ++ "e"%char :: (if e10 <? 0 then "-"%char else "+"%char)
  :: zfill 2 (str_of_Z (Z.abs e10)).

(** [repr(x)] of a float: the shortest digits that read back as [x], in
    fixed notation from [1e-4] up to [1e16] and in exponent form outside. *)
Definition repr_float (x : spec_float) : pystr :=
  match x with
  | S754_nan => py "nan"
  | S754_infinity s => if s then py "-inf" else py "inf"
  | S754_zero s => if s then py "-0.0" else py "0.0"
  | S754_finite s m e =>
      let ax := S754_finite false m e in
      let body :=
        if SFltb ax (default S754_nan (py_float (py "0.0001")))
        then
          (* 0.000ddd: the zeros after the point give the exponent *)
          let frac := drop 2 (shortest_fixed 400 1 ax) in
          let ds := lstrip0 frac in
          exponent_form ds (- Z.of_nat (S (length frac - length ds)))
        else if SFltb ax (default S754_nan (py_float (py "10000000000000000")))
        then shortest_fixed 40 1 ax
        else
          let n := default 0 (scaled 0 ax) in
          let c := str_of_Z (shortest_integer 17 1 (length (str_of_Z n)) n ax) in
          exponent_form (rstrip0 c) (Z.of_nat (length c) - 1) in
      if s then "-"%char :: body else body
  end.

(** A host with the given console, and one whose console prints
    everything.  On both, files can be removed, and a move that fails has
    not touched its destination. *)
Definition host_console (run : list pystr → fsmap → launch)
    (mv : pystr → pystr → fsmap → bool)
    (console : string → list field → option console_error) : Host :=
  Build_Host dirname basename splitext join normpath repr_float run mv console
             (λ _ _, true) (λ _ _ _, None).

Definition host (run : list pystr → fsmap → launch)
    (mv : pystr → pystr → fsmap → bool) : Host :=
  host_console run mv (λ _ _, None).

(** External programs that exit with the given codes: [exiftool], [ffmpeg]
    (which writes its last argument) and any other program. *)
Definition exits (exiftool_rc ffmpeg_rc other_rc : Z)
    (cmd : list pystr) (fs : fsmap) : launch :=
  match cmd with
  | prog :: _ =>
      if bool_decide (prog = py "exiftool")
      then Launched (Completed exiftool_rc [] (py "exiftool failed")) fs
      else if bool_decide (prog = py "ffmpeg")
      then Launched (Completed ffmpeg_rc [] (py "ffmpeg failed"))
                    (match last cmd with
                     | Some out =>
                         if bool_decide (out = py "-version") then fs
                         else <[out := py "remuxed"]> fs
                     | None => fs
                     end)
      else Launched (Completed other_rc [] []) fs
  | [] => NotFound
  end.

End Posix.

(** Hosts for concrete runs: all tools succeed; exiftool fails; ffmpeg
    fails.  Moves always go through. *)
Definition host_ok : Host := Posix.host (Posix.exits 0 0 0) (λ _ _ _, true).
Definition host_exiftool_fails : Host := Posix.host (Posix.exits 1 0 0) (λ _ _ _, true).
Definition host_ffmpeg_fails : Host := Posix.host (Posix.exits 0 1 0) (λ _ _ _, true).

(** A telemetry log with coordinates and no timestamp, in a tree with a
    second, complete pair. *)
Definition untimed_srt : pystr := py "[latitude: 35.6812] [longitude: 139.7671]".

Definition untimed_fs : fsmap :=
  {[ py "/src/DJI_0001.SRT" := untimed_srt;
     py "/src/DJI_0002.SRT" := sample_srt;
     py "/export/DJI_0001.mp4" := py "export 1";
     py "/export/DJI_0002.mp4" := py "export 2" ]}.

(** ** The scans of [main] and the summary log

    [os.walk] is given by its result: the list of directories with the
    files of each, in the order of the walk. *)

(** [c.lower()] on the code points 0..255: A-Z and the accented capitals
    À-Ö, Ø-Þ move up by 32. *)
Definition lower_chr (c : ascii) : ascii :=
  let n := nat_of_ascii c in
  if ((65 <=? n)%nat && (n <=? 90)%nat)
     || ((192 <=? n)%nat && (n <=? 214)%nat)
     || ((216 <=? n)%nat && (n <=? 222)%nat)
  then ascii_of_nat (n + 32)
  else c.

(** [s.lower()] *)
Definition lower (s : pystr) : pystr := map lower_chr s.

(** [s.endswith(suffix)] *)
Definition endswith (s suffix : pystr) : bool :=
  startswith (reverse s) (reverse suffix).

(** [s.split(sep)] for a one-character separator. *)
Fixpoint split_on (sep : ascii) (s : pystr) : list pystr :=
  match s with
  | [] => [[]]
  | c :: s' =>
      match split_on sep s' with
      | w :: ws => if chr_eqb c sep then [] :: w :: ws else (c :: w) :: ws
      | [] => [[c]]
      end
  end.

Section Scan.
Context {H : Host}.

(** The body of the source scan for one file: a [.srt] file is entered
    under its lower-cased base name. *)
Definition source_step (root : pystr) (source_map : odict) (filename : pystr) : odict :=
  if endswith (lower filename) (py ".srt")
  then
    let base_name := lower (fst (splitext filename)) in
    dict_set source_map base_name (join root filename)
  else source_map.

(** [for root, dirs, files in os.walk(src_dir): for filename in files: ...] *)
Definition build_source_map (walked : list (pystr * list pystr)) : odict :=
  fold_left (λ source_map rf, fold_left (source_step (fst rf)) (snd rf) source_map)
            walked [].

(** The body of the export scan for one file. *)
Definition export_step (source_map : odict) (root : pystr)
    (videos_to_process : list (pystr * pystr)) (filename : pystr)
    : list (pystr * pystr) :=
  if endswith (lower filename) (py ".mp4") || endswith (lower filename) (py ".mov")
  then
    let export_path := join root filename in
    if contains export_path (py "_exiftool_tmp") || contains filename (py "temp_")
    then videos_to_process
    else
      let base_name := lower (fst (splitext filename)) in
      match find_matched_srt source_map base_name with
      | Some (c :: matched_srt) =>
          videos_to_process ++ [(export_path, c :: matched_srt)]
      | _ => videos_to_process     (* [None] or an empty path: not appended *)
      end
  else videos_to_process.

(** [for root, dirs, files in os.walk(export_dir): for filename in files: ...] *)
Definition scan_exports (source_map : odict) (walked : list (pystr * list pystr))
    : list (pystr * pystr) :=
  fold_left (λ videos rf, fold_left (export_step source_map (fst rf)) (snd rf) videos)
            walked [].

End Scan.

(** [successful_log] of the tally: [res.split('|')[1:]] for every result
    that starts with [success]. *)
Definition successful_log (results : list pystr) : list (list pystr) :=
  map (λ res, drop 1 (split_on "|" res))
      (List.filter (λ res, startswith res (py "success")) results).

(** The detail line of the summary for one entry; [None] is the
    [IndexError] of [entry[0]], [entry[1]] or [entry[2]]. *)
Definition summary_line (entry : list pystr) : option pystr :=
  e0 ← entry !! 0%nat;
  e1 ← entry !! 1%nat;
  e2 ← entry !! 2%nat;
  Some (py "File: " ++ e0 ++ py " | Date: " ++ e1 ++ py " | GPS: " ++ e2 ++ [ascii_of_nat 10]).

(** ** Vocabulary for the process trace *)

(** The commands started between two worlds. *)
Definition started (w w' : world) (cmds : list (list pystr)) : Prop :=
  trace w' = trace w ++ cmds.


(** Every run of [m] starts only commands that satisfy [P]. *)
Definition starts_only {A} (P : list pystr → Prop) (m : M A) : Prop :=
  ∀ w r w', m w = (r, w') → ∃ cmds, started w w' cmds ∧ Forall P cmds.

(** [m] always returns a value. *)
Definition never_raises {A} (m : M A) : Prop :=
  ∀ w, ∃ a w', m w = (Ret a, w').

(** The metadata of a record as [inject_metadata] needs it. *)
Definition well_typed (metadata : dict) : Prop :=
  (∃ s, metadata !! "datetime" = Some (VStr s))
  ∧ (∃ x, metadata !! "latitude" = Some (VNum x))
  ∧ (∃ x, metadata !! "longitude" = Some (VNum x))
  ∧ (metadata !! "altitude" = None ∨ ∃ x, metadata !! "altitude" = Some (VNum x)).

(** ** Vocabulary for the further properties *)

(** The command of [check_if_processed]. *)
Definition model_query (video_path : pystr) : list pystr :=
  [py "exiftool"; py "-Model"; py "-s3"; video_path].

(** The tags that carry the timestamp. *)
Definition date_tags : list pystr :=
  [ py "-Keys:CreationDate="; py "-QuickTime:CreateDate=";
    py "-QuickTime:ModifyDate="; py "-QuickTime:TrackCreateDate=";
    py "-QuickTime:TrackModifyDate="; py "-QuickTime:MediaCreateDate=";
    py "-QuickTime:MediaModifyDate=" ].

(** The tags that carry the location. *)
Definition gps_tags : list pystr :=
  [ py "-Keys:GPSCoordinates="; py "-QuickTime:GPSCoordinates=";
    py "-UserData:GPSCoordinates=" ].

(** [metadata.get('altitude', 0)] of a well-typed record. *)
Definition altitude_of (metadata : dict) : pynum :=
  match metadata !! "altitude" with
  | Some (VNum alt) => alt
  | _ => PInt 0
  end.

(** A float as a value of the record. *)
Definition float_value (f : spec_float) : pyval := VNum (PFloat f).


(** Every run of [m] leaves the file [p] as it was. *)
Definition keeps_file (p : pystr) {A} (m : M A) : Prop :=
  ∀ w r w', m w = (r, w') → files w' !! p = files w !! p.

(** The files of a walk with their directories, in the order of the walk. *)
Definition walk_files (walked : list (pystr * list pystr)) : list (pystr * pystr) :=
  flat_map (λ rf, map (λ f, (fst rf, f)) (snd rf)) walked.

(** [sep not in s] *)
Definition free_of (sep : ascii) (s : pystr) : Prop := sep ∉ s.

(** [s] is [n] decimal digits. *)
Definition digits (n : nat) (s : pystr) : Prop :=
  length s = n ∧ Forall (λ c, is_digit c = true) s.

(** A timestamp with [sep] between the parts of the date. *)
Definition stamp (sep : ascii) (y m d hh mm ss : pystr) : pystr :=
  y ++ sep :: m ++ sep :: d ++ " "%char :: hh ++ ":"%char :: mm ++ ":"%char :: ss.

(** A string without a path separator. *)
Definition sep_free (t : pystr) : Prop := Forall (λ c, Posix.is_sep c = false) t.

(** A host on which every program starts, exits with 0 and touches no
    file. *)
Definition host_quiet : Host :=
  Posix.host (λ _ fs, Launched (Completed 0 [] []) fs) (λ _ _ _, true).

(** Programs that write the byte [0xFF] to [stderr], as a tool does that
    reports in a legacy code page, and a host on which ffmpeg fails so. *)
Definition garbled (run : list pystr → fsmap → launch)
    (cmd : list pystr) (fs : fsmap) : launch :=
  match run cmd fs with
  | Launched c fs' => Launched (Completed (returncode c) (stdout c) [ascii_of_nat 255]) fs'
  | l => l
  end.

Definition host_ffmpeg_garbled : Host :=
  Posix.host (garbled (Posix.exits 0 1 0)) (λ _ _ _, true).

(** A host whose console is a pipe that the reader has closed: every
    [print] raises [BrokenPipeError]. *)
Definition host_broken_console : Host :=
  Posix.host_console (Posix.exits 0 0 0) (λ _ _ _, true) (λ _ _, Some StreamError).

Section Vocabulary.
Context {H : Host}.

(** [exiftool] can always be started. *)
Definition exiftool_installed : Prop :=
  ∀ cmd fs, head cmd = Some (py "exiftool") →
    ∃ c fs', run_process cmd fs = Launched c fs'.

(** The console prints whatever it is given. *)
Definition console_accepts : Prop :=
  ∀ template fields, print_error template fields = None.

(** [r] is the exception of a [print] that failed. *)
Definition console_failure {A} (r : result A) : Prop :=
  ∃ template fields ce,
    print_error template fields = Some ce ∧ r = Raise (console_exn ce).

(** Files that exist can be removed. *)
Definition removals_succeed : Prop := ∀ p fs, remove_ok p fs = true.

(** What a program that exits with an error has written to [stderr] is
    UTF-8. *)
Definition stderr_decodes : Prop :=
  ∀ cmd fs c fs', run_process cmd fs = Launched c fs' →
    returncode c ≠ 0 → utf8_valid (stderr c) = true.

(** The status string of a processed item. *)
Definition success_status (filename : pystr) (md : dict) : pystr :=
  py "success|" ++ filename ++ py "|" ++ get_str md "datetime" "?"
  ++ py "|" ++ get_str md "latitude" "0" ++ py "," ++ get_str md "longitude" "0".

(** No external program writes or removes [p]. *)
Definition host_spares (p : pystr) : Prop :=
  ∀ cmd fs c fs', run_process cmd fs = Launched c fs' → fs' !! p = fs !! p.

(** The index key of a file name, and the test for a telemetry log. *)
Definition key_of (filename : pystr) : pystr := lower (fst (splitext filename)).
Definition is_srt (filename : pystr) : bool := endswith (lower filename) (py ".srt").
Definition is_video (filename : pystr) : bool :=
  endswith (lower filename) (py ".mp4") || endswith (lower filename) (py ".mov").

(** The work item that the export scan adds for one file, if any. *)
Definition export_item (source_map : odict) (rf : pystr * pystr) : list (pystr * pystr) :=
  export_step source_map (fst rf) [] (snd rf).

End Vocabulary.

(** * Properties *)

Arguments is_digit : simpl never.
Arguments is_space : simpl never.
Arguments chr_eqb : simpl never.

(** ** The scripted external programs *)

Lemma exits_keeps_other a b c cmd fs r fs' (p : pystr) :
  Posix.exits a b c cmd fs = Launched r fs' →
  last cmd ≠ Some p → fs' !! p = fs !! p.
Proof.
  unfold Posix.exits. destruct cmd as [|prog args]; [done|].
  destruct (bool_decide _); [by intros [= <- <-]|].
  destruct (bool_decide _); [|by intros [= <- <-]].
  destruct (last (prog :: args)) as [out|]; [|by intros [= <- <-]].
  destruct (bool_decide _); intros [= <- <-] Hne; [done|].
  apply lookup_insert_ne. congruence.
Qed.

(** ** The matcher against the language of a pattern *)

Section Matcher.
Context {A : Type}.
Implicit Types (k : pystr → option A) (s w rest : pystr).

Lemma star_fallback p s k : is_Some (k s) → is_Some (star p s k).
Proof.
  intros Hk. destruct s as [|c s']; simpl; [done|].
  destruct (in_class p c); [|done].
  destruct (star p s' k); [eauto|done].
Qed.

Lemma star_sound p s k a :
  star p s k = Some a →
  ∃ w rest, s = w ++ rest ∧ Forall (λ c, in_class p c = true) w ∧ k rest = Some a.
Proof.
  induction s as [|c s' IH]; simpl.
  - intros Hk. exists [], []. eauto.
  - destruct (in_class p c) eqn:Hc.
    + destruct (star p s' k) as [a'|] eqn:Hs.
      * intros [= ->]. destruct (IH eq_refl) as (w & rest & -> & Hw & Hk).
        exists (c :: w), rest. eauto.
      * intros Hk. exists [], (c :: s'). eauto.
    + intros Hk. exists [], (c :: s'). eauto.
Qed.

Lemma star_complete p w rest k :
  Forall (λ c, in_class p c = true) w → is_Some (k rest) →
  is_Some (star p (w ++ rest) k).
Proof.
  intros Hw Hk. induction Hw as [|c w Hc _ IH]; simpl.
  - by apply star_fallback.
  - rewrite Hc. destruct IH as [a ->]. eauto.
Qed.

End Matcher.

Lemma rmatch_sound {A} r : ∀ s (k : pystr → option A) a,
  rmatch r s k = Some a →
  ∃ w rest, s = w ++ rest ∧ lang r w ∧ k rest = Some a.
Proof.
  induction r as [|p|p|r1 IH1 r2 IH2|r1 IH1 r2 IH2]; intros s k a; simpl.
  - intros Hk. exists [], s. eauto.
  - destruct s as [|c s']; [done|].
    destruct (in_class p c) eqn:Hc; [|done].
    intros Hk. exists [c], s'. eauto.
  - apply star_sound.
  - intros Hm. apply IH1 in Hm as (w1 & s1 & -> & Hw1 & Hm).
    apply IH2 in Hm as (w2 & rest & -> & Hw2 & Hk).
    exists (w1 ++ w2), rest. rewrite <- app_assoc. eauto 10.
  - destruct (rmatch r1 s k) as [a'|] eqn:H1.
    + intros [= ->]. apply IH1 in H1 as (w & rest & ? & ? & ?). eauto 10.
    + intros H2. apply IH2 in H2 as (w & rest & ? & ? & ?). eauto 10.
Qed.

Lemma rmatch_complete {A} r : ∀ w rest (k : pystr → option A),
  lang r w → is_Some (k rest) → is_Some (rmatch r (w ++ rest) k).
Proof.
  induction r as [|p|p|r1 IH1 r2 IH2|r1 IH1 r2 IH2]; intros w rest k; simpl.
  - by intros -> ?.
  - intros (c & -> & Hc) Hk. simpl. by rewrite Hc.
  - apply star_complete.
  - intros (w1 & w2 & -> & H1 & H2) Hk. rewrite <- app_assoc.
    apply IH1; [done|]. by apply IH2.
  - intros [H1|H2] Hk.
    + destruct (IH1 w rest k H1 Hk) as [a ->]. eauto.
    + destruct (rmatch r1 (w ++ rest) k); [eauto|]. by apply IH2.
Qed.

Lemma match_at_sound pat s g :
  match_at pat s = Some g →
  ∃ w0 w2 after, s = w0 ++ g ++ w2 ++ after
    ∧ lang (prefix pat) w0 ∧ lang (group1 pat) g ∧ lang (suffix pat) w2.
Proof.
  unfold match_at. intros Hm.
  apply rmatch_sound in Hm as (w0 & s1 & -> & H0 & Hm).
  apply rmatch_sound in Hm as (w1 & s2 & -> & H1 & Hm).
  apply rmatch_sound in Hm as (w2 & after & -> & H2 & Hm).
  injection Hm as <-.
  replace (length (w1 ++ w2 ++ after) - length (w2 ++ after))%nat
    with (length w1) by (rewrite !length_app; lia).
  rewrite take_app_length. eauto 10.
Qed.

Lemma match_at_complete pat w0 g w2 after :
  lang (prefix pat) w0 → lang (group1 pat) g → lang (suffix pat) w2 →
  is_Some (match_at pat (w0 ++ g ++ w2 ++ after)).
Proof.
  intros H0 H1 H2. unfold match_at.
  apply rmatch_complete; [done|].
  apply rmatch_complete; [done|].
  apply rmatch_complete; [done|]. eauto.
Qed.

Lemma re_search_sound pat s g :
  re_search pat s = Some g → occurs_with pat s g.
Proof.
  induction s as [|c s' IH]; simpl.
  - destruct (match_at pat []) as [g'|] eqn:Hm; [|done].
    intros [= ->]. apply match_at_sound in Hm as (w0 & w2 & after & ? & ?).
    by exists [], w0, w2, after.
  - destruct (match_at pat (c :: s')) as [g'|] eqn:Hm.
    + intros [= ->]. apply match_at_sound in Hm as (w0 & w2 & after & ? & ?).
      by exists [], w0, w2, after.
    + intros Hs. destruct (IH Hs) as (before & w0 & w2 & after & -> & ?).
      by exists (c :: before), w0, w2, after.
Qed.

Lemma re_search_complete pat s :
  occurs pat s → is_Some (re_search pat s).
Proof.
  intros (g & before & w0 & w2 & after & -> & H0 & H1 & H2).
  induction before as [|c before IH]; simpl.
  - destruct (match_at_complete pat w0 g w2 after H0 H1 H2) as [g' Hg].
    destruct (w0 ++ g ++ w2 ++ after); simpl; rewrite Hg; eauto.
  - destruct (match_at pat (c :: before ++ w0 ++ g ++ w2 ++ after)); eauto.
Qed.

Lemma re_search_occurs pat s : is_Some (re_search pat s) ↔ occurs pat s.
Proof.
  split.
  - intros [g Hg]. exists g. by apply re_search_sound.
  - apply re_search_complete.
Qed.

Lemma re_search_None pat s : re_search pat s = None ↔ ¬ occurs pat s.
Proof.
  rewrite <- re_search_occurs, <- eq_None_not_Some. done.
Qed.

(** ** [float()] never fails on what the patterns capture *)

Lemma chr_eqb_eq a b : chr_eqb a b = true ↔ a = b.
Proof. apply Ascii.eqb_eq. Qed.

Lemma digit_not_punct c :
  is_digit c = true →
  chr_eqb c "-" = false ∧ chr_eqb c "+" = false ∧ chr_eqb c "." = false.
Proof.
  destruct c as [[] [] [] [] [] [] [] []]; vm_compute; intros; try done.
Qed.

Lemma forallb_digits ds :
  Forall (λ c, in_class CDigit c = true) ds → forallb is_digit ds = true.
Proof.
  induction 1 as [|c ds Hc _ IH]; simpl in *; [done|]. by rewrite Hc, IH.
Qed.

Lemma span_digits_stop ds rest :
  Forall (λ c, in_class CDigit c = true) ds →
  match rest with [] => True | c :: _ => is_digit c = false end →
  span_digits (ds ++ rest) = (ds, rest).
Proof.
  intros Hds Hrest. induction Hds as [|c ds Hc _ IH]; simpl in *.
  - destruct rest as [|c rest]; simpl; [done|]. by rewrite Hrest.
  - by rewrite Hc, IH.
Qed.

(** The two shapes of a captured number. *)
Lemma number_re_shape g :
  lang number_re g →
  (∃ sg ds1 d ds2,
      g = sg ++ ds1 ++ "."%char :: d :: ds2
      ∧ (sg = [] ∨ sg = ["-"%char] ∨ sg = ["+"%char])
      ∧ Forall (λ c, in_class CDigit c = true) ds1
      ∧ is_digit d = true
      ∧ Forall (λ c, in_class CDigit c = true) ds2)
  ∨ (∃ d ds, g = d :: ds ∧ is_digit d = true
             ∧ Forall (λ c, in_class CDigit c = true) ds).
Proof.
  intros [Hl|Hr].
  - left. destruct Hl as (w1 & w2 & -> & Hsg & w3 & w4 & -> & Hds1
                           & w5 & w6 & -> & (c & -> & Hc)
                           & w7 & w8 & -> & (w9 & w10 & -> & (d & -> & Hd) & Hds2) & ->).
    apply chr_eqb_eq in Hc as ->.
    exists w1, w3, d, w10. rewrite app_nil_r. split; [done|].
    split; [|done].
    destruct Hsg as [(c & -> & Hc)| ->]; [|by left].
    simpl in Hc. apply orb_true_iff in Hc as [Hc|Hc]; apply chr_eqb_eq in Hc as ->; eauto.
  - right. destruct Hr as (w1 & w2 & -> & (d & -> & Hd) & Hds). eauto.
Qed.

Lemma py_float_digits d ds :
  is_digit d = true → Forall (λ c, in_class CDigit c = true) ds →
  py_float (d :: ds) = Some (float_of_decimal false (digits_val (d :: ds)) 0).
Proof.
  intros Hd Hds. destruct (digit_not_punct d Hd) as (Hm & Hp & _).
  unfold py_float. rewrite Hm, Hp.
  pose proof (span_digits_stop (d :: ds) [] (Forall_cons_2 _ _ _ Hd Hds) I) as Hsp.
  rewrite app_nil_r in Hsp. by rewrite Hsp.
Qed.

Lemma py_float_number g : lang number_re g → is_Some (py_float g).
Proof.
  intros Hg. apply number_re_shape in Hg
    as [(sg & ds1 & d & ds2 & -> & Hsg & Hds1 & Hd & Hds2)|(d & ds & -> & Hd & Hds)].
  - assert (Htail : ∀ neg, is_Some (
        let '(ip, s2) := span_digits (ds1 ++ "."%char :: d :: ds2) in
        match s2 with
        | [] => match ip with
                | [] => None
                | _ => Some (float_of_decimal neg (digits_val ip) 0)
                end
        | c :: fp =>
            if chr_eqb c "." && forallb is_digit fp
               && negb (Nat.eqb (length ip + length fp) 0)
            then Some (float_of_decimal neg (digits_val (ip ++ fp)) (length fp))
            else None
        end)).
    { intros neg. rewrite span_digits_stop by done.
      rewrite (forallb_digits (d :: ds2)) by (by constructor).
      simpl. rewrite Nat.add_succ_r. simpl. eauto. }
    destruct Hsg as [->|[->| ->]]; simpl.
    + unfold py_float. destruct ds1 as [|c ds1]; simpl app.
      * cbn [chr_eqb]. apply (Htail false).
      * inversion Hds1 as [|? ? Hc _]; subst.
        destruct (digit_not_punct c Hc) as (Hm & Hp & _).
        rewrite Hm, Hp. apply (Htail false).
    + apply (Htail true).
    + apply (Htail false).
  - rewrite py_float_digits by done. eauto.
Qed.

Lemma py_float_plus_digits g : lang (Plus CDigit) g → is_Some (py_float g).
Proof.
  intros (w1 & w2 & -> & (d & -> & Hd) & Hds).
  simpl. rewrite py_float_digits by done. eauto.
Qed.

(** ** TelemetryParser *)

Lemma re_search_group_float pat text g :
  group1 pat = number_re ∨ group1 pat = Plus CDigit →
  re_search pat text = Some g → is_Some (py_float g).
Proof.
  intros Hpat Hs. apply re_search_sound in Hs as (? & ? & ? & ? & _ & _ & Hg & _).
  destruct Hpat as [Heq|Heq]; rewrite Heq in Hg.
  - by apply py_float_number.
  - by apply py_float_plus_digits.
Qed.

Lemma parse_srt_data_statements (fs : fsmap) (srt_path text : pystr) :
  fs !! srt_path = Some text → parse_srt_data fs srt_path = parse_statements text.
Proof.
  intros Hfile. unfold parse_srt_data, parse_statements. rewrite Hfile.
  unfold set_if, clean_shutter, fnum_value.
  destruct (match re_search lat_pat text with Some _ => _ | None => _ end)
    as [d1|]; [|done]. cbn [mbind option_bind].
  destruct (match re_search alt_pat text with Some _ => _ | None => _ end)
    as [d2|]; [|done]. cbn [mbind option_bind].
  destruct (re_search shutter_pat text) as [gs|];
    [destruct (contains gs (py ".0"))|];
    (destruct (re_search fnum_pat text) as [gf|];
      [cbn [mbind option_bind]; destruct (py_float gf)|]); done.
Qed.

Lemma lookup_set_if_ne {X} (m : option X) k k' f (d : dict) :
  k ≠ k' → set_if m k f d !! k' = d !! k'.
Proof. intros ?. destruct m; simpl; [by rewrite lookup_insert_ne|done]. Qed.

Lemma is_Some_set_if {X} (m : option X) k f (d : dict) :
  d !! k = None → (is_Some (set_if m k f d !! k) ↔ is_Some m).
Proof.
  intros Hd. destruct m; simpl.
  - rewrite lookup_insert_eq. split; eauto.
  - rewrite Hd. done.
Qed.

Ltac dict_lookup :=
  repeat first
    [ rewrite lookup_insert_eq
    | rewrite lookup_insert_ne by done
    | rewrite lookup_set_if_ne by done
    | rewrite lookup_empty ].

Lemma parse_srt_data_fields (fs : fsmap) (srt_path text : pystr) :
  fs !! srt_path = Some text →
  (parse_srt_data fs srt_path = None
     ↔ ¬ occurs lat_pat text ∨ ¬ occurs lon_pat text)
  ∧ (∀ data, parse_srt_data fs srt_path = Some data →
       is_Some (data !! "latitude") ∧ is_Some (data !! "longitude")
       ∧ (is_Some (data !! "datetime") ↔ occurs date_pat text)
       ∧ (is_Some (data !! "altitude") ↔ occurs alt_pat text)
       ∧ (is_Some (data !! "iso") ↔ occurs iso_pat text)
       ∧ (is_Some (data !! "shutter") ↔ occurs shutter_pat text)
       ∧ (is_Some (data !! "fnum") ↔ occurs fnum_pat text)).
Proof.
  intros Hfile. rewrite (parse_srt_data_statements fs srt_path text Hfile).
  unfold parse_statements.
  assert (Hocc : ∀ pat, occurs pat text ↔ is_Some (re_search pat text))
    by (intros; symmetry; apply re_search_occurs).
  rewrite !Hocc.
  pose proof (re_search_group_float lat_pat text) as Flat.
  pose proof (re_search_group_float lon_pat text) as Flon.
  pose proof (re_search_group_float alt_pat text) as Falt.
  pose proof (re_search_group_float fnum_pat text) as Ffnum.
  assert (Hfn : is_Some (re_search fnum_pat text ≫= py_float)
                ↔ is_Some (re_search fnum_pat text)).
  { destruct (re_search fnum_pat text) as [gf|]; simpl; [|done].
    split; [eauto|]. intros _. apply Ffnum; [by right|done]. }
  destruct (re_search lat_pat text) as [glat|];
    [destruct (Flat glat) as [lat Hlat]; [by left|done|]; rewrite ?Hlat|];
  (destruct (re_search lon_pat text) as [glon|];
    [destruct (Flon glon) as [lon Hlon]; [by left|done|]; rewrite ?Hlon|]);
  (destruct (re_search alt_pat text) as [galt|] eqn:Ealt;
    [destruct (Falt galt) as [alt Halt]; [by left|done|]; rewrite ?Halt|]);
  clear Flat Flon Falt Ffnum;
  cbn [mbind option_bind]; cbv zeta;
  dict_lookup;
  rewrite ?bool_decide_eq_true_2 by eauto;
  rewrite ?bool_decide_eq_false_2 by (by intros [? ?]);
  cbn [andb];
  (split;
   [ split;
     [ intros ?; first [done | left; by intros [? ?] | right; by intros [? ?]]
     | intros [Hn|Hn]; first [done | destruct Hn; eauto] ]
   | intros data Hdata; try done; injection Hdata as <- ]);
  rewrite !Hocc, ?Ealt; clear Hocc;
  repeat (split; [dict_lookup; eauto|]);
  rewrite <- ?Hfn;
  repeat (split; [dict_lookup; try (apply is_Some_set_if; by dict_lookup);
                  try (split; eauto; by intros [? ?])|]);
  dict_lookup; try (apply is_Some_set_if; by dict_lookup);
  try (by intros [? ?]); eauto.
Qed.

(** C4. On a readable telemetry log, [parse_srt_data] returns [None] exactly
    when the text has no latitude occurrence or no longitude occurrence; a
    returned record has both coordinates, and each of datetime, altitude,
    iso, shutter and fnum is in it exactly when its own pattern occurs. *)
Theorem parse_srt_data_null_iff (fs : fsmap) (srt_path text : pystr) :
  fs !! srt_path = Some text →
  (parse_srt_data fs srt_path = None
     ↔ ¬ occurs lat_pat text ∨ ¬ occurs lon_pat text)
  ∧ (∀ data, parse_srt_data fs srt_path = Some data →
       is_Some (data !! "latitude") ∧ is_Some (data !! "longitude")
       ∧ (is_Some (data !! "datetime") ↔ occurs date_pat text)
       ∧ (is_Some (data !! "altitude") ↔ occurs alt_pat text)
       ∧ (is_Some (data !! "iso") ↔ occurs iso_pat text)
       ∧ (is_Some (data !! "shutter") ↔ occurs shutter_pat text)
       ∧ (is_Some (data !! "fnum") ↔ occurs fnum_pat text)).
Proof. apply parse_srt_data_fields. Qed.

Lemma parse_srt_data_null_iff_witness :
  (parse_srt_data sample_fs (py "/src/DJI_0001.SRT") = None
     ↔ ¬ occurs lat_pat sample_srt ∨ ¬ occurs lon_pat sample_srt)
  ∧ (∀ data, parse_srt_data sample_fs (py "/src/DJI_0001.SRT") = Some data →
       is_Some (data !! "latitude") ∧ is_Some (data !! "longitude")
       ∧ (is_Some (data !! "datetime") ↔ occurs date_pat sample_srt)
       ∧ (is_Some (data !! "altitude") ↔ occurs alt_pat sample_srt)
       ∧ (is_Some (data !! "iso") ↔ occurs iso_pat sample_srt)
       ∧ (is_Some (data !! "shutter") ↔ occurs shutter_pat sample_srt)
       ∧ (is_Some (data !! "fnum") ↔ occurs fnum_pat sample_srt)).
Proof.
  apply (parse_srt_data_null_iff sample_fs (py "/src/DJI_0001.SRT") sample_srt).
  reflexivity.
Defined.

(** ** Integers with a sign are not coordinates *)

Lemma lang_Lit s w : lang (Lit s) w ↔ w = s.
Proof.
  revert w. induction s as [|a s IH]; intros w; simpl; [done|].
  split.
  - intros (w1 & w2 & -> & (c & -> & Hc) & Hw2).
    apply chr_eqb_eq in Hc as ->. apply IH in Hw2 as ->. done.
  - intros ->. exists [a], s. split; [done|]. split; [|by apply IH].
    exists a. split; [done|]. by apply chr_eqb_eq.
Qed.

Lemma bracket_prefix_shape key g w0 :
  lang (prefix (bracket_pat key g)) w0 →
  ∃ ws1 ws2,
    w0 = py "[" ++ py key ++ ws1 ++ ":"%char :: ws2
    ∧ Forall (λ c, is_space c = true) ws1
    ∧ Forall (λ c, is_space c = true) ws2.
Proof.
  intros (w1 & r1 & -> & H1 & w2 & r2 & -> & H2 & w3 & r3 & -> & H3
          & w4 & r4 & -> & H4 & w5 & r5 & -> & H5 & ->).
  apply lang_Lit in H1 as ->. apply lang_Lit in H2 as ->. apply lang_Lit in H4 as ->.
  exists w3, w5. rewrite app_nil_r. done.
Qed.

(** A run of characters of one class, followed by a character outside the
    class, is determined by the whole string. *)
Lemma class_run_unique (P : ascii → bool) l1 : ∀ l2 a b r1 r2,
  Forall (λ c, P c = true) l1 → Forall (λ c, P c = true) l2 →
  P a = false → P b = false →
  l1 ++ a :: r1 = l2 ++ b :: r2 → l1 = l2 ∧ a = b ∧ r1 = r2.
Proof.
  induction l1 as [|c l1 IH]; intros l2 a b r1 r2 H1 H2 Ha Hb Heq.
  - destruct l2 as [|c2 l2]; simpl in Heq; [by simplify_eq|].
    simplify_eq. inversion H2; congruence.
  - destruct l2 as [|c2 l2]; simpl in Heq; simplify_eq.
    + inversion H1; congruence.
    + inversion H1; inversion H2; subst.
      destruct (IH l2 a b r1 r2) as (-> & -> & ->); done.
Qed.

Lemma digit_not_space c : is_digit c = true → is_space c = false.
Proof.
  destruct c as [[] [] [] [] [] [] [] []]; vm_compute; intros; try done.
Qed.

Lemma startswith_app p r : startswith (p ++ r) p = true.
Proof.
  induction p as [|a p IH]; simpl; [done|].
  rewrite IH, andb_true_r. by apply chr_eqb_eq.
Qed.

Lemma negative_integer_no_match key text :
  (∀ before s, text = before ++ s →
     startswith s (py "[" ++ py key) = true → negative_integer_token key s) →
  ¬ occurs (bracket_pat key number_re) text.
Proof.
  intros Htok (g & before & w0 & w2 & after & Htext & H0 & Hg & H2).
  apply bracket_prefix_shape in H0 as (ws1' & ws2' & -> & Hws1' & Hws2').
  destruct (Htok before _ Htext) as (ws1 & ws2 & ds & rest & Heq & Hws1 & Hws2 & _ & Hds).
  { rewrite <- !app_assoc, (app_assoc (py "[")). apply startswith_app. }
  rewrite <- !app_assoc in Heq.
  do 2 apply app_inv_head in Heq. simpl in Heq.
  apply (class_run_unique is_space) in Heq as (-> & _ & Heq); [|done..].
  apply number_re_shape in Hg
    as [(sg & ds1 & d & ds2 & -> & Hsg & Hds1 & Hd & Hds2)|(d & dd & -> & Hd & Hdd)].
  - destruct Hsg as [->|[->| ->]]; simpl in Heq.
    + destruct ds1 as [|c1 ds1]; simpl in Heq.
      * apply (class_run_unique is_space) in Heq as (_ & [=] & _); done.
      * inversion Hds1 as [|? ? Hc1 _]; subst. simpl in Hc1.
        apply (class_run_unique is_space) in Heq as (_ & -> & _);
          [done|done..|by apply digit_not_space|done].
    + apply (class_run_unique is_space) in Heq as (_ & _ & Heq); [|done..].
      rewrite <- app_assoc in Heq. simpl in Heq.
      apply (class_run_unique is_digit) in Heq as (_ & [=] & _); done.
    + apply (class_run_unique is_space) in Heq as (_ & [=] & _); done.
  - simpl in Heq.
    apply (class_run_unique is_space) in Heq as (_ & -> & _);
      [done|done..|by apply digit_not_space|done].
Qed.

Lemma strip_prefix_Some p : ∀ s r, strip_prefix p s = Some r → s = p ++ r.
Proof.
  induction p as [|a p IH]; intros s r; simpl; [congruence|].
  destruct s as [|b s]; [done|].
  destruct (chr_eqb a b) eqn:Hab; [|done].
  apply chr_eqb_eq in Hab as ->. intros Hr. by rewrite (IH _ _ Hr).
Qed.

Lemma skip_spaces_spec s :
  ∃ ws, s = ws ++ skip_spaces s ∧ Forall (λ c, is_space c = true) ws.
Proof.
  induction s as [|c s (ws & Hs & Hws)]; simpl.
  - by exists [].
  - destruct (is_space c) eqn:Hc.
    + exists (c :: ws). split; [simpl; congruence|by constructor].
    + by exists [].
Qed.

Lemma span_digits_spec s : ∀ ds r,
  span_digits s = (ds, r) → s = ds ++ r ∧ Forall (λ c, is_digit c = true) ds.
Proof.
  induction s as [|c s IH]; intros ds r; simpl.
  - by intros [= <- <-].
  - destruct (is_digit c) eqn:Hc.
    + destruct (span_digits s) as [ds' r'] eqn:Hs. intros [= <- <-].
      destruct (IH _ _ eq_refl) as [-> Hds]. split; [done|by constructor].
    + by intros [= <- <-].
Qed.

Lemma negative_integer_tokenb_sound key s :
  negative_integer_tokenb key s = true → negative_integer_token key s.
Proof.
  unfold negative_integer_tokenb.
  destruct (strip_prefix _ s) as [r|] eqn:Hr; [|done].
  apply strip_prefix_Some in Hr as ->.
  destruct (skip_spaces_spec r) as (ws1 & Hr & Hws1).
  destruct (skip_spaces r) as [|c1 r2]; [done|].
  intros [Hc1 Hrest]%andb_true_iff. apply chr_eqb_eq in Hc1 as ->.
  destruct (skip_spaces_spec r2) as (ws2 & Hr2 & Hws2).
  destruct (skip_spaces r2) as [|c2 r4]; [done|].
  apply andb_true_iff in Hrest as [Hc2 Hrest]. apply chr_eqb_eq in Hc2 as ->.
  destruct (span_digits r4) as [ds r5] eqn:Hsp.
  apply span_digits_spec in Hsp as [-> Hds].
  apply andb_true_iff in Hrest as [Hne Hc3].
  destruct r5 as [|c3 rest]; [done|]. apply chr_eqb_eq in Hc3 as ->.
  exists ws1, ws2, ds, rest. rewrite Hr, Hr2, <- !app_assoc. simpl.
  repeat split; try done.
  intros ->. done.
Qed.

Lemma only_negative_integers_sound key text :
  only_negative_integers key text = true →
  ∀ before s, text = before ++ s →
    startswith s (py "[" ++ py key) = true → negative_integer_token key s.
Proof.
  intros Hall before. revert text Hall.
  induction before as [|c before IH]; intros text Hall s -> Hs.
  - destruct s; cbn [only_negative_integers app] in Hall;
      apply andb_true_iff in Hall as [Hall _];
      rewrite Hs in Hall; by apply negative_integer_tokenb_sound.
  - cbn [only_negative_integers app] in Hall.
    apply andb_true_iff in Hall as [_ Hall]. by eapply IH.
Qed.

(** C10 as amended. When every [[latitude] (or every [[longitude]) in the
    text is followed by a negative integer without a decimal point, as in
    [[latitude: -35]], the coordinate pattern matches nowhere, whatever
    tokens are there, and [parse_srt_data] returns [None]. *)
Theorem negative_integer_coordinate_discarded
    (fs : fsmap) (srt_path text : pystr) (key : string) :
  key = "latitude"%string ∨ key = "longitude"%string →
  fs !! srt_path = Some text →
  (∀ before s, text = before ++ s →
     startswith s (py "[" ++ py key) = true → negative_integer_token key s) →
  re_search (bracket_pat key number_re) text = None
  ∧ parse_srt_data fs srt_path = None.
Proof.
  intros Hkey Hfile Htok.
  pose proof (negative_integer_no_match key text Htok) as Hno.
  split; [by apply re_search_None|].
  apply (parse_srt_data_fields fs srt_path text Hfile).
  destruct Hkey as [->| ->]; [by left|by right].
Qed.

Lemma negative_integer_coordinate_discarded_witness :
  let text := py "2025-08-09 18:53:47 [latitude: -35] [longitude: 139.7671]" in
  re_search (bracket_pat "latitude" number_re) text = None
  ∧ parse_srt_data {[ py "a.SRT" := text ]} (py "a.SRT") = None.
Proof.
  intros text.
  apply (negative_integer_coordinate_discarded
           {[ py "a.SRT" := text ]} (py "a.SRT") text "latitude").
  - by left.
  - reflexivity.
  - apply only_negative_integers_sound. reflexivity.
Defined.

(** C10 as stated fails: one latitude token with a negative integer does
    not discard the record when a later latitude token has a value that the
    pattern accepts; the search moves on to it. *)
Lemma negative_integer_first_token_counterexample :
  let text := py "[latitude: -35] [latitude: 36.5] [longitude: 139.7671]" in
  negative_integer_token "latitude" text
  ∧ re_search (bracket_pat "latitude" number_re) text = Some (py "36.5")
  ∧ (∃ data, parse_srt_data {[ py "a.SRT" := text ]} (py "a.SRT") = Some data
             ∧ data !! "latitude" = Some (VNum (float_lit "36.5")))
  ∧ parse_srt_data {[ py "a.SRT" := text ]} (py "a.SRT") ≠ None.
Proof.
  intros text. split; [apply negative_integer_tokenb_sound; reflexivity|].
  split; [vm_compute; reflexivity|].
  split; [eexists; split; vm_compute; reflexivity|].
  vm_compute. discriminate.
Qed.

(** ** Shutter normalization *)

Lemma replace_go_fuel o old new : ∀ n m s,
  (length s ≤ n)%nat → (length s ≤ m)%nat →
  replace_go n s (o :: old) new = replace_go m s (o :: old) new.
Proof.
  induction n as [|n IH]; intros m s Hn Hm.
  - destruct s; [|simpl in Hn; lia]. by destruct m.
  - destruct m as [|m]; [destruct s; [done|simpl in Hm; lia]|].
    destruct s as [|c s]; [done|]. cbn [replace_go].
    destruct (startswith (c :: s) (o :: old)).
    + f_equal. apply IH; rewrite length_drop; simpl in *; lia.
    + f_equal. apply IH; simpl in *; lia.
Qed.

Lemma replace_nil old new : replace [] old new = [].
Proof. done. Qed.

Lemma replace_cons c s o old new :
  replace (c :: s) (o :: old) new =
  if startswith (c :: s) (o :: old)
  then new ++ replace (drop (length (o :: old)) (c :: s)) (o :: old) new
  else c :: replace s (o :: old) new.
Proof.
  unfold replace. cbn [length replace_go].
  destruct (startswith (c :: s) (o :: old)); f_equal;
    apply replace_go_fuel; rewrite ?length_drop; simpl; lia.
Qed.

Lemma contains_cons c s p :
  contains (c :: s) p = startswith (c :: s) p || contains s p.
Proof. done. Qed.

Lemma replace_absent o old new s :
  contains s (o :: old) = false → replace s (o :: old) new = s.
Proof.
  induction s as [|c s IH]; [done|].
  rewrite contains_cons, replace_cons. intros [-> Hs]%orb_false_iff.
  by rewrite IH.
Qed.

(** With the first [.0] at the end of [a], it goes and the rest is treated
    the same way. *)
Lemma replace_first_dot0 new a b :
  contains (a ++ py ".") (py ".0") = false →
  replace (a ++ py ".0" ++ b) (py ".0") new = a ++ new ++ replace b (py ".0") new.
Proof.
  induction a as [|c a IH]; intros Ha.
  - change ([] ++ py ".0" ++ b) with ("."%char :: "0"%char :: b).
    change (py ".0") with ["."%char; "0"%char].
    rewrite replace_cons. done.
  - change ((c :: a) ++ py ".") with (c :: (a ++ py ".")) in Ha.
    rewrite contains_cons in Ha. apply orb_false_iff in Ha as [Hst Ha].
    change ((c :: a) ++ py ".0" ++ b) with (c :: (a ++ py ".0" ++ b)).
    change (py ".0") with ["."%char; "0"%char] in *.
    rewrite replace_cons.
    assert (startswith (c :: a ++ ["."%char; "0"%char] ++ b) ["."%char; "0"%char] = false)
      as ->.
    { destruct a as [|c2 a]; simpl in *.
      - destruct (chr_eqb "." c); [|done]. done.
      - exact Hst. }
    simpl. f_equal. by apply IH.
Qed.

Lemma lookup_set_if_eq {X} (m : option X) k f (d : dict) :
  d !! k = None → set_if m k f d !! k = f <$> m.
Proof. intros Hd. destruct m; simpl; [by rewrite lookup_insert_eq|done]. Qed.

Lemma shutter_value (fs : fsmap) (srt_path text : pystr) (data : dict) :
  fs !! srt_path = Some text →
  parse_srt_data fs srt_path = Some data →
  data !! "shutter" = clean_shutter <$> re_search shutter_pat text.
Proof.
  intros Hfile. rewrite (parse_srt_data_statements fs srt_path text Hfile).
  unfold parse_statements.
  destruct (re_search lat_pat text) as [glat|];
    [destruct (py_float glat) as [lat|]|];
  (destruct (re_search lon_pat text) as [glon|];
    [destruct (py_float glon) as [lon|]|]);
  (destruct (re_search alt_pat text) as [galt|];
    [destruct (py_float galt) as [alt|]|]);
  cbn [mbind option_bind]; cbv zeta; try done;
  (destruct (_ && _); [|done]); intros [= <-];
  dict_lookup; rewrite lookup_set_if_eq; by dict_lookup.
Qed.

(** C8 as amended. The shutter value of a record is the raw value with every
    [.0] removed, scanning from the left: a raw value without [.0] is kept
    as it is; otherwise the first [.0] goes and the rest is treated the same
    way, so a raw value with a single [.0], like [1/160.0], loses exactly
    that one. *)
Theorem shutter_normalization
    (fs : fsmap) (srt_path text : pystr) (data : dict) (shutter_raw : pystr) :
  fs !! srt_path = Some text →
  parse_srt_data fs srt_path = Some data →
  re_search shutter_pat text = Some shutter_raw →
  ∃ v, data !! "shutter" = Some (VStr v)
    ∧ (contains shutter_raw (py ".0") = false → v = shutter_raw)
    ∧ (∀ a b, shutter_raw = a ++ py ".0" ++ b →
         contains (a ++ py ".") (py ".0") = false →
         v = a ++ replace b (py ".0") []
         ∧ (contains b (py ".0") = false → v = a ++ b)).
Proof.
  intros Hfile Hdata Hraw.
  rewrite (shutter_value fs srt_path text data Hfile Hdata), Hraw.
  cbn [fmap option_fmap option_map]. unfold clean_shutter.
  eexists. split; [done|]. split.
  - by intros ->.
  - intros a b -> Ha.
    assert (contains (a ++ py ".0" ++ b) (py ".0") = true) as ->.
    { clear. induction a as [|c a IH]; [done|].
      change ((c :: a) ++ py ".0" ++ b) with (c :: (a ++ py ".0" ++ b)).
      rewrite contains_cons, IH. apply orb_true_r. }
    rewrite (replace_first_dot0 [] a b Ha). split; [done|].
    intros Hb. cbn [app]. f_equal. by apply (replace_absent "."%char ["0"%char]).
Qed.

Lemma shutter_normalization_witness :
  ∃ v, (default ∅ (parse_srt_data sample_fs (py "/src/DJI_0001.SRT"))) !! "shutter"
         = Some (VStr v)
    ∧ (contains (py "1/160.0") (py ".0") = false → v = py "1/160.0")
    ∧ (∀ a b, py "1/160.0" = a ++ py ".0" ++ b →
         contains (a ++ py ".") (py ".0") = false →
         v = a ++ replace b (py ".0") []
         ∧ (contains b (py ".0") = false → v = a ++ b)).
Proof.
  apply (shutter_normalization sample_fs (py "/src/DJI_0001.SRT") sample_srt
           (default ∅ (parse_srt_data sample_fs (py "/src/DJI_0001.SRT")))
           (py "1/160.0"));
    vm_compute; reflexivity.
Defined.

(** C8 as stated fails: with two [.0] in the raw value the parser removes
    both, where stripping once would leave the second. *)
Lemma shutter_strip_once_counterexample :
  let text := py "[latitude: 1.5] [longitude: 2.5] [shutter : 1.0/2.0]" in
  let fs : fsmap := {[ py "a.SRT" := text ]} in
  re_search shutter_pat text = Some (py "1.0/2.0")
  ∧ (parse_srt_data fs (py "a.SRT") ≫= (λ data : dict, data !! "shutter"))
    = Some (VStr (py "1/2"))
  ∧ strip_first (py "1.0/2.0") (py ".0") = py "1/2.0"
  ∧ py "1/2" ≠ py "1/2.0".
Proof. vm_compute. repeat split; try reflexivity. discriminate. Qed.

(** ** CoordinateFormatter *)

Lemma digit_chr_0 : digit_chr 0 = "0"%char.
Proof. done. Qed.

Lemma fixed_digits_length k : ∀ n, length (fixed_digits k n) = k.
Proof.
  induction k as [|k IH]; intros n; simpl; [done|].
  rewrite length_app, IH. simpl. lia.
Qed.

Lemma fixed_digits_0 k : fixed_digits k 0 = replicate k "0"%char.
Proof.
  induction k as [|k IH]; [done|].
  cbn [fixed_digits]. change (0 / 10) with 0. change (0 mod 10) with 0.
  rewrite IH, digit_chr_0. by rewrite <- replicate_S_end.
Qed.

(** A number that fits in [j] digits, written with [k >= j] digits, gets
    leading zeros. *)
Lemma fixed_digits_pad j : ∀ k n,
  (j ≤ k)%nat → 0 ≤ n < 10 ^ Z.of_nat j →
  fixed_digits k n = replicate (k - j) "0"%char ++ fixed_digits j n.
Proof.
  induction j as [|j IH]; intros k n Hjk Hn.
  - assert (n = 0) as -> by (simpl in Hn; lia).
    rewrite Nat.sub_0_r, fixed_digits_0. simpl. by rewrite app_nil_r.
  - destruct k as [|k]; [lia|]. cbn [fixed_digits].
    rewrite (IH k (n / 10)), <- app_assoc; [done|lia|].
    rewrite Nat2Z.inj_succ, Z.pow_succ_r in Hn by lia.
    split; [apply Z.div_pos; lia|].
    apply Z.div_lt_upper_bound; lia.
Qed.

(** [str_go] writes the digits of [n], as many as [n] needs. *)
Lemma str_go_fixed fuel : ∀ n acc,
  0 ≤ n < 10 ^ Z.of_nat fuel → (1 ≤ fuel)%nat →
  ∃ j, (1 ≤ j)%nat
    ∧ str_go fuel n acc = fixed_digits j n ++ acc
    ∧ n < 10 ^ Z.of_nat j
    ∧ (j = 1%nat ∨ 10 ^ Z.of_nat (j - 1) ≤ n).
Proof.
  induction fuel as [|fuel IH]; intros n acc Hn Hfuel; [lia|].
  cbn [str_go]. destruct (n / 10 =? 0) eqn:Hq.
  - apply Z.eqb_eq in Hq. exists 1%nat.
    assert (n < 10).
    { destruct (Z_lt_ge_dec n 10) as [|Hge]; [done|].
      assert (1 ≤ n / 10) by (apply Z.div_le_lower_bound; lia). lia. }
    cbn [fixed_digits]. simpl. repeat split; try lia; by left.
  - apply Z.eqb_neq in Hq.
    rewrite Nat2Z.inj_succ, Z.pow_succ_r in Hn by lia.
    assert (0 ≤ n / 10 < 10 ^ Z.of_nat fuel) as Hn'.
    { split; [apply Z.div_pos; lia|apply Z.div_lt_upper_bound; lia]. }
    assert (1 ≤ fuel)%nat as Hf.
    { destruct fuel; [|lia]. simpl in Hn'. lia. }
    destruct (IH (n / 10) (digit_chr (n mod 10) :: acc) Hn' Hf)
      as (j & Hj & -> & Hlt & Hmin).
    exists (S j). cbn [fixed_digits]. rewrite <- app_assoc. simpl.
    assert (10 ≤ n).
    { destruct (Z_lt_ge_dec n 10) as [Hl|]; [|lia].
      rewrite Z.div_small in Hq by lia. done. }
    repeat split; try lia.
    + rewrite Nat2Z.inj_succ, Z.pow_succ_r by lia.
      pose proof (Z.mul_div_le n 10 ltac:(lia)).
      pose proof (Z.mod_pos_bound n 10 ltac:(lia)).
      pose proof (Z.div_mod n 10 ltac:(lia)). lia.
    + right. replace (Z.of_nat (j - 0)) with (Z.succ (Z.of_nat (j - 1))) by lia.
      rewrite Z.pow_succ_r by lia.
      pose proof (Z.mul_div_le n 10 ltac:(lia)).
      destruct Hmin as [->|Hmin]; [simpl; lia|lia].
Qed.

Lemma log2_fuel n : 0 ≤ n → n < 10 ^ Z.of_nat (S (Z.to_nat (Z.log2 n))).
Proof.
  intros Hn. rewrite Nat2Z.inj_succ, Z2Nat.id by apply Z.log2_nonneg.
  destruct (Z.eq_dec n 0) as [->|Hne]; [done|].
  pose proof (Z.log2_spec n ltac:(lia)) as [_ Hlt].
  eapply Z.lt_le_trans; [exact Hlt|].
  apply Z.pow_le_mono_l. pose proof (Z.log2_nonneg n). lia.
Qed.

Lemma zfill_str_of_Z k n :
  (1 ≤ k)%nat → 0 ≤ n < 10 ^ Z.of_nat k →
  zfill k (str_of_Z n) = fixed_digits k n.
Proof.
  intros Hk Hn. unfold str_of_Z, zfill.
  destruct (str_go_fixed (S (Z.to_nat (Z.log2 n))) n [])
    as (j & Hj & -> & Hlt & Hmin); [split; [lia|apply log2_fuel; lia]|lia|].
  rewrite app_nil_r, fixed_digits_length.
  assert (j ≤ k)%nat.
  { destruct Hmin as [->|Hmin]; [done|].
    destruct (le_lt_dec j k) as [|Hgt]; [done|].
    assert (10 ^ Z.of_nat k ≤ 10 ^ Z.of_nat (j - 1)) by (apply Z.pow_le_mono_r; lia).
    lia. }
  symmetry. apply fixed_digits_pad; [done|lia].
Qed.

Lemma round_half_even_nonneg n d : 0 ≤ n → 0 < d → 0 ≤ round_half_even n d.
Proof.
  intros Hn Hd. unfold round_half_even.
  assert (0 ≤ n / d) by (apply Z.div_pos; lia).
  destruct (2 * (n mod d) ?= d); [destruct (Z.even _)|..]; lia.
Qed.

Lemma scaled_nonneg p x n : scaled p x = Some n → 0 ≤ n.
Proof.
  destruct x as [s|s| |s m e]; simpl; try done; [by intros [= <-]|].
  intros [= <-]. destruct (0 <=? e) eqn:He.
  - apply Z.leb_le in He.
    assert (0 < 2 ^ e) by (apply Z.pow_pos_nonneg; lia).
    assert (0 < 10 ^ Z.of_nat p) by (apply Z.pow_pos_nonneg; lia). nia.
  - apply Z.leb_gt in He.
    assert (0 < 10 ^ Z.of_nat p) by (apply Z.pow_pos_nonneg; lia).
    apply round_half_even_nonneg; [nia|apply Z.pow_pos_nonneg; lia].
Qed.

(** A magnitude below [10^(ip+fp)] prints as [ip] integer digits, a point
    and [fp] decimals when the width is [ip + 1 + fp]. *)
Lemma format_f_fixed (ip fp : nat) (x : pynum) (n : Z) :
  (1 ≤ ip)%nat → (1 ≤ fp)%nat →
  scaled fp (to_float x) = Some n → n < 10 ^ Z.of_nat (ip + fp) →
  format_f (ip + 1 + fp) fp x = fixed_field ip fp n.
Proof.
  intros Hip Hfp Hsc Hn. pose proof (scaled_nonneg _ _ _ Hsc) as H0.
  unfold format_f, fixed_field. rewrite Hsc.
  destruct fp as [|fp']; [lia|]. cbn [Nat.eqb].
  remember (S fp') as fp eqn:Efp.
  assert (0 < 10 ^ Z.of_nat fp) as Hpos by (apply Z.pow_pos_nonneg; lia).
  rewrite (zfill_str_of_Z fp (n mod 10 ^ Z.of_nat fp));
    [|lia|apply Z.mod_pos_bound; lia].
  rewrite <- (zfill_str_of_Z ip (n / 10 ^ Z.of_nat fp)); [|lia|].
  - unfold zfill. rewrite !length_app. cbn [length].
    rewrite fixed_digits_length.
    replace (ip + 1 + fp - (length (str_of_Z (n / 10 ^ Z.of_nat fp)) + S fp))%nat
      with (ip - length (str_of_Z (n / 10 ^ Z.of_nat fp)))%nat by lia.
    by rewrite <- app_assoc.
  - split; [apply Z.div_pos; lia|].
    apply Z.div_lt_upper_bound; [lia|].
    rewrite Nat2Z.inj_add, Z.pow_add_r in Hn by lia. lia.
Qed.

(** The layout in general.  For latitude, longitude and altitude whose
    magnitudes round below 100, 1000 and 10000, [format_iso6709] gives: sign and
    latitude with 2 integer digits and 5 decimals, sign and longitude with 3
    integer digits and 5 decimals, sign and altitude with 4 integer digits
    and 3 decimals (width 8), then [/]; the sign is [+] exactly when the
    value is [>= 0]; the whole has 29 characters.  The two examples give
    [+35.68120+139.76710+0010.200/] and [-01.00000-002.00000+0000.000/]. *)
Lemma format_iso6709_fixed_width (lat lon alt : pynum) (a b c : Z) :
  magnitude 5 lat = Some a → a < 10 ^ 7 →
  magnitude 5 lon = Some b → b < 10 ^ 8 →
  magnitude 3 alt = Some c → c < 10 ^ 7 →
  format_iso6709 lat lon alt
    = (if ge0 lat then "+"%char else "-"%char) :: fixed_field 2 5 a
      ++ (if ge0 lon then "+"%char else "-"%char) :: fixed_field 3 5 b
      ++ (if ge0 alt then "+"%char else "-"%char) :: fixed_field 4 3 c
      ++ py "/"
  ∧ length (format_iso6709 lat lon alt) = 29%nat
  ∧ format_iso6709 (float_lit "35.6812") (float_lit "139.7671") (float_lit "10.2")
    = py "+35.68120+139.76710+0010.200/"
  ∧ format_iso6709 (float_lit "-1.0") (float_lit "-2.0") (PInt 0)
    = py "-01.00000-002.00000+0000.000/".
Proof.
  intros Ha Ha' Hb Hb' Hc Hc'. unfold magnitude in *.
  assert (format_iso6709 lat lon alt
    = (if ge0 lat then "+"%char else "-"%char) :: fixed_field 2 5 a
      ++ (if ge0 lon then "+"%char else "-"%char) :: fixed_field 3 5 b
      ++ (if ge0 alt then "+"%char else "-"%char) :: fixed_field 4 3 c
      ++ py "/") as Heq.
  { unfold format_iso6709.
    change (format_f 8 5) with (format_f (2 + 1 + 5) 5).
    change (format_f 9 5) with (format_f (3 + 1 + 5) 5).
    change (format_f 8 3) with (format_f (4 + 1 + 3) 3).
    rewrite (format_f_fixed 2 5 (pyabs lat) a), (format_f_fixed 3 5 (pyabs lon) b),
      (format_f_fixed 4 3 (pyabs alt) c); done || lia. }
  split; [exact Heq|]. split.
  - rewrite Heq. unfold fixed_field. cbn [length].
    rewrite !length_app. cbn [length]. rewrite !length_app. cbn [length].
    rewrite !length_app. cbn [length].
    rewrite !fixed_digits_length. reflexivity.
  - split; vm_compute; reflexivity.
Qed.

Lemma format_iso6709_fixed_width_witness :
  format_iso6709 (float_lit "35.6812") (float_lit "139.7671") (float_lit "10.2")
    = "+"%char :: fixed_field 2 5 3568120
      ++ "+"%char :: fixed_field 3 5 13976710
      ++ "+"%char :: fixed_field 4 3 10200
      ++ py "/"
  ∧ length (format_iso6709 (float_lit "35.6812") (float_lit "139.7671") (float_lit "10.2"))
    = 29%nat
  ∧ format_iso6709 (float_lit "35.6812") (float_lit "139.7671") (float_lit "10.2")
    = py "+35.68120+139.76710+0010.200/"
  ∧ format_iso6709 (float_lit "-1.0") (float_lit "-2.0") (PInt 0)
    = py "-01.00000-002.00000+0000.000/".
Proof.
  apply (format_iso6709_fixed_width
           (float_lit "35.6812") (float_lit "139.7671") (float_lit "10.2")
           3568120 13976710 10200);
    vm_compute; reflexivity.
Defined.

(** C5 (what the code does). The docstring of [format_iso6709] gives the
    layout [+DD.DDdd+DDD.DDdd+AAA.AAA/], three integer digits for the
    altitude, and so does the claim; the format [08.3f] of the code pads
    the altitude to width 8, which leaves four.  On both examples of the
    claim the result has one altitude digit more than stated. *)
Theorem format_iso6709_altitude_four_digits :
  format_iso6709 (float_lit "35.6812") (float_lit "139.7671") (float_lit "10.2")
    = py "+35.68120+139.76710+0010.200/"
  ∧ format_iso6709 (float_lit "35.6812") (float_lit "139.7671") (float_lit "10.2")
    ≠ py "+35.68120+139.76710+010.200/"
  ∧ format_iso6709 (float_lit "-1.0") (float_lit "-2.0") (PInt 0)
    = py "-01.00000-002.00000+0000.000/"
  ∧ format_iso6709 (float_lit "-1.0") (float_lit "-2.0") (PInt 0)
    ≠ py "-01.00000-002.00000+000.000/"
  ∧ format_f 8 3 (float_lit "10.2") = py "0010.200"
  ∧ format_f 8 3 (PInt 0) = py "0000.000".
Proof. vm_compute. repeat split; try reflexivity; discriminate. Qed.

(** ** FileMatcher *)

Lemma insert_by_len_nonempty x l : insert_by_len x l ≠ [].
Proof. destruct l as [|y l]; simpl; [done|]. by destruct (_ <=? _)%nat. Qed.

Lemma sorted_len_reverse_nil l : sorted_len_reverse l = [] → l = [].
Proof.
  destruct l as [|x l]; [done|]. simpl. intros H.
  by apply insert_by_len_nonempty in H.
Qed.

(** The head of the sorted list is the first of the longest elements. *)
Lemma sorted_len_reverse_head l : ∀ x,
  head (sorted_len_reverse l) = Some x →
  ∃ l1 l2, l = l1 ++ x :: l2
    ∧ (∀ y, y ∈ l1 → (length y < length x)%nat)
    ∧ (∀ y, y ∈ l2 → (length y ≤ length x)%nat).
Proof.
  induction l as [|a l IH]; intros x; [done|].
  cbn [sorted_len_reverse foldr].
  change (foldr insert_by_len [] l) with (sorted_len_reverse l) in *.
  destruct (sorted_len_reverse l) as [|y0 t] eqn:Hs.
  - apply sorted_len_reverse_nil in Hs as ->. intros [= <-].
    exists [], []. split; [done|]. split; intros y Hy; by apply elem_of_nil in Hy.
  - destruct (IH y0 eq_refl) as (l1 & l2 & -> & H1 & H2).
    simpl. destruct (length y0 <=? length a)%nat eqn:Hle; intros [= <-].
    + apply Nat.leb_le in Hle. exists [], (l1 ++ y0 :: l2).
      split; [done|]. split; [intros y Hy; by apply elem_of_nil in Hy|].
      intros y [Hy|[->|Hy]%elem_of_cons]%elem_of_app.
      * apply H1 in Hy. lia.
      * done.
      * apply H2 in Hy. lia.
    + apply Nat.leb_gt in Hle. exists (a :: l1), l2.
      split; [done|]. split; [|done].
      intros y [->|Hy]%elem_of_cons; [done|by apply H1].
Qed.

Lemma filter_split (P : pystr → bool) keys : ∀ l1 x l2,
  List.filter P keys = l1 ++ x :: l2 →
  ∃ k1 k2, keys = k1 ++ x :: k2 ∧ P x = true
    ∧ List.filter P k1 = l1 ∧ List.filter P k2 = l2.
Proof.
  induction keys as [|k keys IH]; intros l1 x l2; simpl.
  - by destruct l1.
  - destruct (P k) eqn:Hk.
    + destruct l1 as [|y l1]; simpl.
      * intros [= -> <-]. exists [], keys. done.
      * intros [= -> Heq]. destruct (IH _ _ _ Heq) as (k1 & k2 & -> & Hx & <- & <-).
        exists (y :: k1), k2. simpl. by rewrite Hk.
    + intros Heq. destruct (IH _ _ _ Heq) as (k1 & k2 & -> & Hx & <- & <-).
      exists (k :: k1), k2. simpl. by rewrite Hk.
Qed.

Lemma elem_of_filter_bool (P : pystr → bool) l y :
  y ∈ l → P y = true → y ∈ List.filter P l.
Proof.
  intros Hy HP. apply list_elem_of_In, filter_In. split; [|done].
  by apply list_elem_of_In.
Qed.

Lemma best_match_first_longest (source_map : odict) (base_name key : pystr) :
  best_match source_map base_name = Some key →
  ∃ k1 k2, dict_keys source_map = k1 ++ key :: k2
    ∧ contains base_name key = true
    ∧ (∀ key', key' ∈ k1 → contains base_name key' = true →
         (length key' < length key)%nat)
    ∧ (∀ key', key' ∈ k2 → contains base_name key' = true →
         (length key' ≤ length key)%nat).
Proof.
  unfold best_match, matches. intros Hbest.
  apply sorted_len_reverse_head in Hbest as (l1 & l2 & Hf & H1 & H2).
  apply filter_split in Hf as (k1 & k2 & -> & Hkey & <- & <-).
  exists k1, k2. repeat split; [done|..].
  - intros key' Hin Hc. apply H1. by apply elem_of_filter_bool.
  - intros key' Hin Hc. apply H2. by apply elem_of_filter_bool.
Qed.

Lemma best_match_exists (source_map : odict) (base_name key' : pystr) :
  key' ∈ dict_keys source_map → contains base_name key' = true →
  is_Some (best_match source_map base_name).
Proof.
  intros Hin Hc. unfold best_match.
  destruct (sorted_len_reverse (matches source_map base_name)) as [|x t] eqn:Hs;
    [|by eexists].
  apply sorted_len_reverse_nil in Hs.
  pose proof (elem_of_filter_bool (λ key, contains base_name key) _ _ Hin Hc) as Hm.
  unfold matches in Hs. rewrite Hs in Hm. by apply elem_of_nil in Hm.
Qed.

(** C6. For an export whose base name is not an index key: if some key is a
    substring of the base name then a key is selected, and the selected key
    is a substring of the base name, no matching key is longer, and every
    matching key before it in the index's order is strictly shorter.  With
    keys [dji_0001] and [dji_0001_edit], in either order, the base name
    [dji_0001_edit_final] selects [dji_0001_edit]. *)
Theorem fuzzy_match_longest_first (source_map : odict) (base_name : pystr) :
  base_name ∉ dict_keys source_map →
  ((∃ key', key' ∈ dict_keys source_map ∧ contains base_name key' = true) →
     is_Some (matched_key source_map base_name))
  ∧ (∀ key, matched_key source_map base_name = Some key →
       ∃ k1 k2, dict_keys source_map = k1 ++ key :: k2
         ∧ contains base_name key = true
         ∧ (∀ key', key' ∈ k1 → contains base_name key' = true →
              (length key' < length key)%nat)
         ∧ (∀ key', key' ∈ k2 → contains base_name key' = true →
              (length key' ≤ length key)%nat))
  ∧ matched_key [(py "dji_0001", py "/src/DJI_0001.SRT");
                 (py "dji_0001_edit", py "/src/DJI_0001_edit.SRT")]
                (py "dji_0001_edit_final") = Some (py "dji_0001_edit")
  ∧ matched_key [(py "dji_0001_edit", py "/src/DJI_0001_edit.SRT");
                 (py "dji_0001", py "/src/DJI_0001.SRT")]
                (py "dji_0001_edit_final") = Some (py "dji_0001_edit").
Proof.
  intros Hnot. unfold matched_key. rewrite bool_decide_eq_false_2 by done.
  split; [|split; [|split; vm_compute; reflexivity]].
  - intros (key' & Hin & Hc). by eapply best_match_exists.
  - intros key. apply best_match_first_longest.
Qed.

Lemma fuzzy_match_longest_first_witness :
  let source_map : odict :=
    [(py "dji_0001", py "/src/DJI_0001.SRT");
     (py "dji_0002", py "/src/DJI_0002.SRT");
     (py "dji_0001_edit", py "/src/DJI_0001_edit.SRT");
     (py "dji_0001_trim", py "/src/DJI_0001_trim.SRT")] in
  find_matched_srt source_map (py "dji_0001_edit_dji_0001_trim")
    = Some (py "/src/DJI_0001_edit.SRT")
  ∧ ((∃ key', key' ∈ dict_keys source_map
        ∧ contains (py "dji_0001_edit_dji_0001_trim") key' = true) →
     is_Some (matched_key source_map (py "dji_0001_edit_dji_0001_trim"))).
Proof.
  intros source_map. split; [vm_compute; reflexivity|].
  apply (fuzzy_match_longest_first source_map (py "dji_0001_edit_dji_0001_trim")).
  vm_compute. intros Hin.
  repeat (apply elem_of_cons in Hin as [Hin|Hin]; [discriminate Hin|]).
  by apply elem_of_nil in Hin.
Defined.

(** ** RunReport *)

Lemma tally_step_one c res :
  counted (tally_step c res) = counted c + 1
  ∧ processed_count c ≤ processed_count (tally_step c res)
  ∧ already_processed_count c ≤ already_processed_count (tally_step c res)
  ∧ skipped_count c ≤ skipped_count (tally_step c res).
Proof.
  unfold tally_step, counted.
  destruct (startswith res _); [|destruct (bool_decide _)]; simpl; lia.
Qed.

Lemma tally_from results : ∀ c,
  let r := fold_left tally_step results c in
  counted r = counted c + Z.of_nat (length results)
  ∧ processed_count c ≤ processed_count r
  ∧ already_processed_count c ≤ already_processed_count r
  ∧ skipped_count c ≤ skipped_count r.
Proof.
  induction results as [|res results IH]; intros c; simpl.
  - unfold counted. lia.
  - destruct (IH (tally_step c res)) as (H1 & H2 & H3 & H4).
    destruct (tally_step_one c res) as (S1 & S2 & S3 & S4).
    repeat split; lia.
Qed.

Lemma tally_step_comm c a b :
  tally_step (tally_step c a) b = tally_step (tally_step c b) a.
Proof.
  unfold tally_step.
  destruct (startswith a _), (startswith b _),
    (bool_decide (a = _)), (bool_decide (b = _)); simpl; f_equal; lia.
Qed.

Lemma tally_perm results results' :
  results ≡ₚ results' →
  ∀ c, fold_left tally_step results c = fold_left tally_step results' c.
Proof.
  induction 1 as [|x l l' _ IH|x y l|l l' l'' _ IH1 _ IH2]; intros c; simpl.
  - done.
  - apply IH.
  - by rewrite tally_step_comm.
  - by rewrite IH1, IH2.
Qed.

Section Run.
Context {H : Host}.

Lemma executor_map_length tasks : ∀ w rs w',
  executor_map tasks w = (Ret rs, w') → length rs = length tasks.
Proof.
  induction tasks as [|t tasks IH]; intros w rs w'; simpl.
  - unfold ret. by intros [= <- _].
  - unfold bind at 1.
    destruct (process_single_video t w) as [[r|e] w1]; [|done].
    unfold bind at 1.
    destruct (executor_map tasks w1) as [[rs'|e] w2] eqn:Hrs; [|done].
    unfold ret. intros [= <- _]. simpl. f_equal. by eapply IH.
Qed.

Lemma make_tasks_length ff fo ds tot videos : ∀ i,
  length (make_tasks ff fo ds tot i videos) = length videos.
Proof.
  induction videos as [|[e m] videos IH]; intros i; simpl; [done|].
  by rewrite IH.
Qed.

(** C9. The three counters of the tally add up to the number of results,
    each result adds one to exactly one of them, and the counters do not
    depend on the order of the results; the summary that [main] writes for
    a run of the matched work items therefore has
    total = success + alreadyProcessed + errorOrNoMatch, where the last is
    the (non-negative) count of the remaining results. *)
Theorem tally_counts_partition (results : list pystr) :
  counted (tally results) = Z.of_nat (length results)
  ∧ 0 ≤ processed_count (tally results)
  ∧ 0 ≤ already_processed_count (tally results)
  ∧ 0 ≤ skipped_count (tally results)
  ∧ (∀ res, tally [res] = Counts 1 0 0 ∨ tally [res] = Counts 0 1 0
            ∨ tally [res] = Counts 0 0 1)
  ∧ (∀ results', results ≡ₚ results' → tally results' = tally results)
  ∧ errors_no_match (write_summary (Z.of_nat (length results)) (tally results))
    = skipped_count (tally results)
  ∧ (∀ ff fo ds videos w s w',
       main_process ff fo ds videos w = (Ret s, w') →
       total_matched s = Z.of_nat (length videos)
       ∧ total_matched s
         = successfully_processed s + skipped_already_processed s + errors_no_match s
       ∧ 0 ≤ successfully_processed s
       ∧ 0 ≤ skipped_already_processed s
       ∧ 0 ≤ errors_no_match s).
Proof.
  destruct (tally_from results (Counts 0 0 0)) as (H1 & H2 & H3 & H4).
  fold (tally results) in H1, H2, H3, H4.
  change (counted (Counts 0 0 0)) with 0 in H1. cbn [processed_count
    already_processed_count skipped_count] in H2, H3, H4.
  split; [lia|]. split; [done|]. split; [done|]. split; [done|].
  split.
  { intros res. unfold tally, tally_step. cbn [fold_left].
    destruct (startswith res _); [by left|].
    destruct (bool_decide _); [right; by left|right; by right]. }
  split.
  { intros results' Hp. symmetry. by apply tally_perm. }
  split.
  { unfold counted in H1. unfold write_summary. cbn [errors_no_match]. lia. }
  intros ff fo ds videos w s w' Hmain.
  unfold main_process, bind, ret in Hmain.
  destruct (executor_map _ w) as [[rs|e] w1] eqn:Hrs; [|done].
  injection Hmain as <- _.
  apply executor_map_length in Hrs. rewrite make_tasks_length in Hrs.
  destruct (tally_from rs (Counts 0 0 0)) as (Hc & ? & ? & ?).
  fold (tally rs) in *. unfold counted in Hc.
  unfold write_summary.
  cbn [total_matched successfully_processed skipped_already_processed
       errors_no_match processed_count already_processed_count skipped_count] in *.
  repeat split; lia.
Qed.

End Run.

(** ** SourceRecycler and SubtitleEmbedder *)

Section Pipeline.
Context {H : Host}.

Lemma recycle_loop_same_file candidates : ∀ export_path src_vid w,
  first_existing (files w) candidates = Some src_vid →
  normpath src_vid = normpath export_path →
  recycle_loop candidates export_path w = (Ret (), w).
Proof.
  induction candidates as [|c candidates IH]; intros export_path src_vid w; [done|].
  unfold first_existing. cbn [List.find recycle_loop].
  unfold bind at 1, path_exists.
  destruct (bool_decide (is_Some (files w !! c))).
  - intros [= ->] Hnorm. by rewrite bool_decide_eq_true_2.
  - intros Hfind Hnorm. by eapply IH.
Qed.

(** C1. If the first candidate recording that exists has the same
    normalized path as the export file, [recycle_source] returns normally
    and leaves the world as it was: no process is started, no file is
    touched. *)
Theorem recycle_source_never_deletes_export
    (matched_srt export_path src_vid : pystr) (w : world) :
  first_existing (files w) (potential_srcs matched_srt) = Some src_vid →
  normpath src_vid = normpath export_path →
  recycle_source matched_srt export_path w = (Ret (), w).
Proof. apply recycle_loop_same_file. Qed.

End Pipeline.

Lemma recycle_source_never_deletes_export_witness :
  recycle_source (H := host_ok) (py "/src/DJI_0001.SRT") (py "/src/./DJI_0001.MP4")
    (World sample_fs [])
  = (Ret (), World sample_fs []).
Proof.
  apply (recycle_source_never_deletes_export (H := host_ok)
           (py "/src/DJI_0001.SRT") (py "/src/./DJI_0001.MP4")
           (py "/src/DJI_0001.MP4") (World sample_fs []));
    vm_compute; reflexivity.
Defined.

(** C7 (what the code does). When ffmpeg exits with an error and what it
    wrote to [stderr] is not UTF-8, the [except] branch fails at
    [e.stderr.decode()], before its clean-up: [UnicodeDecodeError] leaves
    [embed_subtitle], and the temporary file that ffmpeg wrote stays next
    to the export file.  With the same failure and a message that decodes,
    the temporary file is removed and the result is [False]. *)
Theorem embed_subtitle_decode_error_skips_cleanup :
  let video := py "/export/DJI_0001_edit.mp4" in
  let srt := py "/src/DJI_0001.SRT" in
  let temp := py "/export/temp_DJI_0001_edit.mp4" in
  let run := embed_subtitle (H := host_ffmpeg_garbled) video srt (World sample_fs []) in
  let run' := embed_subtitle (H := host_ffmpeg_fails) video srt (World sample_fs []) in
  temp_output_of (H := host_ffmpeg_garbled) video = temp
  ∧ (∃ c fs',
       run_process (Host := host_ffmpeg_garbled) (ffmpeg_cmd video srt temp) sample_fs
         = Launched c fs'
       ∧ returncode c = 1 ∧ utf8_valid (stderr c) = false)
  ∧ fst run = Raise UnicodeDecodeError
  ∧ files (snd run) !! temp = Some (py "remuxed")
  ∧ files (snd run) !! video = Some (py "export")
  ∧ fst run' = Ret false
  ∧ files (snd run') !! temp = None.
Proof.
  cbv zeta. split; [vm_compute; reflexivity|].
  split; [eexists _, _; split; [vm_compute; reflexivity|split; reflexivity]|].
  repeat split; vm_compute; reflexivity.
Qed.

(** ** The worker at two inputs *)

(** C2 (what the code does). With cleanup enabled, a valid telemetry log and
    an exiftool run that exits with code 1, the worker still reports success
    and goes on to start the recycle-bin call for the source recording. *)
Theorem failed_exiftool_still_recycles :
  let vi := VideoInfo (py "/export/DJI_0001_edit.mp4") (py "/src/DJI_0001.SRT")
                      false true true 1 1 in
  let run := process_single_video (H := host_exiftool_fails) vi (World sample_fs []) in
  let exiftool_cmd := default [] (head (trace (snd run))) in
  fst run = Ret (py "success|DJI_0001_edit.mp4|2025-08-09 18:53:47|35.6812,139.7671")
  ∧ trace (snd run) = [exiftool_cmd; cmd_recycle (py "/src/DJI_0001.MP4")]
  ∧ head exiftool_cmd = Some (py "exiftool")
  ∧ last exiftool_cmd = Some (py "/export/DJI_0001_edit.mp4")
  ∧ fst (subprocess_run (H := host_exiftool_fails) exiftool_cmd true (World sample_fs []))
    = Raise (CalledProcessError (py "exiftool failed")).
Proof. vm_compute. repeat split; reflexivity. Qed.

(** C3 (what the code does). A telemetry log with coordinates and no
    timestamp parses to a record, and [inject_metadata] then raises
    [KeyError('datetime')]; nothing catches it in the worker, so it leaves
    [process_single_video], and collecting the results in [main] raises it
    again: no summary is produced, although the second item is fine. *)
Theorem missing_timestamp_escapes_worker :
  let vi := VideoInfo (py "/export/DJI_0001.mp4") (py "/src/DJI_0001.SRT")
                      true false false 2 1 in
  is_Some (parse_srt_data untimed_fs (py "/src/DJI_0001.SRT"))
  ∧ fst (process_single_video (H := host_ok) vi (World untimed_fs []))
    = Raise (KeyError "datetime")
  ∧ fst (main_process (H := host_ok) true false false
           [(py "/export/DJI_0001.mp4", py "/src/DJI_0001.SRT");
            (py "/export/DJI_0002.mp4", py "/src/DJI_0002.SRT")]
           (World untimed_fs []))
    = Raise (KeyError "datetime")
  ∧ (∃ s, fst (main_process (H := host_ok) true false false
                 [(py "/export/DJI_0002.mp4", py "/src/DJI_0002.SRT")]
                 (World untimed_fs []))
          = Ret s ∧ successfully_processed s = 1).
Proof.
  intros vi. split; [apply (bool_decide_unpack _); vm_compute; exact I|].
  split; [vm_compute; reflexivity|].
  split; [vm_compute; reflexivity|].
  eexists. split; vm_compute; reflexivity.
Qed.

(** * Further properties *)

(** ** Sequencing *)

Lemma bind_inv {A B} (m : M A) (k : A → M B) w r w' :
  bind m k w = (r, w') →
  (∃ e, m w = (Raise e, w') ∧ r = Raise e)
  ∨ (∃ a w1, m w = (Ret a, w1) ∧ k a w1 = (r, w')).
Proof.
  unfold bind. destruct (m w) as [[a|e] w1]; [eauto|].
  intros [= <- <-]. eauto.
Qed.

Lemma bind_Ret_inv {A B} (m : M A) (k : A → M B) w b w' :
  bind m k w = (Ret b, w') →
  ∃ a w1, m w = (Ret a, w1) ∧ k a w1 = (Ret b, w').
Proof.
  intros Hb. apply bind_inv in Hb as [(e & _ & [=])|Hb]. done.
Qed.

Lemma bind_ret {A B} (a : A) (k : A → M B) : bind (ret a) k = k a.
Proof. reflexivity. Qed.

(** ** Which commands a computation starts *)

Section Traces.
Context {H : Host}.















(** A computation that starts nothing leaves the trace as it was. *)
Lemma starts_nothing {A} (m : M A) w r w' :
  starts_only (λ _, False) m → m w = (r, w') → trace w' = trace w.
Proof.
  intros Hm Hrun. destruct (Hm _ _ _ Hrun) as (cmds & Hs & HF).
  destruct HF as [|c cmds []]. unfold started in Hs. by rewrite app_nil_r in Hs.
Qed.

(** ** The console *)

Lemma safe_print_accepts template fields :
  console_accepts → safe_print template fields = ret ().
Proof. intros Hc. unfold safe_print. by rewrite Hc. Qed.

Lemma safe_print_outcome template fields w r w' :
  safe_print template fields w = (r, w') →
  w' = w ∧ (r = Ret () ∨ console_failure r).
Proof.
  unfold safe_print. destruct (print_error template fields) as [ce|] eqn:Hp;
    intros [= <- <-]; split; try done; [right|by left].
  by exists template, fields, ce.
Qed.

Lemma console_failure_raise {A B} e :
  console_failure (Raise (A:=A) e) → console_failure (Raise (A:=B) e).
Proof.
  intros (t & f & ce & Hp & [= ->]). by exists t, f, ce.
Qed.

Lemma console_accepts_no_failure {A} (r : result A) :
  console_accepts → ¬ console_failure r.
Proof. intros Hc (t & f & ce & Hp & _). by rewrite Hc in Hp. Qed.

End Traces.

(** ** The probes: [check_ffmpeg] and [check_if_processed] *)

Section Probes.
Context {H : Host}.

Lemma check_ffmpeg_run (w : world) :
  let cmd := [py "ffmpeg"; py "-version"] in
  ∃ r w', check_ffmpeg w = (r, w')
    ∧ trace w' = trace w ++ [cmd]
    ∧ (r = Ret true ↔
         ∃ c fs', run_process cmd (files w) = Launched c fs' ∧ returncode c = 0)
    ∧ (r = Ret false ↔
         run_process cmd (files w) = NotFound
         ∨ ∃ c fs', run_process cmd (files w) = Launched c fs' ∧ returncode c ≠ 0)
    ∧ (r = Raise OSError ↔ run_process cmd (files w) = Refused)
    ∧ (∀ e, r = Raise e → e = OSError).
Proof.
  intros cmd.
  unfold check_ffmpeg, try_except, bind, subprocess_run, called_or_not_found, ret.
  fold cmd.
  destruct (run_process cmd (files w)) as [c fs'| |] eqn:Hrun.
  - destruct (returncode c =? 0) eqn:Hrc; cbn [andb negb];
      [apply Z.eqb_eq in Hrc|apply Z.eqb_neq in Hrc];
      eexists _, _; (split; [reflexivity|]); (split; [done|]).
    + split; [split; [eauto|done]|]. split.
      { split; [done|]. by intros [[=]|(c' & fs'' & [= <- <-] & Hc)]. }
      split; [split; intros [=]|]. by intros e [=].
    + split; [split; [done|by intros (c' & fs'' & [= <- <-] & Hc)]|].
      split; [split; [right; eauto|done]|].
      split; [split; intros [=]|]. by intros e [=].
  - eexists _, _. split; [reflexivity|]. split; [done|].
    split; [split; [done|by intros (c' & fs'' & [=] & _)]|].
    split; [split; [by left|done]|].
    split; [split; intros [=]|]. by intros e [=].
  - eexists _, _. split; [reflexivity|]. split; [done|].
    split; [split; [done|by intros (c' & fs'' & [=] & _)]|].
    split; [split; [done|by intros [[=]|(c' & fs'' & [=] & _)]]|].
    split; [done|]. by intros e [= <-].
Qed.

(** X1. [check_ffmpeg] starts [ffmpeg -version] once.  It answers [True]
    exactly when the process could be started and exited with code 0, and
    [False] exactly when it exited with another code or the executable was
    not found.  When the launch fails with another [OSError], that error
    leaves the function (its [except] names only [CalledProcessError] and
    [FileNotFoundError]); nothing else is ever raised. *)
Theorem check_ffmpeg_answers (w : world) :
  let cmd := [py "ffmpeg"; py "-version"] in
  ∃ r w', check_ffmpeg w = (r, w')
    ∧ trace w' = trace w ++ [cmd]
    ∧ (r = Ret true ↔
         ∃ c fs', run_process cmd (files w) = Launched c fs' ∧ returncode c = 0)
    ∧ (r = Ret false ↔
         run_process cmd (files w) = NotFound
         ∨ ∃ c fs', run_process cmd (files w) = Launched c fs' ∧ returncode c ≠ 0)
    ∧ (r = Raise OSError ↔ run_process cmd (files w) = Refused)
    ∧ (∀ e, r = Raise e → e = OSError).
Proof. exact (check_ffmpeg_run w). Qed.


Lemma check_if_processed_run (video_path : pystr) (w : world) :
  ∃ b w', check_if_processed video_path w = (Ret b, w')
    ∧ (run_process (model_query video_path) (files w) = NotFound →
       b = false ∧ trace w' = trace w ++ [model_query video_path])
    ∧ (∀ c fs', run_process (model_query video_path) (files w) = Launched c fs' →
         contains (strip (stdout c)) (py "DJI Mini 3 Pro") = true →
         b = true ∧ trace w' = trace w ++ [model_query video_path] ∧ files w' = fs').
Proof.
  unfold check_if_processed, model_query.
  unfold try_except at 1. unfold bind at 1. unfold subprocess_run at 1.
  destruct (run_process _ (files w)) as [c fs'| |] eqn:Hrun; cbn [andb].
  - destruct (contains (strip (stdout c)) _) eqn:Hc.
    + eexists true, _. split; [done|]. split; [done|].
      intros c' fs'' [= <- <-] _. done.
    + set (w1 := World fs' _).
      unfold bind at 1.
      destruct (check_ffmpeg w1) as [[has|e] w2].
      * destruct has.
        -- unfold bind, subprocess_run, any_exception, ret.
           destruct (run_process _ (files w2)) as [c2 fs2| |]; cbn [andb].
           ++ destruct (contains (stdout c2) _); eexists _, _;
                (split; [done|]); (split; [done|]);
                intros c' fs'' [= <- <-] Hc'; congruence.
           ++ eexists _, _. split; [done|]. split; [done|].
              intros c' fs'' [= <- <-] Hc'; congruence.
           ++ eexists _, _. split; [done|]. split; [done|].
              intros c' fs'' [= <- <-] Hc'; congruence.
        -- eexists _, _. split; [done|]. split; [done|].
           intros c' fs'' [= <- <-] Hc'; congruence.
      * eexists _, _. split; [done|]. split; [done|].
        intros c' fs'' [= <- <-] Hc'; congruence.
  - eexists false, _. split; [done|]. split; [done|]. done.
  - eexists false, _. split; [done|]. split; [done|]. done.
Qed.


Lemma check_if_processed_never_raises p : never_raises (check_if_processed p).
Proof. intros w. destruct (check_if_processed_run p w) as (b & w' & Hr & _). eauto. Qed.

End Probes.

(** ** SourceRecycler, in full *)

Section Recycler.
Context {H : Host}.

Lemma recycle_call_outcome (src_vid : pystr) (w : world) :
  ∃ r w',
    try_except
      (subprocess_run (cmd_recycle src_vid) true ;;
       safe_print "  [SPACE SAVER] Moved original source to Recycle Bin: {}"
         [FStr (basename src_vid)])
      (any_exception (λ e,
         safe_print "  Error moving source to Recycle Bin {}: {}"
           [FStr src_vid; FExn e])) w = (r, w')
    ∧ trace w' = trace w ++ [cmd_recycle src_vid]
    ∧ (r = Ret ()
       ∨ ∃ e ce,
           print_error "  Error moving source to Recycle Bin {}: {}"
             [FStr src_vid; FExn e] = Some ce
           ∧ r = Raise (console_exn ce)).
Proof.
  assert (∀ e w1, trace w1 = trace w ++ [cmd_recycle src_vid] →
    ∃ r w',
      safe_print "  Error moving source to Recycle Bin {}: {}"
        [FStr src_vid; FExn e] w1 = (r, w')
      ∧ trace w' = trace w ++ [cmd_recycle src_vid]
      ∧ (r = Ret ()
         ∨ ∃ e ce,
             print_error "  Error moving source to Recycle Bin {}: {}"
               [FStr src_vid; FExn e] = Some ce
             ∧ r = Raise (console_exn ce))) as Hhandler.
  { intros e w1 Hw1. unfold safe_print.
    destruct (print_error _ [FStr src_vid; FExn e]) as [ce|] eqn:Hp;
      eexists _, _; (split; [reflexivity|]); (split; [done|]); [right|left]; eauto. }
  unfold try_except, bind, subprocess_run, any_exception.
  destruct (run_process _ (files w)) as [c fs'| |]; cbn [andb].
  - destruct (negb _).
    + by apply Hhandler.
    + unfold safe_print at 1.
      destruct (print_error _ [FStr (basename src_vid)]) as [ce|].
      * by apply Hhandler.
      * eexists _, _. split; [reflexivity|]. split; [done|]. by left.
  - by apply Hhandler.
  - by apply Hhandler.
Qed.

Lemma recycle_loop_outcome candidates : ∀ export_path w,
  ∃ r w', recycle_loop candidates export_path w = (r, w')
    ∧ match first_existing (files w) candidates with
      | None => r = Ret () ∧ w' = w
      | Some src_vid =>
          if bool_decide (normpath src_vid = normpath export_path)
          then r = Ret () ∧ w' = w
          else trace w' = trace w ++ [cmd_recycle src_vid]
               ∧ (r = Ret ()
                  ∨ ∃ e ce,
                      print_error "  Error moving source to Recycle Bin {}: {}"
                        [FStr src_vid; FExn e] = Some ce
                      ∧ r = Raise (console_exn ce))
      end.
Proof.
  induction candidates as [|c candidates IH]; intros export_path w.
  - by exists (Ret ()), w.
  - unfold first_existing. cbn [List.find recycle_loop].
    unfold bind at 1, path_exists.
    destruct (bool_decide (is_Some (files w !! c))).
    + destruct (bool_decide (normpath c = normpath export_path));
        [by exists (Ret ()), w|].
      destruct (recycle_call_outcome c w) as (r & w' & Hrun & Htr & Hr).
      exists r, w'. by rewrite Hrun.
    + apply IH.
Qed.

(** X3. [recycle_source] starts at most one process.  With no candidate
    recording on disk it does nothing and returns; otherwise it looks at
    the first existing candidate only and, unless that is the export file,
    starts the recycle-bin call for exactly that path, whether or not the
    call succeeds.  It then returns, unless printing the error message
    fails: that console error is the only exception that can leave the
    function, and on a console that prints everything none does. *)
Theorem recycle_source_first_candidate_only (matched_srt export_path : pystr) (w : world) :
  ∃ r w', recycle_source matched_srt export_path w = (r, w')
    ∧ (first_existing (files w) (potential_srcs matched_srt) = None →
       r = Ret () ∧ w' = w)
    ∧ (∀ src_vid,
         first_existing (files w) (potential_srcs matched_srt) = Some src_vid →
         normpath src_vid ≠ normpath export_path →
         trace w' = trace w ++ [cmd_recycle src_vid]
         ∧ head (cmd_recycle src_vid) = Some (py "powershell")
         ∧ (r = Ret ()
            ∨ ∃ e ce,
                print_error "  Error moving source to Recycle Bin {}: {}"
                  [FStr src_vid; FExn e] = Some ce
                ∧ r = Raise (console_exn ce)))
    ∧ (console_accepts → r = Ret ()).
Proof.
  destruct (recycle_loop_outcome (potential_srcs matched_srt) export_path w)
    as (r & w' & Hrun & Hcase).
  exists r, w'. split; [exact Hrun|]. split; [|split].
  - intros Hnone. by rewrite Hnone in Hcase.
  - intros src_vid Hsome Hne. rewrite Hsome in Hcase.
    rewrite bool_decide_eq_false_2 in Hcase by done.
    destruct Hcase as [Htr Hr]. done.
  - intros Hc. destruct (first_existing _ _) as [src|]; [|by destruct Hcase].
    destruct (bool_decide _); [by destruct Hcase|].
    destruct Hcase as [_ [Hr|(e & ce & Hp & _)]]; [done|].
    by rewrite Hc in Hp.
Qed.


Lemma recycle_source_accepts s e :
  console_accepts → never_raises (recycle_source s e).
Proof.
  intros Hc w.
  destruct (recycle_loop_outcome (potential_srcs s) e w) as (r & w' & Hr & Hcase).
  assert (r = Ret ()) as ->; [|by exists (), w'].
  destruct (first_existing _ _) as [src|]; [|by destruct Hcase].
  destruct (bool_decide _); [by destruct Hcase|].
  destruct Hcase as [_ [Hr1|(e0 & ce & Hp & _)]]; [done|].
  by rewrite Hc in Hp.
Qed.


End Recycler.

(** ** MetadataWriter *)

Section Writer.
Context {H : Host}.

Lemma insert2_mem (x arg : pystr) (cmd : list pystr) : x ∈ cmd → x ∈ insert2 arg cmd.
Proof.
  intros Hx. rewrite <- (take_drop 2 cmd) in Hx. unfold insert2.
  apply elem_of_app in Hx as [?|?]; apply elem_of_app; [by left|right; by right].
Qed.

(** For a record with a timestamp and coordinates, [inject_metadata] is its
    three last steps, run on the command it has built. *)
Lemma inject_metadata_command (video_path : pystr) (metadata : dict) :
  well_typed metadata →
  ∃ dt lat lon cmd,
    (metadata !! "datetime" = Some (VStr dt)
     ∧ metadata !! "latitude" = Some (VNum lat)
     ∧ metadata !! "longitude" = Some (VNum lon))
    ∧ (head cmd = Some (py "exiftool")
       ∧ cmd !! 1%nat = Some (py "-overwrite_original")
       ∧ last cmd = Some video_path)
    ∧ Forall (λ tag, tag ++ replace dt (py "-") (py ":") ∈ cmd) date_tags
    ∧ Forall (λ tag, tag ++ format_iso6709 lat lon (altitude_of metadata) ∈ cmd)
             gps_tags
    ∧ ∀ w, inject_metadata video_path metadata w =
           (announce_injection video_path metadata (replace dt (py "-") (py ":"))
              (VNum lat) (VNum lon) ;;
            remove_leftover (video_path ++ py "_exiftool_tmp") ;;
            run_exiftool cmd) w.
Proof.
  intros ((dt & Hdt) & (lat & Hlat) & (lon & Hlon) & Halt).
  exists dt, lat, lon.
  assert (default (VNum (PInt 0)) (metadata !! "altitude")
          = VNum (altitude_of metadata)) as Halt'.
  { unfold altitude_of. by destruct Halt as [->|[x ->]]. }
  unfold inject_metadata.
  rewrite bool_decide_eq_false_2 by (intros ->; by rewrite lookup_empty in Hdt).
  unfold getitem. rewrite Hdt, Hlat, Hlon, Halt'.
  cbv zeta.
  repeat (rewrite bind_ret; cbv beta; cbn [as_str as_num]).
  match goal with
  | |- context [insert2 _ (?h :: ?t)] => set (base := h :: t)
  end.
  match goal with
  | |- context [run_exiftool ?c] => set (cmd := c)
  end.
  exists cmd. split; [done|].
  split.
  { subst cmd. destruct (metadata !! "iso"), (metadata !! "shutter"),
      (metadata !! "fnum"); repeat split; reflexivity. }
  assert (∀ x, x ∈ base → x ∈ cmd) as Hin.
  { intros x Hx. subst cmd.
    destruct (metadata !! "iso"), (metadata !! "shutter"), (metadata !! "fnum");
      repeat apply insert2_mem; exact Hx. }
  split.
  { apply Forall_forall. intros tag Htag. apply Hin. unfold date_tags in Htag.
    repeat (apply elem_of_cons in Htag as [->|Htag]);
      [..|by apply elem_of_nil in Htag].
    - apply (list_elem_of_lookup_2 _ 12%nat). reflexivity.
    - apply (list_elem_of_lookup_2 _ 13%nat). reflexivity.
    - apply (list_elem_of_lookup_2 _ 14%nat). reflexivity.
    - apply (list_elem_of_lookup_2 _ 15%nat). reflexivity.
    - apply (list_elem_of_lookup_2 _ 16%nat). reflexivity.
    - apply (list_elem_of_lookup_2 _ 17%nat). reflexivity.
    - apply (list_elem_of_lookup_2 _ 18%nat). reflexivity. }
  split.
  { apply Forall_forall. intros tag Htag. apply Hin. unfold gps_tags in Htag.
    repeat (apply elem_of_cons in Htag as [->|Htag]);
      [..|by apply elem_of_nil in Htag].
    - apply (list_elem_of_lookup_2 _ 19%nat). reflexivity.
    - apply (list_elem_of_lookup_2 _ 20%nat). reflexivity.
    - apply (list_elem_of_lookup_2 _ 21%nat). reflexivity. }
  clearbody cmd. intros w. reflexivity.
Qed.

Lemma announce_injection_outcome video_path metadata dt_str lat_v lon_v w r w' :
  announce_injection video_path metadata dt_str lat_v lon_v w = (r, w') →
  w' = w ∧ (r = Ret () ∨ console_failure r).
Proof.
  unfold announce_injection. intros Hrun.
  apply bind_inv in Hrun as [(e & Hp & ->)|([] & w1 & Hp & Hrun)];
    apply safe_print_outcome in Hp as [-> Hp]; [by destruct Hp as [[=]|?]; eauto|].
  apply bind_inv in Hrun as [(e & Hp' & ->)|([] & w1 & Hp' & Hrun)];
    apply safe_print_outcome in Hp' as [-> Hp']; [by destruct Hp' as [[=]|?]; eauto|].
  apply bind_inv in Hrun as [(e & Hp'' & ->)|([] & w1 & Hp'' & Hrun)];
    apply safe_print_outcome in Hp'' as [-> Hp''];
    [by destruct Hp'' as [[=]|?]; eauto|].
  destruct (metadata !! "iso") as [iso|].
  - by apply safe_print_outcome in Hrun.
  - injection Hrun as <- <-. eauto.
Qed.

(** The files that exiftool finds: the leftover temp file is gone, unless
    it could not be removed. *)
Lemma remove_leftover_outcome tmp_path w r w' :
  remove_leftover tmp_path w = (r, w') →
  trace w' = trace w
  ∧ ((r = Ret ()
      ∧ (files w' = delete tmp_path (files w)
         ∨ (files w' = files w ∧ remove_ok tmp_path (files w) = false)))
     ∨ console_failure r).
Proof.
  unfold remove_leftover, bind at 1, path_exists.
  destruct (files w !! tmp_path) as [old|] eqn:Htmp.
  - rewrite bool_decide_eq_true_2 by eauto.
    unfold try_except, bind, os_remove, any_exception. rewrite Htmp.
    destruct (remove_ok tmp_path (files w)) eqn:Hrm.
    + destruct (safe_print _ [FStr (basename tmp_path)] _) as [[[]|e] w1] eqn:Hp;
        apply safe_print_outcome in Hp as [-> Hp].
      * intros [= <- <-]. eauto.
      * intros Hp'. apply safe_print_outcome in Hp' as [-> Hp'].
        split; [done|]. destruct Hp' as [->|?]; eauto.
    + intros Hp'. apply safe_print_outcome in Hp' as [-> Hp'].
      split; [done|]. destruct Hp' as [->|?]; eauto.
  - rewrite bool_decide_eq_false_2 by (by intros [? ?]).
    intros [= <- <-]. split; [done|]. left. split; [done|]. left.
    symmetry. by apply delete_id.
Qed.

Lemma run_exiftool_outcome cmd w :
  ∃ r w', run_exiftool cmd w = (r, w')
    ∧ trace w' = trace w ++ [cmd]
    ∧ match run_process cmd (files w) with
      | Launched c fs' =>
          files w' = fs'
          ∧ (if (returncode c =? 0) || utf8_valid (stderr c)
             then r = Ret () ∨ console_failure r
             else r = Raise UnicodeDecodeError)
      | NotFound => files w' = files w ∧ r = Raise FileNotFoundError
      | Refused => files w' = files w ∧ r = Raise OSError
      end.
Proof.
  unfold run_exiftool, try_except, bind, subprocess_run, called_process_error.
  destruct (run_process cmd (files w)) as [c fs'| |]; cbn [andb].
  - destruct (returncode c =? 0); cbn [negb orb].
    + unfold safe_print. destruct (print_error _ []) as [ce|] eqn:Hp.
      * destruct ce; eexists _, _; (split; [reflexivity|]); (split; [done|]);
          (split; [done|]); right; by eexists _, _, _.
      * eexists _, _. split; [reflexivity|]. split; [done|]. split; [done|].
        by left.
    + unfold decode. destruct (utf8_valid (stderr c)).
      * unfold ret.
        destruct (safe_print _ [FDecoded (stderr c)] _) as [r1 w1] eqn:Hp.
        apply safe_print_outcome in Hp as [-> Hp].
        eexists _, _. split; [reflexivity|]. done.
      * eexists _, _. split; [reflexivity|]. done.
  - eexists _, _. split; [reflexivity|]. done.
  - eexists _, _. split; [reflexivity|]. done.
Qed.

Lemma inject_metadata_run (video_path : pystr) (metadata : dict) (w : world) :
  well_typed metadata →
  let tmp_path := video_path ++ py "_exiftool_tmp" in
  ∃ dt lat lon cmd fs r w',
    (fs = delete tmp_path (files w)
     ∨ (fs = files w ∧ remove_ok tmp_path (files w) = false))
    ∧ (metadata !! "datetime" = Some (VStr dt)
     ∧ metadata !! "latitude" = Some (VNum lat)
     ∧ metadata !! "longitude" = Some (VNum lon))
    ∧ (head cmd = Some (py "exiftool")
       ∧ cmd !! 1%nat = Some (py "-overwrite_original")
       ∧ last cmd = Some video_path)
    ∧ Forall (λ tag, tag ++ replace dt (py "-") (py ":") ∈ cmd) date_tags
    ∧ Forall (λ tag, tag ++ format_iso6709 lat lon (altitude_of metadata) ∈ cmd)
             gps_tags
    ∧ inject_metadata video_path metadata w = (r, w')
    ∧ ((trace w' = trace w ∧ console_failure r)
       ∨ (trace w' = trace w ++ [cmd]
          ∧ match run_process cmd fs with
            | Launched c fs' =>
                files w' = fs'
                ∧ (if (returncode c =? 0) || utf8_valid (stderr c)
                   then r = Ret () ∨ console_failure r
                   else r = Raise UnicodeDecodeError)
            | NotFound => r = Raise FileNotFoundError
            | Refused => r = Raise OSError
            end)).
Proof.
  intros Hty tmp_path.
  destruct (inject_metadata_command video_path metadata Hty)
    as (dt & lat & lon & cmd & Hmd & Hcmd & Hdates & Hgps & Heq).
  exists dt, lat, lon, cmd.
  destruct (inject_metadata video_path metadata w) as [r w'] eqn:Hrun.
  rewrite Heq in Hrun.
  apply bind_inv in Hrun as [(e & Ha & ->)|([] & w1 & Ha & Hrun)];
    apply announce_injection_outcome in Ha as [-> Ha].
  { eexists (delete tmp_path (files _)), _, _.
    split; [by left|]. split; [done|]. split; [done|]. split; [done|].
    split; [done|]. split; [reflexivity|]. left. by destruct Ha as [[=]|?]. }
  apply bind_inv in Hrun as [(e & Hl & ->)|([] & w2 & Hl & Hrun)];
    apply remove_leftover_outcome in Hl as [Htr Hl].
  { eexists (delete tmp_path (files _)), _, _.
    split; [by left|]. split; [done|]. split; [done|]. split; [done|].
    split; [done|]. split; [reflexivity|].
    left. split; [done|]. by destruct Hl as [[[=] _]|?]. }
  destruct Hl as [[_ Hfs]|(? & ? & ? & _ & [=])].
  destruct (run_exiftool_outcome cmd w2) as (r2 & w3 & Hr & Htr3 & Hout).
  rewrite Hr in Hrun. injection Hrun as <- <-.
  exists (files w2), r2, w3. fold tmp_path in Hfs.
  split; [destruct Hfs as [?|[? ?]]; eauto|].
  split; [done|]. split; [done|]. split; [done|]. split; [done|].
  split; [reflexivity|].
  right. rewrite Htr3, Htr. split; [done|].
  destruct (run_process cmd (files w2)) as [c fs'| |]; [done|by destruct Hout..].
Qed.

End Writer.
(** ** What a record holds *)

Lemma set_if_key_inv {X} (m : option X) key f (d : dict) k :
  is_Some (set_if m key f d !! k) → k = key ∨ is_Some (d !! k).
Proof.
  destruct m as [g|]; simpl; [|by right].
  destruct (decide (key = k)) as [->|Hne]; [by left|].
  rewrite lookup_insert_ne by done. by right.
Qed.

Lemma insert_key_inv (key : string) (v : pyval) (d : dict) k :
  is_Some (<[key := v]> d !! k) → k = key ∨ is_Some (d !! k).
Proof.
  destruct (decide (key = k)) as [->|Hne]; [by left|].
  rewrite lookup_insert_ne by done. by right.
Qed.

Ltac key_inv H :=
  repeat first
    [ apply set_if_key_inv in H as [->|H]; [set_solver|]
    | apply insert_key_inv in H as [->|H]; [set_solver|] ];
  try (rewrite lookup_empty in H; by destruct H).

Lemma parse_record_fields (fs : fsmap) (srt_path text : pystr) (data : dict) :
  fs !! srt_path = Some text →
  parse_srt_data fs srt_path = Some data →
  data !! "datetime" = VStr <$> re_search date_pat text
  ∧ data !! "latitude" = float_value <$> (re_search lat_pat text ≫= py_float)
  ∧ data !! "longitude" = float_value <$> (re_search lon_pat text ≫= py_float)
  ∧ data !! "altitude" = float_value <$> (re_search alt_pat text ≫= py_float)
  ∧ data !! "iso" = VStr <$> re_search iso_pat text
  ∧ data !! "shutter" = clean_shutter <$> re_search shutter_pat text
  ∧ data !! "fnum" = fnum_value <$> (re_search fnum_pat text ≫= py_float)
  ∧ (∀ k, is_Some (data !! k) →
       k ∈ ["datetime"; "latitude"; "longitude"; "altitude"; "iso"; "shutter"; "fnum"]%string).
Proof.
  intros Hfile. rewrite (parse_srt_data_statements fs srt_path text Hfile).
  unfold parse_statements.
  destruct (re_search lat_pat text) as [glat|]; cbn [mbind option_bind];
    [destruct (py_float glat) as [lat|]|];
  (destruct (re_search lon_pat text) as [glon|]; cbn [mbind option_bind];
    [destruct (py_float glon) as [lon|]|]);
  (destruct (re_search alt_pat text) as [galt|]; cbn [mbind option_bind];
    [destruct (py_float galt) as [alt|]|]);
  cbn [mbind option_bind fmap option_fmap option_map]; cbv zeta; try done;
  dict_lookup;
  rewrite ?bool_decide_eq_true_2 by eauto;
  rewrite ?bool_decide_eq_false_2 by (by intros [? ?]);
  cbn [andb]; try done;
  intros [= <-];
  (split; [dict_lookup; rewrite lookup_set_if_eq; by dict_lookup|]);
  (split; [by dict_lookup|]); (split; [by dict_lookup|]); (split; [by dict_lookup|]);
  (split; [dict_lookup; rewrite lookup_set_if_eq; by dict_lookup|]);
  (split; [dict_lookup; rewrite lookup_set_if_eq; by dict_lookup|]);
  (split; [rewrite lookup_set_if_eq; by dict_lookup|]);
  intros k Hk; key_inv Hk.
Qed.

(** X6. The record that [parse_srt_data] returns holds, under each of its
    seven keys, the first match of that key's pattern: the timestamp and the
    ISO value as text, the shutter value cleaned, the coordinates and the
    altitude as floats, the f-number as the float divided by 100.  There
    are no other keys, and no field overwrites another. *)
Theorem parse_srt_data_record (fs : fsmap) (srt_path text : pystr) (data : dict) :
  fs !! srt_path = Some text →
  parse_srt_data fs srt_path = Some data →
  data !! "datetime" = VStr <$> re_search date_pat text
  ∧ data !! "latitude" = float_value <$> (re_search lat_pat text ≫= py_float)
  ∧ data !! "longitude" = float_value <$> (re_search lon_pat text ≫= py_float)
  ∧ data !! "altitude" = float_value <$> (re_search alt_pat text ≫= py_float)
  ∧ data !! "iso" = VStr <$> re_search iso_pat text
  ∧ data !! "shutter" = clean_shutter <$> re_search shutter_pat text
  ∧ data !! "fnum" = fnum_value <$> (re_search fnum_pat text ≫= py_float)
  ∧ (∀ k, is_Some (data !! k) →
       k ∈ ["datetime"; "latitude"; "longitude"; "altitude"; "iso"; "shutter"; "fnum"]%string).
Proof. exact (parse_record_fields fs srt_path text data). Qed.


Section WriterOutcomes.
Context {H : Host}.

(** X4. For a record with a timestamp and coordinates, [inject_metadata]
    starts at most one process, [exiftool -overwrite_original ... <video>],
    on the files without a stale [<video>_exiftool_tmp] (or with it, when
    it could not be removed); it starts none only when printing a status
    line fails.  When exiftool runs and exits
    with 0, or exits with an error whose [stderr] is UTF-8, the function
    returns unless a [print] fails; when it exits with an error whose
    [stderr] does not decode, [UnicodeDecodeError] leaves the function;
    when exiftool cannot be started, [FileNotFoundError] or [OSError]
    does. *)
Theorem inject_metadata_outcomes (video_path : pystr) (metadata : dict) (w : world) :
  well_typed metadata →
  let tmp_path := video_path ++ py "_exiftool_tmp" in
  ∃ cmd fs r w',
    inject_metadata video_path metadata w = (r, w')
    ∧ (fs = delete tmp_path (files w)
       ∨ (fs = files w ∧ remove_ok tmp_path (files w) = false))
    ∧ head cmd = Some (py "exiftool")
    ∧ cmd !! 1%nat = Some (py "-overwrite_original")
    ∧ last cmd = Some video_path
    ∧ ((trace w' = trace w ∧ console_failure r)
       ∨ (trace w' = trace w ++ [cmd]
          ∧ match run_process cmd fs with
            | Launched c fs' =>
                files w' = fs'
                ∧ (if (returncode c =? 0) || utf8_valid (stderr c)
                   then r = Ret () ∨ console_failure r
                   else r = Raise UnicodeDecodeError)
            | NotFound => r = Raise FileNotFoundError
            | Refused => r = Raise OSError
            end))
    ∧ (console_accepts →
       trace w' = trace w ++ [cmd]
       ∧ ∀ c fs', run_process cmd fs = Launched c fs' →
           returncode c = 0 ∨ utf8_valid (stderr c) = true → r = Ret ()).
Proof.
  intros Hty tmp_path.
  destruct (inject_metadata_run video_path metadata w Hty)
    as (dt & lat & lon & cmd & fs & r & w' & Hfs & _ & (Hh & H1 & Hl) & _ & _
        & Hrun & Hout).
  exists cmd, fs, r, w'. split; [done|]. split; [done|]. split; [done|].
  split; [done|]. split; [done|]. split; [done|].
  intros Hc. destruct Hout as [[_ Hf]|[Htr Hout]];
    [by apply console_accepts_no_failure in Hf|].
  split; [done|]. intros c fs' Hl' Hok. rewrite Hl' in Hout.
  destruct Hout as [_ Hout].
  assert ((returncode c =? 0) || utf8_valid (stderr c) = true) as Hb.
  { destruct Hok as [->| ->]; [done|apply orb_true_r]. }
  rewrite Hb in Hout. destruct Hout as [?|Hf]; [done|].
  by apply console_accepts_no_failure in Hf.
Qed.

(** X5. A telemetry log with both coordinates and no timestamp still parses
    to a record, and [inject_metadata] on that record raises
    [KeyError('datetime')] at once: no process is started and no file is
    touched. *)
Theorem untimed_record_raises_key_error
    (fs : fsmap) (srt_path text video_path : pystr) (w : world) :
  fs !! srt_path = Some text →
  occurs lat_pat text → occurs lon_pat text → ¬ occurs date_pat text →
  ∃ metadata,
    parse_srt_data fs srt_path = Some metadata
    ∧ inject_metadata video_path metadata w = (Raise (KeyError "datetime"), w).
Proof.
  intros Hfile Hlat Hlon Hdate.
  destruct (parse_srt_data_fields fs srt_path text Hfile) as [Hnone Hsome].
  destruct (parse_srt_data fs srt_path) as [metadata|] eqn:Hparse.
  - exists metadata. split; [done|].
    destruct (Hsome metadata eq_refl) as ([lat Hl] & _ & Hd & _).
    unfold inject_metadata.
    rewrite bool_decide_eq_false_2 by (intros ->; by rewrite lookup_empty in Hl).
    destruct (metadata !! "datetime") as [v|] eqn:Hv.
    + destruct Hdate. apply Hd. eauto.
    + unfold bind, getitem. by rewrite Hv.
  - destruct (proj1 Hnone eq_refl); done.
Qed.

End WriterOutcomes.

Lemma occurs_by_search pat text : re_search pat text ≠ None → occurs pat text.
Proof.
  intros Hs. apply re_search_occurs. by destruct (re_search pat text); [eauto|].
Qed.

Lemma parse_srt_data_same_file (fs fs' : fsmap) p :
  fs' !! p = fs !! p → parse_srt_data fs' p = parse_srt_data fs p.
Proof. unfold parse_srt_data. by intros ->. Qed.

Lemma parse_record_well_typed (fs : fsmap) srt text md :
  fs !! srt = Some text → parse_srt_data fs srt = Some md →
  occurs date_pat text → well_typed md.
Proof.
  intros Hfile Hparse Hdate.
  destruct (parse_record_fields fs srt text md Hfile Hparse)
    as (Hd & Hlat & Hlon & Halt & _).
  destruct (parse_srt_data_fields fs srt text Hfile) as [_ Hf].
  destruct (Hf md Hparse) as (Slat & Slon & _).
  apply re_search_occurs in Hdate as [g Hg]. rewrite Hg in Hd.
  split; [|split; [|split]].
  - by exists g.
  - rewrite Hlat in Slat |- *. destruct (re_search lat_pat text ≫= py_float) as [f|]; [by exists (PFloat f)|by destruct Slat].
  - rewrite Hlon in Slon |- *. destruct (re_search lon_pat text ≫= py_float) as [f|]; [by exists (PFloat f)|by destruct Slon].
  - rewrite Halt. destruct (re_search alt_pat text ≫= py_float) as [f|]; [right; by exists (PFloat f)|by left].
Qed.

Lemma parse_srt_data_missing (fs : fsmap) p :
  fs !! p = None → parse_srt_data fs p = None.
Proof. unfold parse_srt_data. by intros ->. Qed.

(** ** The worker *)

Section Worker.
Context {H : Host}.

Lemma parse_srt_file_outcome srt_path w r w' :
  parse_srt_file srt_path w = (r, w') →
  w' = w
  ∧ (r = Ret (parse_srt_data (files w) srt_path) ∨ console_failure r).
Proof.
  unfold parse_srt_file. destruct (files w !! srt_path) as [text|] eqn:Hf.
  - intros [= <- <-]. eauto.
  - intros Hrun.
    apply bind_inv in Hrun as [(e & Hp & ->)|([] & w1 & Hp & Hrun)];
      apply safe_print_outcome in Hp as [-> Hp].
    + split; [done|]. destruct Hp as [[=]|?]. right. by eapply console_failure_raise.
    + injection Hrun as <- <-. split; [done|]. left.
      by rewrite parse_srt_data_missing.
Qed.

Lemma inject_step_forms vi metadata w meta_ok final_status w' :
  inject_step vi metadata w = (Ret (meta_ok, final_status), w') →
  (meta_ok = false ∧ final_status = py "error")
  ∨ (meta_ok = true
     ∧ ∃ md, metadata = Some md
         ∧ final_status = success_status (basename (export_path vi)) md).
Proof.
  unfold inject_step.
  assert (∀ w0,
    (safe_print "  Warning: Could not extract metadata from {}"
       [FStr (basename (matched_srt vi))] ;;
     ret (false, py "error")) w0 = (Ret (meta_ok, final_status), w') →
    meta_ok = false ∧ final_status = py "error") as Hno.
  { intros w0 Hrun. apply bind_Ret_inv in Hrun as ([] & w1 & _ & Hrun).
    by injection Hrun as <- <- _. }
  destruct metadata as [md|]; [|left; by eapply Hno].
  destruct (bool_decide (md = ∅)); [left; by eapply Hno|].
  intros Hrun. apply bind_Ret_inv in Hrun as ([] & w1 & _ & Hrun).
  injection Hrun as <- <- _. right. split; [done|]. by exists md.
Qed.

Lemma process_single_video_forms (vi : video_info) (w : world) (s : pystr) (w' : world) :
  process_single_video vi w = (Ret s, w') →
  s = py "already_processed"
  ∨ s = py "error"
  ∨ ∃ processed w1 srt_ok w2 md,
      (if force vi then ret false else check_if_processed (export_path vi)) w
        = (Ret processed, w1)
      ∧ (if has_ffmpeg vi
         then embed_subtitle (export_path vi) (matched_srt vi)
         else ret true) w1 = (Ret srt_ok, w2)
      ∧ parse_srt_data (files w2) (matched_srt vi) = Some md
      ∧ s = success_status (basename (export_path vi)) md
      ∧ (files w2 !! matched_srt vi = files w !! matched_srt vi →
         parse_srt_data (files w) (matched_srt vi) = Some md).
Proof.
  unfold process_single_video. intros Hrun.
  apply bind_Ret_inv in Hrun as ([] & w0 & Hp & Hrun).
  apply safe_print_outcome in Hp as [-> _].
  apply bind_Ret_inv in Hrun as (processed & w1 & Hprobe & Hrun).
  destruct (negb (force vi) && processed).
  - apply bind_Ret_inv in Hrun as (? & w2 & _ & Hrun).
    injection Hrun as <- _. by left.
  - apply bind_Ret_inv in Hrun as (srt_ok & w2 & Hembed & Hrun).
    apply bind_Ret_inv in Hrun as (metadata & w3 & Hparse & Hrun).
    apply parse_srt_file_outcome in Hparse as [-> [[= ->]|(? & ? & ? & _ & [=])]].
    apply bind_Ret_inv in Hrun as ([meta_ok final_status] & w4 & Hst & Hrun).
    apply bind_Ret_inv in Hrun as (? & w5 & _ & Hrun).
    injection Hrun as <- _.
    apply inject_step_forms in Hst as [[_ ->]|(_ & md & Hmd & ->)];
      [right; by left|].
    right. right. exists processed, w1, srt_ok, w2, md.
    split; [done|]. split; [done|]. split; [done|]. split; [done|].
    intros Hsame. by rewrite <- (parse_srt_data_same_file _ _ _ Hsame).
Qed.

(** X7. Whatever the worker returns is one of three strings: the literal
    [already_processed], the literal [error], or
    [success|<file name>|<timestamp>|<lat>,<lon>] built from the record
    that [parse_srt_data] reads from the matched log as it is after the
    probe and the subtitle step (and so from the log as it was at the
    start, when these leave it alone). *)
Theorem worker_outcome_forms (vi : video_info) (w : world) (s : pystr) (w' : world) :
  process_single_video vi w = (Ret s, w') →
  s = py "already_processed"
  ∨ s = py "error"
  ∨ ∃ processed w1 srt_ok w2 md,
      (if force vi then ret false else check_if_processed (export_path vi)) w
        = (Ret processed, w1)
      ∧ (if has_ffmpeg vi
         then embed_subtitle (export_path vi) (matched_srt vi)
         else ret true) w1 = (Ret srt_ok, w2)
      ∧ parse_srt_data (files w2) (matched_srt vi) = Some md
      ∧ s = success_status (basename (export_path vi)) md
      ∧ (files w2 !! matched_srt vi = files w !! matched_srt vi →
         parse_srt_data (files w) (matched_srt vi) = Some md).
Proof. exact (process_single_video_forms vi w s w'). Qed.

End Worker.

Section WorkerTrace.
Context {H : Host}.
















End WorkerTrace.

(** ** Files that a computation leaves alone *)

Section Keeps.
Context {H : Host}.

Lemma keeps_ret p {A} (a : A) : keeps_file p (ret a).
Proof. by intros w r w' [= <- <-]. Qed.

Lemma keeps_raise p {A} e : keeps_file p (raise (A:=A) e).
Proof. by intros w r w' [= <- <-]. Qed.

Lemma keeps_bind p {A B} (m : M A) (k : A → M B) :
  keeps_file p m → (∀ a, keeps_file p (k a)) → keeps_file p (bind m k).
Proof.
  intros Hm Hk w r w' Hb.
  apply bind_inv in Hb as [(e & Hmw & ->)|(a & w1 & Hmw & Hkw)].
  - by eapply Hm.
  - rewrite (Hk a _ _ _ Hkw). by eapply Hm.
Qed.

Lemma keeps_try_except p {A} (body : M A) handler :
  keeps_file p body →
  (∀ e h, handler e = Some h → keeps_file p h) →
  keeps_file p (try_except body handler).
Proof.
  intros Hb Hh w r w'. unfold try_except.
  destruct (body w) as [[a|e] w1] eqn:Hbw.
  - intros [= <- <-]. by eapply Hb.
  - destruct (handler e) as [h|] eqn:He.
    + intros Hhw. rewrite (Hh e h He _ _ _ Hhw). by eapply Hb.
    + intros [= <- <-]. by eapply Hb.
Qed.

Lemma keeps_subprocess_run p cmd check :
  host_spares p → keeps_file p (subprocess_run cmd check).
Proof.
  intros Hsp w r w'. unfold subprocess_run.
  destruct (run_process cmd (files w)) as [c fs'| |] eqn:Hrun.
  - destruct (check && _); intros [= <- <-]; by eapply Hsp.
  - by intros [= <- <-].
  - by intros [= <- <-].
Qed.

Lemma keeps_path_exists p q : keeps_file p (path_exists q).
Proof. by intros w r w' [= <- <-]. Qed.

Lemma keeps_safe_print p template fields : keeps_file p (safe_print template fields).
Proof. intros w r w' Hp. by apply safe_print_outcome in Hp as [-> _]. Qed.

Lemma keeps_decode p bytes : keeps_file p (decode bytes).
Proof. unfold decode. destruct (utf8_valid bytes); [apply keeps_ret|apply keeps_raise]. Qed.

Lemma keeps_os_remove p q : p ≠ q → keeps_file p (os_remove q).
Proof.
  intros Hne w r w'. unfold os_remove.
  destruct (files w !! q); [destruct (remove_ok _ _)|]; intros [= <- <-];
    [|done..].
  by apply lookup_delete_ne.
Qed.

Lemma keeps_shutil_move p src dst :
  p ≠ src → p ≠ dst → keeps_file p (shutil_move src dst).
Proof.
  intros Hs Hd w r w'. unfold shutil_move.
  destruct (files w !! src);
    [destruct (move_ok _ _ _); [|destruct (move_debris _ _ _)]|];
    intros [= <- <-]; try done; cbn [files].
  - by rewrite lookup_insert_ne, lookup_delete_ne.
  - by rewrite lookup_insert_ne.
Qed.

Lemma check_ffmpeg_keeps p : host_spares p → keeps_file p check_ffmpeg.
Proof.
  intros Hsp. unfold check_ffmpeg. apply keeps_try_except.
  - apply keeps_bind; [by apply keeps_subprocess_run|intros _; apply keeps_ret].
  - intros e h. unfold called_or_not_found. destruct e; intros [= <-]; apply keeps_ret.
Qed.

Lemma check_if_processed_keeps p v :
  host_spares p → keeps_file p (check_if_processed v).
Proof.
  intros Hsp. unfold check_if_processed. apply keeps_try_except.
  - apply keeps_bind; [by apply keeps_subprocess_run|intros result].
    destruct (contains _ _); [apply keeps_ret|].
    apply keeps_bind; [by apply check_ffmpeg_keeps|intros has].
    destruct has; [|apply keeps_ret].
    apply keeps_bind; [by apply keeps_subprocess_run|intros result2].
    destruct (contains _ _); apply keeps_ret.
  - intros e h [= <-]. apply keeps_ret.
Qed.

Lemma discard_temp_keeps p t : p ≠ t → keeps_file p (discard_temp t).
Proof.
  intros Hne. unfold discard_temp.
  apply keeps_bind; [apply keeps_path_exists|intros left].
  apply keeps_bind; [|intros _; apply keeps_ret].
  destruct left; [by apply keeps_os_remove|apply keeps_ret].
Qed.

Lemma embed_subtitle_keeps p v s :
  host_spares p → p ≠ v → p ≠ temp_output_of v →
  keeps_file p (embed_subtitle v s).
Proof.
  intros Hsp Hv Ht. unfold embed_subtitle.
  apply keeps_bind; [apply keeps_safe_print|intros _].
  apply keeps_try_except.
  - apply keeps_bind; [by apply keeps_subprocess_run|intros _].
    apply keeps_bind; [by apply keeps_shutil_move|intros _].
    apply keeps_bind; [apply keeps_safe_print|intros _]. apply keeps_ret.
  - intros e h. unfold called_then_any. destruct e; intros [= <-];
      try (apply keeps_bind; [apply keeps_safe_print|intros _];
           by apply discard_temp_keeps).
    apply keeps_bind; [apply keeps_decode|intros text].
    apply keeps_bind; [apply keeps_safe_print|intros _].
    by apply discard_temp_keeps.
Qed.

Lemma embed_subtitle_run (video_path srt_path : pystr) (w : world) :
  let temp_output := temp_output_of video_path in
  let cmd := ffmpeg_cmd video_path srt_path temp_output in
  console_accepts →
  removals_succeed →
  (∀ fs, move_debris temp_output video_path fs = None) →
  temp_output ≠ video_path →
  (∀ c fs', run_process cmd (files w) = Launched c fs' →
            fs' !! video_path = files w !! video_path
            ∧ (returncode c ≠ 0 → utf8_valid (stderr c) = true)) →
  ∃ ok w', embed_subtitle video_path srt_path w = (Ret ok, w')
    ∧ files w' !! temp_output = None
    ∧ trace w' = trace w ++ [cmd]
    ∧ (ok = false → files w' !! video_path = files w !! video_path)
    ∧ (ok = true ↔
         ∃ c fs' content, run_process cmd (files w) = Launched c fs'
           ∧ returncode c = 0
           ∧ fs' !! temp_output = Some content
           ∧ move_ok temp_output video_path fs' = true)
    ∧ (∀ c fs' content, run_process cmd (files w) = Launched c fs' →
         returncode c = 0 → fs' !! temp_output = Some content →
         move_ok temp_output video_path fs' = true →
         files w' !! video_path = Some content).
Proof.
  intros temp_output cmd Hc Hrm Hnd Hne Hff.
  unfold embed_subtitle. fold temp_output. fold cmd.
  rewrite (safe_print_accepts _ _ Hc), bind_ret.
  unfold try_except, bind at 1, subprocess_run.
  destruct (run_process cmd (files w)) as [c fs'| |] eqn:Hrun;
    [destruct (Hff c fs' eq_refl) as [Hsame Hdec]; clear Hff;
     destruct (returncode c =? 0) eqn:Hrc;
     [apply Z.eqb_eq in Hrc|apply Z.eqb_neq in Hrc; specialize (Hdec Hrc)];
     (destruct (fs' !! temp_output) as [content|] eqn:Htemp;
      [destruct (move_ok temp_output video_path fs') eqn:Hmv|])
    |destruct (files w !! temp_output) as [content|] eqn:Htemp
    |destruct (files w !! temp_output) as [content|] eqn:Htemp];
  unfold called_then_any, discard_temp, decode, bind, shutil_move, safe_print,
    path_exists, os_remove, ret;
  repeat first
    [ progress cbn [files trace andb negb]
    | rewrite Htemp
    | rewrite Hmv
    | rewrite Hdec
    | rewrite Hc
    | rewrite Hrm
    | rewrite Hnd
    | rewrite bool_decide_eq_true_2 by eauto
    | rewrite bool_decide_eq_false_2 by (by intros [? ?]) ];
  (eexists _, _; split; [reflexivity|]);
  cbn [files trace];
  rewrite ?lookup_delete_eq, ?lookup_delete_ne, ?lookup_insert_eq by done;
  try rewrite lookup_insert_ne, lookup_delete_eq by done;
  (split; [done|]); (split; [done|]);
  (split; [done|]);
  (split;
   [ split;
     [ intros ?; try done; by exists c, fs', content
     | intros (c' & fs'' & content' & Hl & Hc1 & Hc2 & Hc3);
       simplify_eq; congruence ]
   | intros c' fs'' content' Hl Hc1 Hc2 Hc3; simplify_eq; congruence ]).
Qed.

(** X18. On a console that prints everything, where files can be removed
    and a failed move leaves nothing behind, when ffmpeg does not write the
    export file itself and what it writes to [stderr] on failure is UTF-8,
    [embed_subtitle] returns and afterwards the temporary file is gone.  If ffmpeg cannot be started, exits with a non-zero code, or the
    move fails, the result is [False] and the export file is as before; if
    ffmpeg exits with 0 and the move goes through, the result is [True] and
    the export file holds what ffmpeg wrote to the temporary file. *)
Theorem embed_subtitle_replace_or_restore (video_path srt_path : pystr) (w : world) :
  let temp_output := temp_output_of video_path in
  let cmd := ffmpeg_cmd video_path srt_path temp_output in
  console_accepts →
  removals_succeed →
  (∀ fs, move_debris temp_output video_path fs = None) →
  temp_output ≠ video_path →
  (∀ c fs', run_process cmd (files w) = Launched c fs' →
            fs' !! video_path = files w !! video_path
            ∧ (returncode c ≠ 0 → utf8_valid (stderr c) = true)) →
  ∃ ok w', embed_subtitle video_path srt_path w = (Ret ok, w')
    ∧ files w' !! temp_output = None
    ∧ trace w' = trace w ++ [cmd]
    ∧ (ok = false → files w' !! video_path = files w !! video_path)
    ∧ (ok = true ↔
         ∃ c fs' content, run_process cmd (files w) = Launched c fs'
           ∧ returncode c = 0
           ∧ fs' !! temp_output = Some content
           ∧ move_ok temp_output video_path fs' = true)
    ∧ (∀ c fs' content, run_process cmd (files w) = Launched c fs' →
         returncode c = 0 → fs' !! temp_output = Some content →
         move_ok temp_output video_path fs' = true →
         files w' !! video_path = Some content).
Proof. exact (embed_subtitle_run video_path srt_path w). Qed.

Lemma discard_temp_returns t w :
  removals_succeed → ∃ w', discard_temp t w = (Ret false, w').
Proof.
  intros Hrm. unfold discard_temp, bind, path_exists, os_remove, ret.
  destruct (files w !! t) as [old|] eqn:Ht.
  - rewrite bool_decide_eq_true_2 by eauto. rewrite Ht, Hrm. eauto.
  - rewrite bool_decide_eq_false_2 by (by intros [? ?]). eauto.
Qed.

Lemma shutil_move_raises src dst w e w' :
  shutil_move src dst w = (Raise e, w') → e = OSError ∨ e = FileNotFoundError.
Proof.
  unfold shutil_move.
  destruct (files w !! src); [destruct (move_ok _ _ _)|]; intros [= <- <-]; eauto.
Qed.

Lemma embed_subtitle_accepts v s :
  console_accepts → removals_succeed → stderr_decodes →
  never_raises (embed_subtitle v s).
Proof.
  intros Hc Hrm Hdec w. unfold embed_subtitle.
  rewrite (safe_print_accepts _ _ Hc), bind_ret.
  assert (∀ e w1, e = OSError ∨ e = FileNotFoundError →
    ∃ a w', (safe_print "  Error: {}" [FExn e];;
             discard_temp (temp_output_of v)) w1 = (Ret a, w')) as Hany.
  { intros e w1 _. rewrite (safe_print_accepts _ _ Hc), bind_ret.
    destruct (discard_temp_returns (temp_output_of v) w1 Hrm) as [w' ->]. eauto. }
  unfold try_except, bind at 1, subprocess_run.
  destruct (run_process _ (files w)) as [c fs'| |] eqn:Hrun.
  - destruct (returncode c =? 0) eqn:Hrc; cbn [andb negb].
    + unfold bind at 1.
      destruct (shutil_move _ _ _) as [[[]|e] w2] eqn:Hmv.
      * rewrite (safe_print_accepts _ _ Hc), bind_ret. unfold ret. eauto.
      * apply shutil_move_raises in Hmv.
        destruct Hmv as [-> | ->]; cbn [called_then_any]; apply Hany; eauto.
    + apply Z.eqb_neq in Hrc. cbn [called_then_any].
      unfold decode. rewrite (Hdec _ _ _ _ Hrun Hrc), bind_ret.
      rewrite (safe_print_accepts _ _ Hc), bind_ret.
      destruct (discard_temp_returns (temp_output_of v)
                  (World fs' (trace w ++ [ffmpeg_cmd v s (temp_output_of v)])) Hrm)
        as [w' ->]. eauto.
  - cbn [called_then_any]. apply Hany. eauto.
  - cbn [called_then_any]. apply Hany. eauto.
Qed.

Lemma parse_srt_file_accepts p w :
  console_accepts →
  parse_srt_file p w = (Ret (parse_srt_data (files w) p), w).
Proof.
  intros Hc. unfold parse_srt_file.
  destruct (files w !! p) eqn:Hf; [done|].
  rewrite (safe_print_accepts _ _ Hc), bind_ret.
  by rewrite parse_srt_data_missing.
Qed.

Lemma inject_step_returns vi fs w :
  console_accepts → stderr_decodes → exiftool_installed →
  (∀ text, fs !! matched_srt vi = Some text →
           occurs lat_pat text → occurs lon_pat text → occurs date_pat text) →
  ∃ st w', inject_step vi (parse_srt_data fs (matched_srt vi)) w = (Ret st, w').
Proof.
  intros Hc Hdec Hexif Hdate. unfold inject_step.
  rewrite (safe_print_accepts _ _ Hc), bind_ret.
  destruct (parse_srt_data fs (matched_srt vi)) as [md|] eqn:Hparse;
    [|unfold ret; eauto].
  destruct (bool_decide (md = ∅)); [unfold ret; eauto|].
  destruct (fs !! matched_srt vi) as [text|] eqn:Hfile;
    [|by rewrite parse_srt_data_missing in Hparse].
  destruct (parse_srt_data_fields _ _ _ Hfile) as [Hnone _].
  assert (occurs date_pat text) as Hd.
  { apply (Hdate text eq_refl).
    - destruct (re_search lat_pat text) eqn:E;
        [apply re_search_occurs; by rewrite E|].
      apply re_search_None in E. rewrite (proj2 Hnone) in Hparse; [done|by left].
    - destruct (re_search lon_pat text) eqn:E;
        [apply re_search_occurs; by rewrite E|].
      apply re_search_None in E. rewrite (proj2 Hnone) in Hparse; [done|by right]. }
  pose proof (parse_record_well_typed _ _ _ _ Hfile Hparse Hd) as Hty.
  destruct (inject_metadata_run (export_path vi) md w Hty)
    as (dt & lat & lon & cmd & fs0 & r & w' & _ & _ & (Hh & _) & _ & _
        & Hrun & Hout).
  unfold bind. rewrite Hrun.
  assert (r = Ret ()) as ->; [|unfold ret; eauto].
  destruct Hout as [[_ Hf]|[_ Hout]];
    [by apply console_accepts_no_failure in Hf|].
  destruct (Hexif cmd fs0 Hh) as (c & fs' & Hl).
  rewrite Hl in Hout. destruct Hout as [_ Hout].
  assert ((returncode c =? 0) || utf8_valid (stderr c) = true) as Hb.
  { destruct (returncode c =? 0) eqn:Hrc; [done|]. apply Z.eqb_neq in Hrc.
    cbn [orb]. by eapply Hdec. }
  rewrite Hb in Hout. destruct Hout as [?|Hf]; [done|].
  by apply console_accepts_no_failure in Hf.
Qed.

(** X9. On a console that prints everything, where files can be removed,
    with exiftool installed, programs that write UTF-8 to [stderr] when they
    fail and leave the telemetry log alone, and a log that is neither the
    export file nor its temporary sibling, the worker always returns an
    outcome, provided a log with both coordinates also has a timestamp (or
    cannot be read at all). *)
Theorem worker_returns_outcome (vi : video_info) (w : world) :
  console_accepts →
  removals_succeed →
  stderr_decodes →
  exiftool_installed →
  host_spares (matched_srt vi) →
  matched_srt vi ≠ export_path vi →
  matched_srt vi ≠ temp_output_of (export_path vi) →
  (∀ text, files w !! matched_srt vi = Some text →
           occurs lat_pat text → occurs lon_pat text → occurs date_pat text) →
  ∃ s w', process_single_video vi w = (Ret s, w').
Proof.
  intros Hc Hrm Hdec Hexif Hsp Hne1 Hne2 Hdate. unfold process_single_video.
  rewrite (safe_print_accepts _ _ Hc), bind_ret.
  assert (∃ processed w1,
    (if force vi then ret false else check_if_processed (export_path vi)) w
      = (Ret processed, w1)
    ∧ files w1 !! matched_srt vi = files w !! matched_srt vi)
    as (processed & w1 & Hm1 & Hf1).
  { destruct (force vi); [by exists false, w|].
    destruct (check_if_processed_never_raises (export_path vi) w) as (b & w1 & Hr).
    exists b, w1. split; [done|]. by eapply check_if_processed_keeps. }
  unfold bind at 1. rewrite Hm1. clear Hm1.
  destruct (negb (force vi) && processed).
  - unfold bind at 1.
    destruct (delete_source vi).
    + destruct (recycle_source_accepts (matched_srt vi) (export_path vi) Hc w1)
        as (u & w2 & ->). unfold ret. eauto.
    + unfold ret. eauto.
  - assert (∃ srt_ok w2,
      (if has_ffmpeg vi then embed_subtitle (export_path vi) (matched_srt vi)
       else ret true) w1 = (Ret srt_ok, w2)
      ∧ files w2 !! matched_srt vi = files w1 !! matched_srt vi)
      as (srt_ok & w2 & Hm2 & Hf2).
    { destruct (has_ffmpeg vi); [|by exists true, w1].
      destruct (embed_subtitle_accepts (export_path vi) (matched_srt vi) Hc Hrm Hdec w1)
        as (b & w2 & Hr).
      exists b, w2. split; [done|].
      exact (embed_subtitle_keeps _ _ _ Hsp Hne1 Hne2 _ _ _ Hr). }
    unfold bind at 1. rewrite Hm2. clear Hm2.
    unfold bind at 1. rewrite (parse_srt_file_accepts _ _ Hc).
    rewrite (parse_srt_data_same_file (files w) (files w2)) by congruence.
    destruct (inject_step_returns vi (files w) w2 Hc Hdec Hexif Hdate)
      as ([meta_ok final_status] & w4 & Hst).
    unfold bind at 1. rewrite Hst. clear Hst.
    unfold bind at 1.
    destruct (delete_source vi && meta_ok && srt_ok).
    + destruct (recycle_source_accepts (matched_srt vi) (export_path vi) Hc w4)
        as (u & w5 & ->). unfold ret. eauto.
    + unfold ret. eauto.
Qed.

End Keeps.
(** ** The index and the work list *)

Lemma startswith_refl s : startswith s s = true.
Proof. induction s as [|c s IH]; simpl; [done|]. rewrite IH, andb_true_r. by apply chr_eqb_eq. Qed.

Lemma contains_refl s : contains s s = true.
Proof. destruct s; simpl; [done|]. by rewrite startswith_refl, (proj2 (chr_eqb_eq _ _) eq_refl). Qed.

Lemma dict_get_is_Some (d : odict) k : k ∈ dict_keys d → is_Some (dict_get d k).
Proof.
  induction d as [|[k' v] d IH]; simpl; [by intros ?%elem_of_nil|].
  intros [->|Hin]%elem_of_cons.
  - rewrite bool_decide_eq_true_2 by done. eauto.
  - destruct (bool_decide (k' = k)); [eauto|by apply IH].
Qed.

Lemma dict_get_set (d : odict) k v k' :
  dict_get (dict_set d k v) k' = if bool_decide (k = k') then Some v else dict_get d k'.
Proof.
  induction d as [|[k0 v0] d IH]; simpl.
  - done.
  - destruct (bool_decide (k0 = k)) eqn:E0; simpl.
    + apply bool_decide_eq_true in E0 as ->. by destruct (bool_decide (k = k')).
    + rewrite IH. destruct (bool_decide (k0 = k')) eqn:E1; [|done].
      apply bool_decide_eq_true in E1 as ->.
      apply bool_decide_eq_false in E0. by rewrite bool_decide_eq_false_2.
Qed.

Lemma dict_keys_set (d : odict) k v :
  dict_keys (dict_set d k v)
  = if bool_decide (k ∈ dict_keys d) then dict_keys d else dict_keys d ++ [k].
Proof.
  induction d as [|[k0 v0] d IH]; simpl; [done|].
  destruct (bool_decide (k0 = k)) eqn:E0; simpl.
  - apply bool_decide_eq_true in E0 as ->.
    rewrite bool_decide_eq_true_2 by (by left). done.
  - apply bool_decide_eq_false in E0. rewrite IH.
    destruct (bool_decide (k ∈ dict_keys d)) eqn:E1.
    + apply bool_decide_eq_true in E1. rewrite bool_decide_eq_true_2 by (by right). done.
    + apply bool_decide_eq_false in E1.
      rewrite bool_decide_eq_false_2; [done|].
      intros [->|?]%elem_of_cons; done.
Qed.

Lemma dict_set_NoDup (d : odict) k v :
  NoDup (dict_keys d) → NoDup (dict_keys (dict_set d k v)).
Proof.
  intros Hnd. rewrite dict_keys_set.
  destruct (bool_decide (k ∈ dict_keys d)) eqn:E; [done|].
  apply bool_decide_eq_false in E.
  apply NoDup_app. split; [done|]. split; [|apply NoDup_singleton].
  intros x Hx ->%list_elem_of_singleton. done.
Qed.

(** X10. An export file gets no telemetry log exactly when no key of the
    index is a substring of its base name; otherwise a log is found, and it
    is one of the index. *)
Theorem unmatched_iff_no_substring (source_map : odict) (base_name : pystr) :
  (find_matched_srt source_map base_name = None
     ↔ ∀ key, key ∈ dict_keys source_map → contains base_name key = false)
  ∧ (∀ srt, find_matched_srt source_map base_name = Some srt →
       ∃ key, key ∈ dict_keys source_map ∧ contains base_name key = true
              ∧ dict_get source_map key = Some srt).
Proof.
  assert (Hsome : ∀ key, matched_key source_map base_name = Some key →
            key ∈ dict_keys source_map ∧ contains base_name key = true).
  { unfold matched_key. intros key.
    destruct (bool_decide (base_name ∈ dict_keys source_map)) eqn:E.
    - apply bool_decide_eq_true in E. intros [= <-]. split; [done|apply contains_refl].
    - intros Hb. apply best_match_first_longest in Hb as (k1 & k2 & Hk & Hc & _).
      split; [|done]. rewrite Hk. apply elem_of_app. right. by left. }
  split; [split|].
  - intros Hnone key Hin.
    destruct (contains base_name key) eqn:Hc; [|done].
    assert (is_Some (matched_key source_map base_name)) as [k Hk].
    { unfold matched_key. destruct (bool_decide _); [eauto|].
      by eapply best_match_exists. }
    unfold find_matched_srt in Hnone. rewrite Hk in Hnone. simpl in Hnone.
    destruct (Hsome k Hk) as [Hkin _].
    apply dict_get_is_Some in Hkin as [v Hv]. congruence.
  - intros Hall. unfold find_matched_srt.
    destruct (matched_key source_map base_name) as [k|] eqn:Hk; [|done].
    destruct (Hsome k eq_refl) as [Hkin Hc]. rewrite (Hall k Hkin) in Hc. done.
  - intros srt. unfold find_matched_srt.
    destruct (matched_key source_map base_name) as [k|] eqn:Hk; [|done].
    simpl. intros Hg. destruct (Hsome k eq_refl) as [Hkin Hc]. eauto.
Qed.

Section ScanProps.
Context {H : Host}.

Lemma fold_walk {A} (step : pystr → A → pystr → A) walked : ∀ acc,
  fold_left (λ a rf, fold_left (step (fst rf)) (snd rf) a) walked acc
  = fold_left (λ a rf, step (fst rf) a (snd rf)) (walk_files walked) acc.
Proof.
  induction walked as [|[root files] walked IH]; intros acc; [done|].
  cbn [fold_left walk_files flat_map fst snd]. rewrite fold_left_app, IH. f_equal.
  clear. revert acc. induction files as [|f files IHf]; intros acc; [done|].
  simpl. apply IHf.
Qed.

Lemma lower_chr_idem c : lower_chr (lower_chr c) = lower_chr c.
Proof. destruct c as [[] [] [] [] [] [] [] []]; reflexivity. Qed.

Lemma lower_idem s : lower (lower s) = lower s.
Proof. unfold lower. rewrite map_map. apply map_ext. intros c. apply lower_chr_idem. Qed.

Lemma source_fold_inv l : ∀ acc,
  let sm := fold_left (λ a rf, source_step (fst rf) a (snd rf)) l acc in
  (NoDup (dict_keys acc) → NoDup (dict_keys sm))
  ∧ ((∀ key, key ∈ dict_keys acc → lower key = key) →
     ∀ key, key ∈ dict_keys sm → lower key = key)
  ∧ (∀ key path, dict_get sm key = Some path →
       dict_get acc key = Some path
       ∨ ∃ root filename, (root, filename) ∈ l ∧ is_srt filename = true
           ∧ key = key_of filename ∧ path = join root filename)
  ∧ (∀ key, (∀ root filename, (root, filename) ∈ l → is_srt filename = true →
               key_of filename ≠ key) →
       dict_get sm key = dict_get acc key).
Proof.
  induction l as [|[root f] l IH]; intros acc; cbn zeta.
  - simpl. repeat split; eauto.
  - cbn [fold_left fst snd].
    destruct (IH (source_step root acc f)) as (I1 & I2 & I3 & I4). cbn zeta in *.
    unfold source_step in *. fold (is_srt f) in *. fold (key_of f) in *.
    destruct (is_srt f) eqn:Hsrt.
    + split; [intros Hnd; by apply I1, dict_set_NoDup|].
      split.
      { intros Hlow. apply I2. intros key. rewrite dict_keys_set.
        destruct (bool_decide _); [by apply Hlow|].
        intros [?| ->%list_elem_of_singleton]%elem_of_app; [by apply Hlow|].
        apply lower_idem. }
      split.
      { intros key path Hg. apply I3 in Hg as [Hg|(r' & f' & Hin & ?)].
        - rewrite dict_get_set in Hg.
          destruct (bool_decide (key_of f = key)) eqn:E; [|by left].
          apply bool_decide_eq_true in E. injection Hg as <-.
          right. exists root, f. split; [by left|done].
        - right. exists r', f'. split; [by right|done]. }
      intros key Hne. rewrite I4 by (intros r' f' Hin; apply (Hne r'); by right).
      rewrite dict_get_set. rewrite bool_decide_eq_false_2; [done|].
      apply (Hne root f); [by left|done].
    + split; [done|]. split; [done|]. split.
      { intros key path Hg. apply I3 in Hg as [Hg|(r' & f' & Hin & ?)]; [by left|].
        right. exists r', f'. split; [by right|done]. }
      intros key Hne. apply I4. intros r' f' Hin. apply (Hne r'). by right.
Qed.

Lemma build_source_map_spec (walked : list (pystr * list pystr)) :
  let source_map := build_source_map walked in
  NoDup (dict_keys source_map)
  ∧ (∀ key, key ∈ dict_keys source_map → lower key = key)
  ∧ (∀ key path, dict_get source_map key = Some path →
       ∃ root filename, (root, filename) ∈ walk_files walked
         ∧ is_srt filename = true ∧ key = key_of filename
         ∧ path = join root filename)
  ∧ (∀ before root filename after,
       walk_files walked = before ++ (root, filename) :: after →
       is_srt filename = true →
       (∀ r f, (r, f) ∈ after → is_srt f = true → key_of f ≠ key_of filename) →
       dict_get source_map (key_of filename) = Some (join root filename)).
Proof.
  cbn zeta. unfold build_source_map. rewrite (fold_walk source_step).
  destruct (source_fold_inv (walk_files walked) []) as (I1 & I2 & I3 & _).
  cbn zeta in *.
  split; [apply I1; constructor|].
  split; [apply I2; by intros key ?%elem_of_nil|].
  split.
  { intros key path Hg. by apply I3 in Hg as [Hg|Hg]. }
  intros before root filename after Hw Hsrt Hlast. rewrite Hw, fold_left_app.
  cbn [fold_left fst snd].
  destruct (source_fold_inv after
              (source_step root
                 (fold_left (λ a rf, source_step (fst rf) a (snd rf)) before [])
                 filename)) as (_ & _ & _ & I4).
  cbn zeta in I4. rewrite (I4 _ Hlast).
  unfold source_step. fold (is_srt filename). rewrite Hsrt. fold (key_of filename).
  rewrite dict_get_set. by rewrite bool_decide_eq_true_2.
Qed.

(** X11. The index built from the source tree has distinct, lower-cased
    keys; every entry comes from a [.srt] file of the tree, keyed by its
    lower-cased base name; and for files with the same key the last one in
    the order of the walk wins. *)
Theorem source_map_last_wins (walked : list (pystr * list pystr)) :
  let source_map := build_source_map walked in
  NoDup (dict_keys source_map)
  ∧ (∀ key, key ∈ dict_keys source_map → lower key = key)
  ∧ (∀ key path, dict_get source_map key = Some path →
       ∃ root filename, (root, filename) ∈ walk_files walked
         ∧ is_srt filename = true ∧ key = key_of filename
         ∧ path = join root filename)
  ∧ (∀ before root filename after,
       walk_files walked = before ++ (root, filename) :: after →
       is_srt filename = true →
       (∀ r f, (r, f) ∈ after → is_srt f = true → key_of f ≠ key_of filename) →
       dict_get source_map (key_of filename) = Some (join root filename)).
Proof. exact (build_source_map_spec walked). Qed.

Lemma export_step_app source_map root videos filename :
  export_step source_map root videos filename
  = videos ++ export_item source_map (root, filename).
Proof.
  unfold export_item, export_step. cbn [fst snd].
  destruct (_ || _); [|by rewrite app_nil_r].
  destruct (_ || _); [by rewrite app_nil_r|].
  destruct (find_matched_srt _ _) as [[|c s]|]; by rewrite ?app_nil_r.
Qed.

Lemma scan_exports_flat source_map walked :
  scan_exports source_map walked
  = flat_map (export_item source_map) (walk_files walked).
Proof.
  unfold scan_exports. rewrite (fold_walk (export_step source_map)).
  assert (∀ l acc,
    fold_left (λ a rf, export_step source_map (fst rf) a (snd rf)) l acc
    = acc ++ flat_map (export_item source_map) l) as Hgen.
  { induction l as [|[r f] l IH]; intros acc; simpl; [by rewrite app_nil_r|].
    rewrite IH, export_step_app. by rewrite <- app_assoc. }
  apply Hgen.
Qed.

Lemma scan_exports_spec
    (source_map : odict) (walked : list (pystr * list pystr))
    (export_path matched_srt : pystr) :
  ((export_path, matched_srt) ∈ scan_exports source_map walked
     ↔ ∃ root filename,
         (root, filename) ∈ walk_files walked
         ∧ export_path = join root filename
         ∧ is_video filename = true
         ∧ contains export_path (py "_exiftool_tmp") = false
         ∧ contains filename (py "temp_") = false
         ∧ find_matched_srt source_map (key_of filename) = Some matched_srt
         ∧ matched_srt ≠ [])
  ∧ (length (scan_exports source_map walked) ≤ length (walk_files walked))%nat.
Proof.
  rewrite scan_exports_flat. split.
  - rewrite list_elem_of_In, in_flat_map. split.
    + intros ([root filename] & Hin & Hitem). exists root, filename.
      apply list_elem_of_In in Hin. split; [done|].
      unfold export_item, export_step in Hitem. cbn [fst snd] in Hitem.
      fold (is_video filename) in Hitem. fold (key_of filename) in Hitem.
      destruct (is_video filename); [|done].
      destruct (contains (join root filename) _) eqn:E1; [done|].
      destruct (contains filename _) eqn:E2; [done|]. cbn [orb] in Hitem.
      destruct (find_matched_srt _ _) as [[|c s]|]; try done.
      destruct Hitem as [[= <- <-]|[]]. done.
    + intros (root & filename & Hin & -> & Hv & E1 & E2 & Hf & Hne).
      exists (root, filename). split; [by apply list_elem_of_In|].
      unfold export_item, export_step. cbn [fst snd].
      fold (is_video filename). fold (key_of filename).
      rewrite Hv, E1, E2, Hf. destruct matched_srt; [done|]. by left.
  - induction (walk_files walked) as [|[r f] l IH]; [done|].
    cbn [flat_map]. rewrite length_app. cbn [length].
    assert (length (export_item source_map (r, f)) ≤ 1)%nat; [|lia].
    unfold export_item, export_step. cbn [fst snd].
    destruct (_ || _); [|simpl; lia]. destruct (_ || _); [simpl; lia|].
    destruct (find_matched_srt _ _) as [[|c s]|]; simpl; lia.
Qed.

(** X12. The work list holds exactly the files of the export tree that end
    in [.mp4] or [.mov] (in any case), whose path does not contain
    [_exiftool_tmp], whose name does not contain [temp_], and for which the
    index yields a non-empty log path; each such file appears with that log,
    in the order of the walk, and every other file is left out. *)
Theorem work_list_members
    (source_map : odict) (walked : list (pystr * list pystr))
    (export_path matched_srt : pystr) :
  ((export_path, matched_srt) ∈ scan_exports source_map walked
     ↔ ∃ root filename,
         (root, filename) ∈ walk_files walked
         ∧ export_path = join root filename
         ∧ is_video filename = true
         ∧ contains export_path (py "_exiftool_tmp") = false
         ∧ contains filename (py "temp_") = false
         ∧ find_matched_srt source_map (key_of filename) = Some matched_srt
         ∧ matched_srt ≠ [])
  ∧ (length (scan_exports source_map walked) ≤ length (walk_files walked))%nat.
Proof. exact (scan_exports_spec source_map walked export_path matched_srt). Qed.

Lemma dict_get_Some_key (d : odict) k v : dict_get d k = Some v → k ∈ dict_keys d.
Proof.
  induction d as [|[k' v'] d IH]; simpl; [done|].
  destruct (bool_decide (k' = k)) eqn:E.
  - apply bool_decide_eq_true in E as ->. intros _. by left.
  - intros Hg. right. by apply IH.
Qed.

(** X17. An export video with the same lower-cased base name as a
    telemetry log of the source tree is scheduled, paired with the last log
    of that name in the order of the walk, provided its name passes the
    temporary-file filters and the path of the log is not empty. *)
Theorem same_name_export_paired
    (src exp : list (pystr * list pystr))
    (before after : list (pystr * pystr)) (src_root srt_name : pystr)
    (exp_root video_name : pystr) :
  walk_files src = before ++ (src_root, srt_name) :: after →
  is_srt srt_name = true →
  (∀ r f, (r, f) ∈ after → is_srt f = true → key_of f ≠ key_of srt_name) →
  (exp_root, video_name) ∈ walk_files exp →
  is_video video_name = true →
  key_of video_name = key_of srt_name →
  contains (join exp_root video_name) (py "_exiftool_tmp") = false →
  contains video_name (py "temp_") = false →
  join src_root srt_name ≠ [] →
  (join exp_root video_name, join src_root srt_name)
    ∈ scan_exports (build_source_map src) exp.
Proof.
  intros Hw Hsrt Hlast Hin Hvid Hkey Htmp1 Htmp2 Hne.
  apply scan_exports_spec. exists exp_root, video_name.
  split; [done|]. split; [done|]. split; [done|]. split; [done|]. split; [done|].
  split; [|done].
  destruct (build_source_map_spec src) as (_ & _ & _ & Hwin).
  specialize (Hwin before src_root srt_name after Hw Hsrt Hlast).
  unfold find_matched_srt, matched_key. rewrite Hkey.
  rewrite bool_decide_eq_true_2 by (by eapply dict_get_Some_key). done.
Qed.

End ScanProps.

Lemma same_name_export_paired_witness :
  (join (Host := host_ok) (py "/export") (py "DJI_0001.mp4"),
   join (Host := host_ok) (py "/src") (py "DJI_0001.SRT"))
    ∈ scan_exports (H := host_ok)
        (build_source_map (H := host_ok)
           [(py "/src", [py "DJI_0001.SRT"; py "DJI_0001.MP4"])])
        [(py "/export", [py "DJI_0001.mp4"])].
Proof.
  apply (same_name_export_paired (H := host_ok)
           [(py "/src", [py "DJI_0001.SRT"; py "DJI_0001.MP4"])]
           [(py "/export", [py "DJI_0001.mp4"])]
           [] [(py "/src", py "DJI_0001.MP4")]).
  - reflexivity.
  - reflexivity.
  - intros r f [[= -> ->]|[]%elem_of_nil]%elem_of_cons. vm_compute. discriminate.
  - apply list_elem_of_here.
  - reflexivity.
  - reflexivity.
  - reflexivity.
  - reflexivity.
  - vm_compute. discriminate.
Defined.

(** ** The summary log *)

Lemma split_on_cons sep s : ∃ w ws, split_on sep s = w :: ws.
Proof.
  induction s as [|c s (w & ws & IH)]; simpl; [eauto|].
  rewrite IH. destruct (chr_eqb c sep); eauto.
Qed.

Lemma split_on_length sep s :
  length (split_on sep s) = S (length (List.filter (λ c, chr_eqb c sep) s)).
Proof.
  induction s as [|c s IH]; [done|]. cbn [split_on List.filter].
  destruct (split_on_cons sep s) as (w & ws & Hs). rewrite Hs in IH |- *.
  destruct (chr_eqb c sep); simpl in *; lia.
Qed.

Lemma split_on_free sep s : free_of sep s → split_on sep s = [s].
Proof.
  unfold free_of. induction s as [|c s IH]; [done|].
  intros Hfree. cbn [split_on]. rewrite IH by (intros ?; apply Hfree; by right).
  destruct (chr_eqb c sep) eqn:E; [|done].
  apply chr_eqb_eq in E as ->. destruct Hfree. by left.
Qed.

Lemma split_on_app sep a b :
  free_of sep a → split_on sep (a ++ sep :: b) = a :: split_on sep b.
Proof.
  unfold free_of. induction a as [|c a IH]; intros Hfree.
  - cbn [app split_on]. destruct (split_on_cons sep b) as (w & ws & ->).
    by rewrite (proj2 (chr_eqb_eq sep sep) eq_refl).
  - cbn [app split_on]. rewrite IH by (intros ?; apply Hfree; by right).
    destruct (chr_eqb c sep) eqn:E; [|done].
    apply chr_eqb_eq in E as ->. destruct Hfree. by left.
Qed.

Section Log.
Context {H : Host}.

Lemma success_status_fields filename md :
  (3 ≤ length (drop 1 (split_on "|" (success_status filename md))))%nat.
Proof.
  rewrite length_drop, split_on_length. unfold success_status.
  rewrite !List.filter_app, !length_app.
  change (length (List.filter (λ c, chr_eqb c "|") (py "success|"))) with 1%nat.
  change (length (List.filter (λ c, chr_eqb c "|") (py "|"))) with 1%nat.
  lia.
Qed.

Lemma summary_line_is_Some entry :
  (3 ≤ length entry)%nat → is_Some (summary_line entry).
Proof.
  destruct entry as [|e0 [|e1 [|e2 rest]]]; simpl; try lia. intros _.
  unfold summary_line. simpl. eauto.
Qed.

(** X13. The detail line of a processed item can always be written: its
    status string splits into at least three fields after the leading
    [success].  When neither the file name nor the printed timestamp and
    coordinates contain the separator [|], the line shows exactly the file
    name, the timestamp as the log has it, and the coordinate pair. *)
Theorem summary_line_of_success (filename : pystr) (md : dict) :
  let entry := drop 1 (split_on "|" (success_status filename md)) in
  let date := get_str md "datetime" "?" in
  let gps := get_str md "latitude" "0" ++ py "," ++ get_str md "longitude" "0" in
  is_Some (summary_line entry)
  ∧ (free_of "|" filename → free_of "|" date → free_of "|" gps →
     summary_line entry
     = Some (py "File: " ++ filename ++ py " | Date: " ++ date
             ++ py " | GPS: " ++ gps ++ [ascii_of_nat 10])).
Proof.
  cbn zeta. split.
  - apply summary_line_is_Some, success_status_fields.
  - intros Hf Hd Hg.
    assert (success_status filename md
            = py "success" ++ "|"%char :: filename ++ "|"%char
                :: get_str md "datetime" "?" ++ "|"%char
                :: (get_str md "latitude" "0" ++ py "," ++ get_str md "longitude" "0"))
      as -> by reflexivity.
    rewrite split_on_app by (apply (bool_decide_unpack _); vm_compute; exact I).
    cbn [drop]. rewrite !split_on_app by done. by rewrite split_on_free.
Qed.

Lemma executor_map_results tasks : ∀ w results w',
  executor_map tasks w = (Ret results, w') →
  Forall (λ res, res = py "already_processed" ∨ res = py "error"
                 ∨ ∃ filename md, res = success_status filename md) results.
Proof.
  induction tasks as [|t tasks IH]; intros w results w' Hrun.
  - injection Hrun as <- _. constructor.
  - cbn [executor_map] in Hrun.
    apply bind_Ret_inv in Hrun as (r & w1 & Hr & Hrun).
    apply bind_Ret_inv in Hrun as (rs & w2 & Hrs & Hrun).
    injection Hrun as <- _. constructor; [|by eapply IH].
    apply process_single_video_forms in Hr
      as [?|[?|(? & ? & ? & ? & md & _ & _ & _ & ? & _)]]; eauto.
Qed.

Lemma tally_processed results : ∀ c,
  processed_count (fold_left tally_step results c)
  = processed_count c
    + Z.of_nat (length (List.filter (λ res, startswith res (py "success")) results)).
Proof.
  induction results as [|res results IH]; intros c; [simpl; lia|].
  cbn [fold_left List.filter]. rewrite IH. unfold tally_step.
  destruct (startswith res (py "success")); [cbn [processed_count length]; lia|].
  destruct (bool_decide _); cbn [processed_count]; lia.
Qed.

(** X14. After a run in which no worker raised, the details section of the
    summary has one entry for every result counted as processed, and each
    entry has the three fields the detail line reads: writing the summary
    cannot fail with an [IndexError]. *)
Theorem summary_details_writable (tasks : list video_info) (w : world)
    (results : list pystr) (w' : world) :
  executor_map tasks w = (Ret results, w') →
  Z.of_nat (length (successful_log results)) = processed_count (tally results)
  ∧ Forall (λ entry, is_Some (summary_line entry)) (successful_log results).
Proof.
  intros Hrun. split.
  - unfold successful_log, tally. rewrite length_map, tally_processed. simpl. lia.
  - apply executor_map_results in Hrun. unfold successful_log.
    apply Forall_map. induction Hrun as [|res results Hres _ IH]; [constructor|].
    cbn [List.filter]. destruct (startswith res (py "success")) eqn:Hs; [|done].
    constructor; [|done].
    destruct Hres as [->|[->|(filename & md & ->)]]; [done|done|].
    apply summary_line_is_Some, success_status_fields.
Qed.

End Log.

(** ** The timestamp from the log to the tags *)

Lemma lang_Rep n p w :
  lang (Rep n p) w → length w = n ∧ Forall (λ c, in_class p c = true) w.
Proof.
  revert w. induction n as [|n IH]; simpl.
  - by intros w ->.
  - intros w (w1 & w2 & -> & (c & -> & Hc) & H2).
    apply IH in H2 as [<- ?]. split; [done|by constructor].
Qed.

Lemma date_shape g :
  lang (group1 date_pat) g →
  ∃ y m d hh mm ss,
    digits 4 y ∧ digits 2 m ∧ digits 2 d ∧ digits 2 hh ∧ digits 2 mm ∧ digits 2 ss
    ∧ g = stamp "-" y m d hh mm ss.
Proof.
  intros (y & r1 & -> & Hy & s1 & r2 & -> & H1 & m & r3 & -> & Hm
          & s2 & r4 & -> & H2 & d & r5 & -> & Hd & s3 & r6 & -> & H3
          & hh & r7 & -> & Hhh & s4 & r8 & -> & H4 & mm & r9 & -> & Hmm
          & s5 & r10 & -> & H5 & ss & r11 & -> & Hss & ->).
  apply lang_Lit in H1 as ->. apply lang_Lit in H2 as ->. apply lang_Lit in H3 as ->.
  apply lang_Lit in H4 as ->. apply lang_Lit in H5 as ->.
  apply lang_Rep in Hy, Hm, Hd, Hhh, Hmm, Hss.
  exists y, m, d, hh, mm, ss. rewrite app_nil_r. done.
Qed.

Lemma replace_char a b s :
  replace s [a] [b] = map (λ c, if chr_eqb a c then b else c) s.
Proof.
  induction s as [|c s IH]; [done|].
  rewrite replace_cons. cbn [startswith length drop map app]. rewrite andb_true_r.
  destruct (chr_eqb a c); cbn [app]; rewrite ?drop_0; by rewrite IH.
Qed.

Lemma map_digits s :
  Forall (λ c, is_digit c = true) s →
  map (λ c, if chr_eqb "-" c then ":"%char else c) s = s.
Proof.
  induction 1 as [|c s Hc _ IH]; [done|]. cbn [map]. rewrite IH.
  apply digit_not_punct in Hc as (Hc & _). unfold chr_eqb in *.
  rewrite Ascii.eqb_sym. by rewrite Hc.
Qed.

Lemma stamp_replace y m d hh mm ss :
  digits 4 y → digits 2 m → digits 2 d → digits 2 hh → digits 2 mm → digits 2 ss →
  replace (stamp "-" y m d hh mm ss) (py "-") (py ":") = stamp ":" y m d hh mm ss.
Proof.
  intros [_ Hy] [_ Hm] [_ Hd] [_ Hhh] [_ Hmm] [_ Hss].
  change (py "-") with ["-"%char]. change (py ":") with [":"%char].
  rewrite replace_char. unfold stamp.
  repeat (rewrite map_app; cbn [map]).
  rewrite !map_digits by done. reflexivity.
Qed.

Section Tags.
Context {H : Host}.

(** X15. For a record parsed from a log with a timestamp, [inject_metadata]
    starts at most one command, and exactly one on a console that prints
    everything (it starts none only when a status line cannot be printed).
    The timestamp [YYYY-MM-DD HH:MM:SS] of the log is in that command as
    [YYYY:MM:DD HH:MM:SS] under each of the seven date tags, and the
    ISO 6709 string of the record's coordinates under each of the three
    location tags. *)
Theorem parsed_record_written_to_tags
    (fs : fsmap) (srt_path text : pystr) (metadata : dict)
    (video_path : pystr) (w : world) :
  fs !! srt_path = Some text →
  parse_srt_data fs srt_path = Some metadata →
  occurs date_pat text →
  ∃ y m d hh mm ss lat lon cmd,
    (digits 4 y ∧ digits 2 m ∧ digits 2 d ∧ digits 2 hh ∧ digits 2 mm ∧ digits 2 ss)
    ∧ metadata !! "datetime" = Some (VStr (stamp "-" y m d hh mm ss))
    ∧ metadata !! "latitude" = Some (VNum lat)
    ∧ metadata !! "longitude" = Some (VNum lon)
    ∧ (trace (snd (inject_metadata video_path metadata w)) = trace w ++ [cmd]
       ∨ (trace (snd (inject_metadata video_path metadata w)) = trace w
          ∧ console_failure (fst (inject_metadata video_path metadata w))))
    ∧ (console_accepts →
       trace (snd (inject_metadata video_path metadata w)) = trace w ++ [cmd])
    ∧ Forall (λ tag, tag ++ stamp ":" y m d hh mm ss ∈ cmd) date_tags
    ∧ Forall (λ tag, tag ++ format_iso6709 lat lon (altitude_of metadata) ∈ cmd)
             gps_tags.
Proof.
  intros Hfile Hparse Hdate.
  pose proof (parse_record_well_typed fs srt_path text metadata Hfile Hparse Hdate)
    as Hty.
  destruct (parse_record_fields fs srt_path text metadata Hfile Hparse) as (Hd & _).
  apply re_search_occurs in Hdate as [g Hg]. rewrite Hg in Hd.
  apply re_search_sound in Hg as (before & w0 & w2 & after & _ & _ & Hlang & _).
  apply date_shape in Hlang as (y & m & d & hh & mm & ss & Hy & Hm & Hd' & Hhh
                                & Hmm & Hss & ->).
  destruct (inject_metadata_run video_path metadata w Hty)
    as (dt & lat & lon & cmd & fs0 & r & w' & _ & (Hdt & Hlat & Hlon) & _
        & Hdates & Hgps & Hrun & Hout).
  rewrite Hd in Hdt. injection Hdt as <-.
  exists y, m, d, hh, mm, ss, lat, lon, cmd. rewrite Hrun. cbn [fst snd].
  split; [done|]. split; [done|]. split; [done|]. split; [done|].
  split; [|split; [|split]].
  - destruct Hout as [[? ?]|[? _]]; [by right|by left].
  - intros Hc. destruct Hout as [[_ Hf]|[? _]]; [|done].
    by apply console_accepts_no_failure in Hf.
  - by rewrite <- (stamp_replace y m d hh mm ss).
  - done.
Qed.

End Tags.

Lemma parsed_record_written_to_tags_witness :
  let metadata := default ∅ (parse_srt_data sample_fs (py "/src/DJI_0001.SRT")) in
  let run := inject_metadata (H := host_ok) (py "/export/DJI_0001_edit.mp4")
               metadata (World sample_fs []) in
  ∃ y m d hh mm ss lat lon cmd,
    (digits 4 y ∧ digits 2 m ∧ digits 2 d ∧ digits 2 hh ∧ digits 2 mm ∧ digits 2 ss)
    ∧ metadata !! "datetime" = Some (VStr (stamp "-" y m d hh mm ss))
    ∧ metadata !! "latitude" = Some (VNum lat)
    ∧ metadata !! "longitude" = Some (VNum lon)
    ∧ (trace (snd run) = [] ++ [cmd]
       ∨ (trace (snd run) = [] ∧ console_failure (H := host_ok) (fst run)))
    ∧ (console_accepts (H := host_ok) → trace (snd run) = [] ++ [cmd])
    ∧ Forall (λ tag, tag ++ stamp ":" y m d hh mm ss ∈ cmd) date_tags
    ∧ Forall (λ tag, tag ++ format_iso6709 lat lon (altitude_of metadata) ∈ cmd)
             gps_tags.
Proof.
  apply (parsed_record_written_to_tags (H := host_ok)
           sample_fs (py "/src/DJI_0001.SRT") sample_srt
           (default ∅ (parse_srt_data sample_fs (py "/src/DJI_0001.SRT")))
           (py "/export/DJI_0001_edit.mp4") (World sample_fs [])).
  - reflexivity.
  - vm_compute. reflexivity.
  - apply occurs_by_search. vm_compute. discriminate.
Defined.

(** With a console that is gone, the first status line of
    [inject_metadata] raises and exiftool is not started. *)
Lemma inject_metadata_broken_console :
  let metadata := default ∅ (parse_srt_data sample_fs (py "/src/DJI_0001.SRT")) in
  inject_metadata (H := host_broken_console) (py "/export/DJI_0001_edit.mp4")
    metadata (World sample_fs [])
  = (Raise OSError, World sample_fs []).
Proof. vm_compute. reflexivity. Qed.


(** ** The temporary files of the tools and the export scan *)

Lemma rsplit_sep_free t : sep_free t → Posix.rsplit_sep t = ([], t).
Proof.
  induction 1 as [|c t Hc _ IH]; [done|]. cbn [Posix.rsplit_sep]. by rewrite IH, Hc.
Qed.

Lemma rsplit_sep_app p t :
  sep_free t →
  Posix.rsplit_sep (p ++ t)
  = (fst (Posix.rsplit_sep p), snd (Posix.rsplit_sep p) ++ t).
Proof.
  intros Ht. induction p as [|c p IH].
  - by rewrite rsplit_sep_free.
  - cbn [app Posix.rsplit_sep]. rewrite IH.
    destruct (Posix.rsplit_sep p) as [[|h0 h] t0]; cbn [fst snd]; [|done].
    by destruct (Posix.is_sep c).
Qed.

Lemma rsplit_sep_slash a :
  Posix.rsplit_sep (a ++ ["/"%char]) = (a ++ ["/"%char], []).
Proof.
  induction a as [|c a IH]; [done|].
  cbn [app Posix.rsplit_sep]. rewrite IH. by destruct a.
Qed.

Lemma basename_sep_free p : sep_free (Posix.basename p).
Proof.
  unfold Posix.basename. induction p as [|c p IH]; [constructor|].
  cbn [Posix.rsplit_sep]. destruct (Posix.rsplit_sep p) as [[|h0 h] t]; cbn [snd] in *.
  - destruct (Posix.is_sep c) eqn:Hc; cbn [snd]; [done|by constructor].
  - done.
Qed.

Lemma basename_app p t :
  sep_free t → Posix.basename (p ++ t) = Posix.basename p ++ t.
Proof. intros Ht. unfold Posix.basename. by rewrite rsplit_sep_app. Qed.

Lemma basename_join a b :
  sep_free b → b ≠ [] → Posix.basename (Posix.join a b) = b.
Proof.
  intros Hb Hne. unfold Posix.join. change (py "/") with ["/"%char] in *.
  assert (startswith b ["/"%char] = false) as ->.
  { destruct Hb as [|c b Hc _]; [done|]. cbn [startswith]. rewrite andb_true_r.
    unfold Posix.is_sep, chr_eqb in *. by rewrite Ascii.eqb_sym, Hc. }
  assert (∀ a', Posix.basename ((a' ++ ["/"%char]) ++ b) = b) as Hslash.
  { intros a'. rewrite basename_app by done. unfold Posix.basename.
    by rewrite (rsplit_sep_slash a'). }
  destruct a as [|a0 a].
  - unfold Posix.basename. by rewrite rsplit_sep_free.
  - destruct (startswith (reverse (a0 :: a)) ["/"%char]) eqn:Hs.
    + destruct (reverse (a0 :: a)) as [|c r] eqn:Hr; [done|].
      cbn [startswith] in Hs. apply andb_true_iff in Hs as [Hc _].
      apply chr_eqb_eq in Hc as <-.
      apply (f_equal reverse) in Hr. rewrite reverse_involutive, reverse_cons in Hr.
      rewrite Hr. apply Hslash.
    + rewrite <- (Hslash (a0 :: a)) at 2. by rewrite <- app_assoc.
Qed.

Lemma startswith_app_l p : ∀ a x,
  (length p ≤ length a)%nat → startswith (a ++ x) p = startswith a p.
Proof.
  induction p as [|c p IH]; intros a x Hlen; [by destruct a|].
  destruct a as [|b a]; [simpl in Hlen; lia|].
  cbn [app startswith]. rewrite IH by (simpl in Hlen; lia). done.
Qed.

Lemma contains_prefix p s : contains (p ++ s) p = true.
Proof.
  assert (startswith (p ++ s) p = true) as Hs.
  { induction p as [|c p IH]; [by destruct s|].
    cbn [app startswith]. rewrite IH. by rewrite (proj2 (chr_eqb_eq c c) eq_refl). }
  destruct (p ++ s); simpl in *; by rewrite Hs.
Qed.

(** X16. On a POSIX host, the files that the tools leave behind when they
    are interrupted are never taken for videos by a later export scan: the
    [temp_] sibling that [embed_subtitle] writes for a video, and the
    [_exiftool_tmp] file of a video, whatever the index holds. *)
Theorem tool_temporaries_never_scheduled
    (run : list pystr → fsmap → launch) (mv : pystr → pystr → fsmap → bool)
    (source_map : odict) (root video_path : pystr) :
  export_item (H := Posix.host run mv) source_map
    (root, Posix.basename (temp_output_of (H := Posix.host run mv) video_path)) = []
  ∧ export_item (H := Posix.host run mv) source_map
      (root, Posix.basename (video_path ++ py "_exiftool_tmp")) = [].
Proof.
  split.
  - unfold temp_output_of. cbn [dirname basename join Posix.host].
    rewrite basename_join.
    + unfold export_item, export_step. cbn [fst snd].
      destruct (_ || _); [|done].
      rewrite (contains_prefix (py "temp_")). by rewrite orb_true_r.
    + apply Forall_app. split; [|apply basename_sep_free].
      by repeat constructor.
    + done.
  - rewrite basename_app by (by repeat constructor).
    unfold export_item, export_step. cbn [fst snd].
    unfold endswith, lower. rewrite map_app, reverse_app.
    rewrite !startswith_app_l by (vm_compute; lia). done.
Qed.


(** ** The further properties at concrete inputs *)

Lemma inject_metadata_outcomes_witness :
  let video_path := py "/export/DJI_0001_edit.mp4" in
  let metadata := default ∅ (parse_srt_data sample_fs (py "/src/DJI_0001.SRT")) in
  let w := World sample_fs [] in
  let tmp_path := video_path ++ py "_exiftool_tmp" in
  ∃ cmd fs r w',
    inject_metadata (H := host_exiftool_fails) video_path metadata w = (r, w')
    ∧ (fs = delete tmp_path (files w)
       ∨ (fs = files w
          ∧ remove_ok (Host := host_exiftool_fails) tmp_path (files w) = false))
    ∧ head cmd = Some (py "exiftool")
    ∧ cmd !! 1%nat = Some (py "-overwrite_original")
    ∧ last cmd = Some video_path
    ∧ ((trace w' = trace w ∧ console_failure (H := host_exiftool_fails) r)
       ∨ (trace w' = trace w ++ [cmd]
          ∧ match run_process (Host := host_exiftool_fails) cmd fs with
            | Launched c fs' =>
                files w' = fs'
                ∧ (if (returncode c =? 0) || utf8_valid (stderr c)
                   then r = Ret () ∨ console_failure (H := host_exiftool_fails) r
                   else r = Raise UnicodeDecodeError)
            | NotFound => r = Raise FileNotFoundError
            | Refused => r = Raise OSError
            end))
    ∧ (console_accepts (H := host_exiftool_fails) →
       trace w' = trace w ++ [cmd]
       ∧ ∀ c fs', run_process (Host := host_exiftool_fails) cmd fs = Launched c fs' →
           returncode c = 0 ∨ utf8_valid (stderr c) = true → r = Ret ()).
Proof.
  apply (inject_metadata_outcomes (H := host_exiftool_fails)
           (py "/export/DJI_0001_edit.mp4")
           (default ∅ (parse_srt_data sample_fs (py "/src/DJI_0001.SRT")))
           (World sample_fs [])).
  repeat split; try (eexists; vm_compute; reflexivity).
  right. eexists. vm_compute. reflexivity.
Defined.

Lemma untimed_record_raises_key_error_witness :
  ∃ metadata,
    parse_srt_data untimed_fs (py "/src/DJI_0001.SRT") = Some metadata
    ∧ inject_metadata (H := host_ok) (py "/export/DJI_0001.mp4") metadata
        (World untimed_fs [])
      = (Raise (KeyError "datetime"), World untimed_fs []).
Proof.
  apply (untimed_record_raises_key_error (H := host_ok)
           untimed_fs (py "/src/DJI_0001.SRT") untimed_srt
           (py "/export/DJI_0001.mp4") (World untimed_fs [])).
  - reflexivity.
  - apply occurs_by_search. vm_compute. discriminate.
  - apply occurs_by_search. vm_compute. discriminate.
  - apply re_search_None. vm_compute. reflexivity.
Defined.

Lemma parse_srt_data_record_witness :
  let data := default ∅ (parse_srt_data sample_fs (py "/src/DJI_0001.SRT")) in
  data !! "datetime" = VStr <$> re_search date_pat sample_srt
  ∧ data !! "latitude" = float_value <$> (re_search lat_pat sample_srt ≫= py_float)
  ∧ data !! "longitude" = float_value <$> (re_search lon_pat sample_srt ≫= py_float)
  ∧ data !! "altitude" = float_value <$> (re_search alt_pat sample_srt ≫= py_float)
  ∧ data !! "iso" = VStr <$> re_search iso_pat sample_srt
  ∧ data !! "shutter" = clean_shutter <$> re_search shutter_pat sample_srt
  ∧ data !! "fnum" = fnum_value <$> (re_search fnum_pat sample_srt ≫= py_float)
  ∧ (∀ k, is_Some (data !! k) →
       k ∈ ["datetime"; "latitude"; "longitude"; "altitude"; "iso"; "shutter"; "fnum"]%string).
Proof.
  apply (parse_srt_data_record sample_fs (py "/src/DJI_0001.SRT") sample_srt
           (default ∅ (parse_srt_data sample_fs (py "/src/DJI_0001.SRT")))).
  - reflexivity.
  - vm_compute. reflexivity.
Defined.

Lemma worker_outcome_forms_witness :
  let vi := VideoInfo (py "/export/DJI_0001_edit.mp4") (py "/src/DJI_0001.SRT")
                      false true true 1 1 in
  let w := World sample_fs [] in
  let s := py "success|DJI_0001_edit.mp4|2025-08-09 18:53:47|35.6812,139.7671" in
  s = py "already_processed"
  ∨ s = py "error"
  ∨ ∃ processed w1 srt_ok w2 md,
      (if force vi then ret false
       else check_if_processed (H := host_ok) (export_path vi)) w
        = (Ret processed, w1)
      ∧ (if has_ffmpeg vi
         then embed_subtitle (H := host_ok) (export_path vi) (matched_srt vi)
         else ret true) w1 = (Ret srt_ok, w2)
      ∧ parse_srt_data (files w2) (matched_srt vi) = Some md
      ∧ s = success_status (H := host_ok)
              (basename (Host := host_ok) (export_path vi)) md
      ∧ (files w2 !! matched_srt vi = files w !! matched_srt vi →
         parse_srt_data (files w) (matched_srt vi) = Some md).
Proof.
  apply (worker_outcome_forms (H := host_ok)
           (VideoInfo (py "/export/DJI_0001_edit.mp4") (py "/src/DJI_0001.SRT")
                      false true true 1 1)
           (World sample_fs [])
           (py "success|DJI_0001_edit.mp4|2025-08-09 18:53:47|35.6812,139.7671")
           (snd (process_single_video (H := host_ok)
                   (VideoInfo (py "/export/DJI_0001_edit.mp4") (py "/src/DJI_0001.SRT")
                              false true true 1 1)
                   (World sample_fs [])))).
  vm_compute. reflexivity.
Defined.


Lemma worker_returns_outcome_witness :
  ∃ s w',
    process_single_video (H := host_quiet)
      (VideoInfo (py "/export/DJI_0001_edit.mp4") (py "/src/DJI_0001.SRT")
                 true false true 1 1)
      (World sample_fs []) = (Ret s, w').
Proof.
  apply (worker_returns_outcome (H := host_quiet)
           (VideoInfo (py "/export/DJI_0001_edit.mp4") (py "/src/DJI_0001.SRT")
                      true false true 1 1)
           (World sample_fs [])).
  - intros template fields. reflexivity.
  - intros p fs. reflexivity.
  - intros cmd fs c fs' Hrun _. injection Hrun as <- _. reflexivity.
  - intros cmd fs _. by eexists _, _.
  - intros cmd fs c fs' Hrun. injection Hrun as _ <-. reflexivity.
  - discriminate.
  - vm_compute. discriminate.
  - intros text Htext _ _.
    assert (files (World sample_fs []) !! py "/src/DJI_0001.SRT" = Some sample_srt)
      as Hsample by reflexivity.
    cbn [matched_srt] in Htext. rewrite Hsample in Htext. injection Htext as <-.
    apply occurs_by_search. vm_compute. discriminate.
Defined.

Lemma summary_details_writable_witness :
  let results := [py "success|DJI_0001_edit.mp4|2025-08-09 18:53:47|35.6812,139.7671"] in
  Z.of_nat (length (successful_log results)) = processed_count (tally results)
  ∧ Forall (λ entry, is_Some (summary_line entry)) (successful_log results).
Proof.
  apply (summary_details_writable (H := host_ok)
           [VideoInfo (py "/export/DJI_0001_edit.mp4") (py "/src/DJI_0001.SRT")
                      false true true 1 1]
           (World sample_fs [])
           [py "success|DJI_0001_edit.mp4|2025-08-09 18:53:47|35.6812,139.7671"]
           (snd (executor_map (H := host_ok)
                   [VideoInfo (py "/export/DJI_0001_edit.mp4") (py "/src/DJI_0001.SRT")
                              false true true 1 1]
                   (World sample_fs [])))).
  vm_compute. reflexivity.
Defined.

Lemma embed_subtitle_replace_or_restore_witness :
  let video_path := py "/export/DJI_0001_edit.mp4" in
  let srt_path := py "/src/DJI_0001.SRT" in
  let w := World sample_fs [] in
  let temp_output := temp_output_of (H := host_ffmpeg_fails) video_path in
  let cmd := ffmpeg_cmd video_path srt_path temp_output in
  ∃ ok w', embed_subtitle (H := host_ffmpeg_fails) video_path srt_path w = (Ret ok, w')
    ∧ files w' !! temp_output = None
    ∧ trace w' = trace w ++ [cmd]
    ∧ (ok = false → files w' !! video_path = files w !! video_path)
    ∧ (ok = true ↔
         ∃ c fs' content,
           run_process (Host := host_ffmpeg_fails) cmd (files w) = Launched c fs'
           ∧ returncode c = 0
           ∧ fs' !! temp_output = Some content
           ∧ move_ok (Host := host_ffmpeg_fails) temp_output video_path fs' = true)
    ∧ (∀ c fs' content,
         run_process (Host := host_ffmpeg_fails) cmd (files w) = Launched c fs' →
         returncode c = 0 → fs' !! temp_output = Some content →
         move_ok (Host := host_ffmpeg_fails) temp_output video_path fs' = true →
         files w' !! video_path = Some content).
Proof.
  apply (embed_subtitle_replace_or_restore (H := host_ffmpeg_fails)
           (py "/export/DJI_0001_edit.mp4") (py "/src/DJI_0001.SRT")
           (World sample_fs [])).
  - intros template fields. reflexivity.
  - intros p fs. reflexivity.
  - intros fs. reflexivity.
  - vm_compute. discriminate.
  - intros c fs' Hl. split.
    + apply (exits_keeps_other _ _ _ _ _ _ _ _ Hl). vm_compute. discriminate.
    + intros _. vm_compute in Hl. injection Hl as <- _. reflexivity.
Defined.
